(** * WeatherKI backend

    A shallow embedding of the TTL cache ([cacheService.ts]), the weather
    lookup service ([weatherService.ts]), the Gemini-backed AI controller
    ([geminiAIController.ts]) and the widget controller with its schema,
    followed by the properties established about them. *)

From Stdlib Require Import ZArith QArith Qround Qabs Ascii String.
From stdpp Require Import gmap strings list fin_maps sorting pretty.

Open Scope Z_scope.

#[local] Set Warnings "-register-all".

(** ** JavaScript values used by the handlers *)

Module JS.

(** A string holds the UTF-8 encoding of the JavaScript string: a
    character of the ASCII range is one byte, every other character is a
    lead byte followed by one to three continuation bytes. *)

Definition is_upper (c : ascii) : bool :=
  let n := nat_of_ascii c in (65 <=? n)%nat && (n <=? 90)%nat.

Definition lower_ascii (c : ascii) : ascii :=
  if is_upper c then ascii_of_nat (nat_of_ascii c + 32) else c.

(** The letters A to Z mapped to lower case, every other byte kept: two
    texts of the ASCII range are equal up to letter case when their
    images are equal. *)
Fixpoint fold_ascii (s : string) : string :=
  match s with
  | EmptyString => EmptyString
  | String c r => String (lower_ascii c) (fold_ascii r)
  end.

(** [String.prototype.toLowerCase] applies the case mappings of the
    Unicode standard, which are taken as an interface. *)
Class CaseMapping := {
  toLowerCase : string -> string;
}.

(** An instance on which the lookups can be run.  It maps the letters
    of the ASCII range and of the Latin-1 supplement (U+00C0 to U+00DE
    without U+00D7, encoded as byte 195 followed by 128 to 158 without
    151), as [toLowerCase] does, and keeps every other character. *)
Definition lower_latin1_second (d : ascii) : ascii :=
  let n := nat_of_ascii d in
  if (128 <=? n)%nat && (n <=? 158)%nat && negb (n =? 151)%nat
  then ascii_of_nat (n + 32) else d.

Fixpoint lower_latin1 (s : string) : string :=
  match s with
  | EmptyString => EmptyString
  | String c r =>
      if (nat_of_ascii c =? 195)%nat
      then
        match r with
        | String d r' => String c (String (lower_latin1_second d) (lower_latin1 r'))
        | EmptyString => String c EmptyString
        end
      else String (lower_ascii c) (lower_latin1 r)
  end.

Definition Latin1 : CaseMapping := {| toLowerCase := lower_latin1 |}.

(** *** String.prototype.trim

    White space and line terminators are TAB, LF, VT, FF, CR and SPACE;
    U+00A0 (bytes 194 160); and, in three bytes, U+1680 (225 154 128),
    U+2000 to U+200A (226 128 128 to 138), U+2028, U+2029 and U+202F
    (226 128 168, 169 and 175), U+205F (226 129 159), U+3000
    (227 128 128) and U+FEFF (239 187 191). *)
Definition is_white (c : ascii) : bool :=
  let n := nat_of_ascii c in ((9 <=? n)%nat && (n <=? 13)%nat) || (n =? 32)%nat.

Definition is_white2 (a b : ascii) : bool :=
  (nat_of_ascii a =? 194)%nat && (nat_of_ascii b =? 160)%nat.

Definition is_white3 (a b c : ascii) : bool :=
  let x := nat_of_ascii a in
  let y := nat_of_ascii b in
  let z := nat_of_ascii c in
  ((x =? 225)%nat && (y =? 154)%nat && (z =? 128)%nat)
  || ((x =? 226)%nat && (y =? 128)%nat
      && (((128 <=? z)%nat && (z <=? 138)%nat)
          || (z =? 168)%nat || (z =? 169)%nat || (z =? 175)%nat))
  || ((x =? 226)%nat && (y =? 129)%nat && (z =? 159)%nat)
  || ((x =? 227)%nat && (y =? 128)%nat && (z =? 128)%nat)
  || ((x =? 239)%nat && (y =? 187)%nat && (z =? 191)%nat).

(** The text after the white space character at the head of [s], when
    there is one. *)
Definition skip_white (s : string) : option string :=
  match s with
  | EmptyString => None
  | String a r1 =>
      if is_white a then Some r1
      else
        match r1 with
        | EmptyString => None
        | String b r2 =>
            if is_white2 a b then Some r2
            else
              match r2 with
              | EmptyString => None
              | String c r3 => if is_white3 a b c then Some r3 else None
              end
        end
  end.

Fixpoint trimStart (s : string) : string :=
  match s with
  | EmptyString => EmptyString
  | String a r1 =>
      if is_white a then trimStart r1
      else
        match r1 with
        | EmptyString => s
        | String b r2 =>
            if is_white2 a b then trimStart r2
            else
              match r2 with
              | EmptyString => s
              | String c r3 => if is_white3 a b c then trimStart r3 else s
              end
        end
  end.

(** A text made of white space only.  No continuation byte starts a
    white space character, so the text from the middle of a character on
    is never blank. *)
Definition blank (s : string) : bool :=
  match trimStart s with EmptyString => true | _ => false end.

Fixpoint trimEnd (s : string) : string :=
  match s with
  | EmptyString => EmptyString
  | String c r => if blank s then EmptyString else String c (trimEnd r)
  end.

Definition trim (s : string) : string := trimEnd (trimStart s).

(** [String.prototype.length] counts UTF-16 code units: one for a
    character of one to three bytes, two for a character of four. *)
Fixpoint length (s : string) : nat :=
  match s with
  | EmptyString => 0
  | String c r1 =>
      let n := nat_of_ascii c in
      if (n <? 192)%nat then S (length r1)
      else if (n <? 224)%nat then
        match r1 with
        | String _ r2 => S (length r2)
        | EmptyString => 1
        end
      else if (n <? 240)%nat then
        match r1 with
        | String _ (String _ r3) => S (length r3)
        | _ => 1
        end
      else
        match r1 with
        | String _ (String _ (String _ r4)) => S (S (length r4))
        | _ => 2
        end
  end.

(** Truthiness of a string: only the empty string is falsy. *)
Definition truthy (s : string) : bool :=
  match s with EmptyString => false | _ => true end.

(** [o || d] for a possibly undefined string [o]. *)
Definition or_else (o : option string) (d : string) : string :=
  match o with
  | Some s => if truthy s then s else d
  | None => d
  end.

(** [Array.prototype.join]. *)
Definition join (sep : string) (l : list string) : string := String.concat sep l.

(** The default [Array.prototype.sort] on an array of strings:
    ascending order of UTF-16 code units.  This is the order of the
    bytes, except that a character of four bytes (lead byte 240 to 244, a
    surrogate pair in UTF-16) comes before the characters U+E000 to
    U+FFFF (lead byte 238 or 239).  [rank] moves the lead bytes
    accordingly and [unrank] moves them back. *)
Definition rank (c : ascii) : ascii :=
  let n := nat_of_ascii c in
  if (240 <=? n)%nat && (n <=? 244)%nat then ascii_of_nat (n - 2)
  else if (n =? 238)%nat then ascii_of_nat 243
  else if (n =? 239)%nat then ascii_of_nat 244
  else c.

Definition unrank (c : ascii) : ascii :=
  let n := nat_of_ascii c in
  if (238 <=? n)%nat && (n <=? 242)%nat then ascii_of_nat (n + 2)
  else if (n =? 243)%nat then ascii_of_nat 238
  else if (n =? 244)%nat then ascii_of_nat 239
  else c.

Fixpoint map_bytes (f : ascii -> ascii) (s : string) : string :=
  match s with
  | EmptyString => EmptyString
  | String c r => String (f c) (map_bytes f r)
  end.

Definition sort (l : list string) : list string :=
  map_bytes unrank <$> merge_sort String.le (map_bytes rank <$> l).

(** *** JSON.stringify *)

Inductive Value :=
| Undefined
| Null
| Bool (b : bool)
| Number (n : Z)
| Str (s : string)
| Array (l : list Value)
| Object (fields : list (string * Value)).

Definition quote_char : ascii := ascii_of_nat 34.
Definition backslash : ascii := ascii_of_nat 92.

Definition hex_digit (n : nat) : ascii :=
  if (n <? 10)%nat then ascii_of_nat (48 + n) else ascii_of_nat (87 + n).

Definition escape_char (c : ascii) : string :=
  let n := nat_of_ascii c in
  if (n =? 34)%nat then String backslash (String quote_char EmptyString)
  else if (n =? 92)%nat then String backslash (String backslash EmptyString)
  else if (n =? 8)%nat then String backslash "b"
  else if (n =? 9)%nat then String backslash "t"
  else if (n =? 10)%nat then String backslash "n"
  else if (n =? 12)%nat then String backslash "f"
  else if (n =? 13)%nat then String backslash "r"
  else if (n <? 32)%nat then
    String backslash
      (String "u" (String "0" (String "0"
        (String (hex_digit (n / 16)) (String (hex_digit (n mod 16)) EmptyString)))))
  else String c EmptyString.

Fixpoint escape (s : string) : string :=
  match s with
  | EmptyString => EmptyString
  | String c r => escape_char c +:+ escape r
  end.

Definition quote (s : string) : string :=
  String quote_char (escape s +:+ String quote_char EmptyString).

(** [None] stands for the result [undefined]. *)
Fixpoint stringify (v : Value) : option string :=
  match v with
  | Undefined => None
  | Null => Some "null"
  | Bool b => Some (if b then "true" else "false")
  | Number n => Some (pretty n)
  | Str s => Some (quote s)
  | Array l =>
      Some ("[" +:+ join ","
              (List.map (fun x => default "null" (stringify x)) l) +:+ "]")
  | Object fields =>
      let member (kv : string * Value) : list string :=
        match stringify (snd kv) with
        | Some s => [quote (fst kv) +:+ ":" +:+ s]
        | None => []
        end in
      Some ("{" +:+ join "," (List.concat (List.map member fields)) +:+ "}")
  end.

(** A value interpolated in a template literal. *)
Definition interpolate (o : option string) : string := default "undefined" o.

Definition of_strings (l : list string) : Value := Array (List.map Str l).

Definition of_option {A} (f : A -> Value) (o : option A) : Value :=
  match o with Some a => f a | None => Undefined end.

(** *** Numbers

    The arithmetic and the formatting of IEEE doubles are taken as an
    interface; the handlers only combine its operations. *)

Class Num (num : Type) := {
  zero : num;
  of_nat : nat -> num;
  add : num -> num -> num;
  mul : num -> num -> num;
  div : num -> num -> num;
  Math_round : num -> num;
  toString : num -> string;
  toFixed : num -> nat -> string;
}.

(** An instance over the rationals, on which the handlers can be run:
    the arithmetic is exact and numbers print in decimal notation,
    [toString] with at most six decimals, [toFixed] rounding the exact
    value half up (a double that prints as a tie may lie below it).  The
    handlers divide by 10 and by the length of a non-empty array only. *)

Definition pad_left (width : nat) (s : string) : string :=
  String.concat "" (replicate (width - String.length s) "0") +:+ s.

Definition decimal (q : Q) (d : nat) : string :=
  let unit := 10 ^ Z.of_nat d in
  let scaled := Qfloor (Qabs q * inject_Z unit + (1 # 2)) in
  (if Qnum q <? 0 then "-" else "")
  +:+ pretty (scaled / unit)
  +:+ match d with
      | O => ""
      | _ => "." +:+ pad_left d (pretty (scaled mod unit))
      end.

Fixpoint drop_zeros (s : string) : string :=
  match s with
  | String c r => if Ascii.eqb c "0" then drop_zeros r else s
  | EmptyString => s
  end.

Definition strip_fraction (s : string) : string :=
  match drop_zeros (String.rev s) with
  | String c r => if Ascii.eqb c "." then String.rev r else String.rev (String c r)
  | EmptyString => EmptyString
  end.

#[global] Instance QNum : Num Q := {|
  zero := 0%Q;
  of_nat := fun n => inject_Z (Z.of_nat n);
  add := Qplus;
  mul := Qmult;
  div := Qdiv;
  Math_round := fun q => inject_Z (Qfloor (q + (1 # 2)));
  toString := fun q => strip_fraction (decimal q 6);
  toFixed := decimal;
|}.

End JS.

(** ** cacheService.ts *)

Module CacheService.
Section CacheService.

Context {T : Type}.

Record CachedItem := {
  data : T;
  timestamp : Z;
  key : string;
}.

(** The two private fields of an instance. *)
Record t := {
  cache : gmap string CachedItem;
  cacheDuration : Z;
}.

Definition with_cache (this : t) (c : gmap string CachedItem) : t :=
  {| cache := c; cacheDuration := cacheDuration this |}.

Definition default_duration : Z := 5 * 60 * 1000.

Definition new (cacheDurationMs : Z) : t :=
  {| cache := ∅; cacheDuration := cacheDurationMs |}.

(** [now] is the reading of [Date.now()] during the call. *)
Definition isExpired (now : Z) (this : t) (item : CachedItem) : bool :=
  cacheDuration this <? now - timestamp item.

Definition set (now : Z) (k : string) (d : T) (this : t) : t :=
  let item := {| data := d; timestamp := now; key := k |} in
  with_cache this (<[k := item]> (cache this)).

Definition get (now : Z) (k : string) (this : t) : option T * t :=
  match cache this !! k with
  | None => (None, this)
  | Some item =>
      if isExpired now this item
      then (None, with_cache this (base.delete k (cache this)))
      else (Some (data item), this)
  end.

Definition has (now : Z) (k : string) (this : t) : bool * t :=
  match cache this !! k with
  | None => (false, this)
  | Some item =>
      if isExpired now this item
      then (false, with_cache this (base.delete k (cache this)))
      else (true, this)
  end.

Definition delete (k : string) (this : t) : bool * t :=
  match cache this !! k with
  | Some _ => (true, with_cache this (base.delete k (cache this)))
  | None => (false, this)
  end.

Definition clear (this : t) : t := with_cache this ∅.

(** The loop over [this.cache.entries()], deleting as it goes. *)
Definition clearExpired (now : Z) (this : t) : t :=
  with_cache this
    (map_fold
       (fun k item c => if isExpired now this item then base.delete k c else c)
       (cache this) (cache this)).

Record Stats := {
  totalItems : nat;
  validItems : nat;
  expiredItems : nat;
  cacheDurationMs : Z;
}.

Definition getStats (now : Z) (this : t) : Stats :=
  let counts :=
    map_fold
      (fun _ item (acc : nat * nat) =>
         if isExpired now this item then (S (fst acc), snd acc)
         else (fst acc, S (snd acc)))
      (0%nat, 0%nat) (cache this) in
  {| totalItems := size (cache this);
     validItems := snd counts;
     expiredItems := fst counts;
     cacheDurationMs := cacheDuration this |}.

End CacheService.
Arguments CachedItem : clear implicits.
Arguments t : clear implicits.
End CacheService.

(** ** Effects of a request handler

    A handler runs against the state [S] of its component, may throw an
    exception [E], and leaves a trace of the outbound requests [C] it
    awaited, in the order it issued them. *)

Module Eff.
Section Eff.

Context {S C E : Type}.

Inductive Outcome (A : Type) :=
| Return (a : A)
| Throw (e : E).

Definition M (A : Type) : Type := S -> Outcome A * S * list C.

Definition ret {A} (a : A) : M A := fun s => (Return A a, s, []).

Definition throw {A} (e : E) : M A := fun s => (Throw A e, s, []).

Definition bind {A B} (m : M A) (f : A -> M B) : M B := fun s =>
  match m s with
  | (Return _ a, s', l) => let '(r, s'', l') := f a s' in (r, s'', l ++ l')
  | (Throw _ e, s', l) => (Throw B e, s', l)
  end.

(** [try { m } catch (e) { h e }] *)
Definition try_catch {A} (m : M A) (h : E -> M A) : M A := fun s =>
  match m s with
  | (Return _ a, s', l) => (Return A a, s', l)
  | (Throw _ e, s', l) => let '(r, s'', l') := h e s' in (r, s'', l ++ l')
  end.

Definition gets {A} (f : S -> A) : M A := fun s => (Return A (f s), s, []).

Definition modify (f : S -> S) : M unit := fun s => (Return unit tt, f s, []).

(** Record an outbound request. *)
Definition emit (c : C) : M unit := fun s => (Return unit tt, s, [c]).

Definition lift {A} (o : Outcome A) : M A := fun s => (o, s, []).

(** The results of a run of callbacks, up to the first that throws. *)
Fixpoint sequence {A} (l : list (Outcome A)) : Outcome (list A) :=
  match l with
  | [] => Return (list A) []
  | Return _ a :: r =>
      match sequence r with
      | Return _ r' => Return (list A) (a :: r')
      | Throw _ e => Throw (list A) e
      end
  | Throw _ e :: _ => Throw (list A) e
  end.

End Eff.
Arguments M : clear implicits.
Arguments Outcome : clear implicits.
Arguments Return {E A}.
Arguments Throw {E A}.
Arguments sequence {E A}.

#[global] Instance M_ret {S C E} : MRet (M S C E) := @ret S C E.
#[global] Instance M_bind {S C E} : MBind (M S C E) :=
  fun A B f m => bind m f.

(** [await Promise.all(l.map(f))] for requests that are issued in the
    order of [l]. *)
Fixpoint mapM {S C E A B} (f : A -> M S C E B) (l : list A) : M S C E (list B) :=
  match l with
  | [] => mret []
  | x :: r => y ← f x; ys ← mapM f r; mret (y :: ys)
  end.

End Eff.

(** ** weatherService.ts *)

Module WeatherService.
Import Eff.

Inductive Icon :=
| IconSun                  (* code 0 *)
| IconSunBehindCloud       (* up to 3 *)
| IconFog                  (* up to 48 *)
| IconRain                 (* up to 67 *)
| IconSnow                 (* up to 77 *)
| IconSunBehindRainCloud   (* up to 82 *)
| IconThunder              (* up to 99 *)
| IconSunBehindSmallCloud. (* default *)

Definition getWeatherIcon (weatherCode : Z) : Icon :=
  if weatherCode =? 0 then IconSun
  else if weatherCode <=? 3 then IconSunBehindCloud
  else if weatherCode <=? 48 then IconFog
  else if weatherCode <=? 67 then IconRain
  else if weatherCode <=? 77 then IconSnow
  else if weatherCode <=? 82 then IconSunBehindRainCloud
  else if weatherCode <=? 99 then IconThunder
  else IconSunBehindSmallCloud.

Definition descriptions : gmap Z string :=
  list_to_map
    [ (0, "Clear sky"); (1, "Mainly clear"); (2, "Partly cloudy");
      (3, "Overcast"); (45, "Foggy"); (48, "Depositing rime fog");
      (51, "Light drizzle"); (53, "Moderate drizzle"); (55, "Dense drizzle");
      (61, "Slight rain"); (63, "Moderate rain"); (65, "Heavy rain");
      (71, "Slight snow"); (73, "Moderate snow"); (75, "Heavy snow");
      (80, "Slight rain showers"); (81, "Moderate rain showers");
      (82, "Violent rain showers"); (95, "Thunderstorm");
      (96, "Thunderstorm with hail"); (99, "Thunderstorm with heavy hail") ].

Definition getWeatherDescription (weatherCode : Z) : string :=
  JS.or_else (descriptions !! weatherCode) "Unknown".

(** The outcome of an [axios.get]: a 2xx answer, a timeout
    ([ECONNABORTED]) or another failure with the HTTP status if any. *)
Inductive Http (A : Type) :=
| Answer (a : A)
| Aborted
| Failed (status : option nat).
Arguments Answer {A}.
Arguments Aborted {A}.
Arguments Failed {A}.

(** The errors the service throws; the messages of the first two come
    from [helpers/message.helper], and [TypeError] is the error of the
    engine when a member of [undefined] is read. *)
Inductive Error :=
| LocationNotFound
| ServiceTimeoutError (service : string)
| ApiError (service : string) (status : option nat)
| TypeError.

Section WeatherService.

Context {num : Type} `{!JS.Num num} `{!JS.CaseMapping}.

Record WeatherData := {
  temperature : num;
  condition : string;
  humidity : num;
  windSpeed : num;
  icon : Icon;
  description : string;
  cityName : string;
  country : string;
}.

Record GeocodeResult := {
  latitude : num;
  longitude : num;
  name : string;
  geo_country : string;
}.

(** [response.data.current] of the forecast provider. *)
Record Current := {
  temperature_2m : num;
  relative_humidity_2m : num;
  weather_code : Z;
  wind_speed_10m : num;
}.

Inductive Call :=
| GeocodingRequest (location : string)
| ForecastRequest (lat lon : num).

(** The providers and the time each request takes.  The geocoder
    answers with [response.data.results], the forecast provider with
    [response.data.current], which its answer may lack. *)
Record Env := {
  geocoding_api : string -> Http (list GeocodeResult);
  forecast_api : num -> num -> Http (option Current);
  latency : Call -> Z;
}.

Record State := {
  clock : Z;
  cacheService : CacheService.t WeatherData;
}.

Abbreviation M := (Eff.M State Call Error).

Definition Date_now : M Z := gets clock.

Definition await (env : Env) (c : Call) : M unit :=
  emit c;;
  modify (fun s => {| clock := clock s + latency env c;
                      cacheService := cacheService s |}).

Definition with_cacheService (f : CacheService.t WeatherData -> CacheService.t WeatherData)
  : M unit :=
  modify (fun s => {| clock := clock s; cacheService := f (cacheService s) |}).

(** [CACHE_DURATION], from the configured number of minutes. *)
Definition new (cacheDurationMinutes : Z) : CacheService.t WeatherData :=
  CacheService.new (cacheDurationMinutes * 60 * 1000).

Definition geocodeLocation (env : Env) (location : string) : M GeocodeResult :=
  await env (GeocodingRequest location);;
  match geocoding_api env location with
  | Answer [] => throw LocationNotFound
  | Answer (result :: _) => mret result
  | Aborted => throw (ServiceTimeoutError "Geocoding")
  | Failed status => throw (ApiError "Geocoding" status)
  end.

Definition fetchWeatherData (env : Env) (lat lon : num) : M (option Current) :=
  await env (ForecastRequest lat lon);;
  match forecast_api env lat lon with
  | Answer d => mret d
  | Aborted => throw (ServiceTimeoutError "Weather")
  | Failed status => throw (ApiError "Weather" status)
  end.

Definition getWeatherForLocation (env : Env) (location : string) : M WeatherData :=
  let cacheKey := JS.trim (JS.toLowerCase location) in
  now ← Date_now;
  svc ← gets cacheService;
  let '(cachedData, svc') := CacheService.get now cacheKey svc in
  with_cacheService (fun _ => svc');;
  match cachedData with
  | Some d => mret d
  | None =>
      try_catch
        (geocodeResult ← geocodeLocation env location;
         weatherData ← fetchWeatherData env (latitude geocodeResult)
                                            (longitude geocodeResult);
         (* [weatherData.current], whose members are read next *)
         current ← match weatherData with
                   | Some current => mret current
                   | None => throw TypeError
                   end;
         let weatherInfo :=
           {| temperature := JS.Math_round (temperature_2m current);
              condition := getWeatherDescription (weather_code current);
              humidity := relative_humidity_2m current;
              windSpeed :=
                JS.div (JS.Math_round (JS.mul (wind_speed_10m current) (JS.of_nat 10)))
                       (JS.of_nat 10);
              icon := getWeatherIcon (weather_code current);
              description := getWeatherDescription (weather_code current);
              cityName := name geocodeResult;
              country := geo_country geocodeResult |} in
         stored ← Date_now;
         with_cacheService (CacheService.set stored cacheKey weatherInfo);;
         mret weatherInfo)
        (fun error => throw error)
  end.

(** The state as a later request finds it, at time [t]. *)
Definition at_time (t : Z) (s : State) : State :=
  {| clock := t; cacheService := cacheService s |}.

Definition clearExpiredCache : M unit :=
  now ← Date_now;
  with_cacheService (CacheService.clearExpired now).

Definition getCacheStats : M CacheService.Stats :=
  now ← Date_now;
  svc ← gets cacheService;
  mret (CacheService.getStats now svc).

End WeatherService.
End WeatherService.

(** ** geminiAIController.ts *)

Module GeminiAIController.
Import Eff.

Inductive Call :=
| WeatherRequest (location : string)
| GeminiRequest (prompt : string) (maxTokens : nat).

Inductive Error :=
| TypeError               (* reading a property of [undefined] *)
| AIServiceUnavailable.   (* thrown by [callGemini] *)

(** The fields the handlers read from [req.body]; [None] is an absent
    field. *)
Record Body := {
  question : option string;
  locations : option (list string);
  currentLocations : option (list string);
  interests : option string;
  location : option string;
}.

Record CacheEntry := {
  data : string;
  timestamp : Z;
}.

Definition CACHE_TTL : Z := 5 * 60 * 1000.

Definition getCacheKey (type : string) (d : JS.Value) : string :=
  type +:+ "-" +:+ JS.interpolate (JS.stringify d).

(** A value is truthy when it is present and not the empty string. *)
Definition truthy (o : option string) : bool :=
  match o with Some s => JS.truthy s | None => false end.

Section GeminiAIController.

Context {num : Type} `{!JS.Num num}.

Record Main := { temp : num; humidity : num }.
Record Weather := { description : string }.
Record Wind := { speed : num }.

Record WeatherData := {
  main : Main;
  weather : list Weather;
  wind : Wind;
  visibility : option num;
}.

(** A member of the JSON object sent back. *)
Inductive Field :=
| Text (s : string)
| WeatherObject (w : WeatherData).

Record Response := {
  status : nat;
  body : list (string * Field);
}.

(** [res.json(b)] and [res.status(n).json(b)]. *)
Definition json (b : list (string * Field)) : Response :=
  {| status := 200; body := b |}.
Definition status_json (n : nat) (b : list (string * Field)) : Response :=
  {| status := n; body := b |}.

(** The member of a response body under a name. *)
Definition member (name : string) (r : Response) : option Field :=
  snd <$> List.find (fun kv => String.eqb (fst kv) name) (body r).

(** The weather provider answers with a document or fails; the
    generative provider answers with a text or fails. *)
Record Env := {
  weather_api : string -> option WeatherData;
  gemini_api : string -> nat -> option string;
  latency : Call -> Z;
}.

Record State := {
  clock : Z;
  aiCache : gmap string CacheEntry;
}.

Abbreviation M := (Eff.M State Call Error).

Definition Date_now : M Z := gets clock.

(** The state after [d] more milliseconds, and as a later request finds
    it at time [t]. *)
Definition advance (d : Z) (s : State) : State :=
  {| clock := clock s + d; aiCache := aiCache s |}.

Definition at_time (t : Z) (s : State) : State :=
  {| clock := t; aiCache := aiCache s |}.

Definition await (env : Env) (c : Call) : M unit :=
  emit c;;
  modify (advance (latency env c)).

(** The time a sequence of requests takes. *)
Definition elapsed (env : Env) (l : list Call) : Z :=
  foldr (fun c acc => latency env c + acc) 0 l.

Definition getCachedResponse (k : string) : M (option string) :=
  cached ← gets (fun s => aiCache s !! k);
  match cached with
  | Some c =>
      now ← Date_now;
      if now - timestamp c <? CACHE_TTL then mret (Some (data c)) else mret None
  | None => mret None
  end.

(** What [getCachedResponse] finds under [k] in the state [s]. *)
Definition cached_at (s : State) (k : string) : option string :=
  match aiCache s !! k with
  | Some c => if clock s - timestamp c <? CACHE_TTL then Some (data c) else None
  | None => None
  end.

(** The state [setCachedResponse] leaves. *)
Definition stored (k : string) (d : string) (s : State) : State :=
  {| clock := clock s;
     aiCache := <[k := {| data := d; timestamp := clock s |}]> (aiCache s) |}.

Definition setCachedResponse (k : string) (d : string) : M unit :=
  now ← Date_now;
  modify (fun s => {| clock := clock s;
                      aiCache := <[k := {| data := d; timestamp := now |}]> (aiCache s) |}).

(** Never throws: a failed request yields [null]. *)
Definition getWeatherData (env : Env) (loc : string) : M (option WeatherData) :=
  await env (WeatherRequest loc);;
  mret (weather_api env loc).

Definition callGemini (env : Env) (prompt : string) (maxTokens : nat) : M string :=
  await env (GeminiRequest prompt maxTokens);;
  match gemini_api env prompt maxTokens with
  | Some text => mret text
  | None => throw AIServiceUnavailable
  end.

(** [data.weather[0].description] *)
Definition first_description (d : WeatherData) : Outcome Error string :=
  match weather d with
  | w :: _ => Return (description w)
  | [] => Throw TypeError
  end.

(** *** POST /api/weather/ai/chat *)

Definition chatLine (loc : string) (d : option WeatherData) : Outcome Error string :=
  match d with
  | Some d =>
      match first_description d with
      | Return desc =>
          Return (loc +:+ ": " +:+ JS.toString (temp (main d)) +:+ "°C, " +:+ desc
                  +:+ ", humidity " +:+ JS.toString (humidity (main d)) +:+ "%")
      | Throw e => Throw e
      end
  | None => Return (loc +:+ ": Weather data unavailable")
  end.

Definition chatPrompt (q weatherContext : string) : string :=
  "You are a helpful weather assistant. Answer this weather question in a conversational, friendly way: "
  +:+ String JS.quote_char q +:+ String JS.quote_char ". 

Current weather data: " +:+ weatherContext +:+ "

Keep your response concise and informative (under 100 words).".

Definition chatFallback (locs : option (list string)) : string :=
  "I can help with weather questions! You're currently tracking "
  +:+ pretty (length (default [] locs))
  +:+ " locations. Check your weather widgets for current conditions.".

(** The block that fills [weatherContext] when locations are given. *)
Definition gatherContext (env : Env) (given : option (list string)) : M string :=
  match given with
  | Some ((_ :: _) as locs) =>
      weatherResults ← mapM (getWeatherData env) locs;
      lines ← mapM (fun p => lift (chatLine (fst p) (snd p)))
                   (zip locs weatherResults);
      mret (JS.join ". " lines)
  | _ => mret ""
  end.

Definition handleWeatherChat (env : Env) (req : Body) : M Response :=
  try_catch
    (match question req with
     | Some q =>
         if negb (JS.truthy q)
         then mret (status_json 400 [("error", Text "Question is required")])
         else
           let cacheKey :=
             getCacheKey "chat"
               (JS.Object [("question", JS.Str q);
                           ("locations", JS.of_option JS.of_strings (locations req))]) in
           cachedResponse ← getCachedResponse cacheKey;
           if truthy cachedResponse
           then mret (json [("response", Text (default "" cachedResponse))])
           else
             weatherContext ← gatherContext env (locations req);
             try_catch
               (response ← callGemini env (chatPrompt q weatherContext) 200;
                setCachedResponse cacheKey response;;
                mret (json [("response", Text response)]))
               (fun aiError =>
                  mret (json [("response", Text (chatFallback (locations req)))]))
     | None => mret (status_json 400 [("error", Text "Question is required")])
     end)
    (fun error =>
       mret (status_json 500 [("error", Text "Failed to process chat request")])).

(** *** POST /api/weather/ai/summary *)

Definition summaryLine (loc : string) (d : WeatherData) : Outcome Error string :=
  match first_description d with
  | Return desc =>
      Return (loc +:+ ": " +:+ JS.toString (temp (main d)) +:+ "°C, " +:+ desc +:+ ". ")
  | Throw e => Throw e
  end.

(** The [forEach] that accumulates [weatherSummary] and
    [successfulResults]. *)
Fixpoint buildSummary (results : list (string * option WeatherData))
    (weatherSummary : string) (successfulResults : nat)
  : Outcome Error (string * nat) :=
  match results with
  | [] => Return (weatherSummary, successfulResults)
  | (loc, Some d) :: rest =>
      match summaryLine loc d with
      | Return line => buildSummary rest (weatherSummary +:+ line) (S successfulResults)
      | Throw e => Throw e
      end
  | (_, None) :: rest => buildSummary rest weatherSummary successfulResults
  end.

(** The lines of the locations whose lookup succeeded, in the order of
    the locations: what [buildSummary] accumulates when no document lacks
    its description.  A location whose lookup failed has no line. *)
Definition summaryContext (env : Env) (locs : list string) : string :=
  foldr (fun loc rest =>
           match weather_api env loc with
           | Some d =>
               match summaryLine loc d with
               | Return line => line +:+ rest
               | Throw _ => rest
               end
           | None => rest
           end) "" locs.

Definition summaryPrompt (weatherSummary : string) : string :=
  "Create a concise, engaging daily weather summary for these locations: "
  +:+ weatherSummary +:+ "

Please:
- Highlight interesting patterns or contrasts
- Provide brief insights about the overall weather picture
- Keep it informative but engaging
- Limit to 150 words".

(** [temps.reduce((a, b) => a + b, 0) / temps.length] *)
Definition average (temps : list num) : num :=
  JS.div (foldl JS.add JS.zero temps) (JS.of_nat (length temps)).

Definition summaryFallback (weatherResults : list (option WeatherData))
    (successfulResults : nat) (weatherSummary : string) : string :=
  let temps := (fun w => temp (main w)) <$> omap id weatherResults in
  let avgTemp := average temps in
  "Weather Summary: Average temperature across " +:+ pretty successfulResults
  +:+ " locations is " +:+ JS.toFixed avgTemp 1 +:+ "°C. " +:+ weatherSummary.

Definition generateWeatherSummary (env : Env) (req : Body) : M Response :=
  try_catch
    (match locations req with
     | Some ((_ :: _) as given) =>
         (* [locations.sort()] reorders the array in place *)
         let locs := JS.sort given in
         let cacheKey := getCacheKey "summary" (JS.of_strings locs) in
         cachedResponse ← getCachedResponse cacheKey;
         if truthy cachedResponse
         then mret (json [("summary", Text (default "" cachedResponse))])
         else
           weatherResults ← mapM (getWeatherData env) locs;
           '(weatherSummary, successfulResults) ←
             lift (buildSummary (zip locs weatherResults) "" 0);
           if negb (JS.truthy weatherSummary)
           then mret (status_json 400
                        [("error", Text "No weather data available for provided locations")])
           else
             try_catch
               (summary ← callGemini env (summaryPrompt weatherSummary) 300;
                setCachedResponse cacheKey summary;;
                mret (json [("summary", Text summary)]))
               (fun aiError =>
                  mret (json [("summary",
                               Text (summaryFallback weatherResults successfulResults
                                       weatherSummary))]))
     | _ => mret (status_json 400 [("error", Text "Locations array is required")])
     end)
    (fun error =>
       mret (status_json 500 [("error", Text "Failed to generate weather summary")])).

(** *** POST /api/weather/ai/suggestions *)

Definition suggestionsPrompt (current : option (list string)) (i : string) : string :=
  "You are a travel and weather advisor. The user currently tracks weather for: "
  +:+ JS.or_else (JS.join ", " <$> current) "no locations yet" +:+ ".

Their interests are: " +:+ i +:+ "

Please suggest exactly 5 interesting locations around the world that would be perfect for someone with these interests. For each location, provide:
1. The city/country name
2. Why it matches their interests
3. What makes the weather/climate special there

Format as a numbered list. Be specific and helpful.".

Definition cannedSuggestions : string :=
  ", here are 5 recommended locations:

1. Barcelona, Spain - Great climate for outdoor activities
2. Vancouver, Canada - Perfect for nature lovers  
3. Sydney, Australia - Ideal for beach and city experiences
4. Tokyo, Japan - Fascinating weather patterns and seasons
5. Reykjavik, Iceland - Unique Arctic weather phenomena".

Definition suggestionsFallback (i : string) : string :=
  "Based on your interests in " +:+ i +:+ cannedSuggestions.

Definition getLocationSuggestions (env : Env) (req : Body) : M Response :=
  try_catch
    (match interests req with
     | Some i =>
         if negb (JS.truthy i)
         then mret (status_json 400 [("error", Text "Interests are required")])
         else
           let cacheKey :=
             getCacheKey "suggestions"
               (JS.Object
                  [("currentLocations",
                    JS.of_option JS.of_strings (currentLocations req));
                   ("interests", JS.Str i)]) in
           cachedResponse ← getCachedResponse cacheKey;
           if truthy cachedResponse
           then mret (json [("suggestions", Text (default "" cachedResponse))])
           else
             try_catch
               (suggestions ←
                  callGemini env (suggestionsPrompt (currentLocations req) i) 400;
                setCachedResponse cacheKey suggestions;;
                mret (json [("suggestions", Text suggestions)]))
               (fun aiError =>
                  mret (json [("suggestions", Text (suggestionsFallback i))]))
     | None => mret (status_json 400 [("error", Text "Interests are required")])
     end)
    (fun error =>
       mret (status_json 500 [("error", Text "Failed to get location suggestions")])).

(** *** POST /api/weather/ai/trivia *)

Definition triviaPrompt (loc : string) (t : num) (desc : string) : string :=
  "Generate an interesting weather fact or trivia about " +:+ loc
  +:+ ". Current weather: " +:+ JS.toString t +:+ "°C, " +:+ desc +:+ ".

Please provide a fascinating, educational weather fact that could be about:
- Historical weather events in this location
- Unique climate features of this area
- Interesting meteorological phenomena 
- Record temperatures or weather events
- How geography affects weather there

Make it engaging and surprising! Keep it to 2-3 sentences.".

Definition triviaFallback (loc : string) (t : num) (desc : string) : string :=
  loc +:+ " is currently experiencing " +:+ desc +:+ " at " +:+ JS.toString t
  +:+ "°C. Did you know that weather patterns can vary significantly even within the same city due to local geography and urban heat effects?".

Definition generateWeatherTrivia (env : Env) (req : Body) : M Response :=
  try_catch
    (match location req with
     | Some loc =>
         if negb (JS.truthy loc)
         then mret (status_json 400 [("error", Text "Location is required")])
         else
           let cacheKey := getCacheKey "trivia" (JS.Str loc) in
           cachedResponse ← getCachedResponse cacheKey;
           if truthy cachedResponse
           then mret (json [("trivia", Text (default "" cachedResponse))])
           else
             weatherData ← getWeatherData env loc;
             match weatherData with
             | None =>
                 mret (status_json 400
                         [("error", Text ("Unable to fetch weather data for " +:+ loc))])
             | Some d =>
                 desc ← lift (first_description d);
                 try_catch
                   (trivia ← callGemini env (triviaPrompt loc (temp (main d)) desc) 200;
                    setCachedResponse cacheKey trivia;;
                    mret (json [("trivia", Text trivia); ("weather", WeatherObject d)]))
                   (fun aiError =>
                      mret (json [("trivia",
                                   Text (triviaFallback loc (temp (main d)) desc));
                                  ("weather", WeatherObject d)]))
             end
     | None => mret (status_json 400 [("error", Text "Location is required")])
     end)
    (fun error =>
       mret (status_json 500 [("error", Text "Failed to generate weather trivia")])).

End GeminiAIController.
End GeminiAIController.

(** ** Regular expressions

    The patterns built by the widget controller, for the part of the
    pattern language made of pattern characters, [.], the assertions [^]
    and [$], the quantifiers [*], [+] and [?] (greedy or lazy), [|] and
    escaped punctuation, under the flag [i].  Groups, classes, braces and
    alphanumeric escapes are recognised and left without a meaning. *)

Module RegExp.

(** The patterns made of pattern characters, [.], [^], [$], [*], [+],
    [?], [|] and escaped punctuation, with their meaning under flag [i]
    on texts of the ASCII range (see [ascii] below).  Groups, classes,
    braces and escaped letters or digits, and texts outside that range,
    are left to the store (see [WidgetController]). *)

Inductive Atom :=
| Lit (c : ascii)
| Dot.

Inductive Quantifier := Once | Optional | ZeroOrMore | OneOrMore.

Inductive Term :=
| AssertStart
| AssertEnd
| Piece (a : Atom) (q : Quantifier).

Definition Alternative := list Term.
Definition Disjunction := list Alternative.

(** The result of [new RegExp(source, 'i')]. *)
Inductive Compiled :=
| Pattern (d : Disjunction)
| SyntaxError
| Unsupported.

(** What a quantifier character read next would apply to. *)
Inductive Last := Nothing | AnAtom | AQuantifier.

Definition is_alphanumeric (c : ascii) : bool :=
  let n := nat_of_ascii c in
  ((48 <=? n)%nat && (n <=? 57)%nat) || ((65 <=? n)%nat && (n <=? 90)%nat)
  || ((97 <=? n)%nat && (n <=? 122)%nat).

Definition quantifier_of (c : ascii) : option Quantifier :=
  if Ascii.eqb c "*" then Some ZeroOrMore
  else if Ascii.eqb c "+" then Some OneOrMore
  else if Ascii.eqb c "?" then Some Optional
  else None.

(** [alts] and [cur] hold the alternatives read so far and the terms of
    the current one, latest first. *)
Fixpoint parse (s : string) (alts : list Alternative) (cur : Alternative)
    (last : Last) : Compiled :=
  match s with
  | EmptyString => Pattern (rev (rev cur :: alts))
  | String c r =>
      if Ascii.eqb c "|" then parse r (rev cur :: alts) [] Nothing
      else if Ascii.eqb c "^" then parse r alts (AssertStart :: cur) Nothing
      else if Ascii.eqb c "$" then parse r alts (AssertEnd :: cur) Nothing
      else if Ascii.eqb c "." then parse r alts (Piece Dot Once :: cur) AnAtom
      else
        match quantifier_of c with
        | Some q =>
            match last, cur with
            | AnAtom, Piece a _ :: cur' => parse r alts (Piece a q :: cur') AQuantifier
            | AQuantifier, _ =>
                if Ascii.eqb c "?" then parse r alts cur Nothing else SyntaxError
            | _, _ => SyntaxError
            end
        | None =>
            if Ascii.eqb c JS.backslash then
              match r with
              | EmptyString => SyntaxError
              | String e r' =>
                  if is_alphanumeric e then Unsupported
                  else parse r' alts (Piece (Lit e) Once :: cur) AnAtom
              end
            else if Ascii.eqb c "(" || Ascii.eqb c ")" || Ascii.eqb c "["
                    || Ascii.eqb c "{" then Unsupported
            else parse r alts (Piece (Lit c) Once :: cur) AnAtom
        end
  end.

Definition compile (source : string) : Compiled := parse source [] [] Nothing.




Definition is_line_terminator (c : ascii) : bool :=
  let n := nat_of_ascii c in (n =? 10)%nat || (n =? 13)%nat.

(** Under [i] two characters match when their case foldings agree. *)
Definition atom_matches (a : Atom) (c : ascii) : bool :=
  match a with
  | Lit x => Ascii.eqb (JS.lower_ascii x) (JS.lower_ascii c)
  | Dot => negb (is_line_terminator c)
  end.

(** Does the sequence of terms match at this position?  [at_start] tells
    whether the position is the beginning of the input, [s] is the input
    from the position on. *)
Fixpoint match_here (ts : list Term) (at_start : bool) (s : string) : bool :=
  match ts with
  | [] => true
  | AssertStart :: r => at_start && match_here r at_start s
  | AssertEnd :: r =>
      match s with
      | EmptyString => match_here r at_start s
      | _ => false
      end
  | Piece a q :: r =>
      let repeat :=
        fix repeat (at_start : bool) (s : string) : bool :=
          match s with
          | String c s' =>
              (atom_matches a c && repeat false s') || match_here r at_start s
          | EmptyString => match_here r at_start s
          end in
      match q with
      | Once =>
          match s with
          | String c s' => atom_matches a c && match_here r false s'
          | EmptyString => false
          end
      | Optional =>
          match s with
          | String c s' =>
              (atom_matches a c && match_here r false s') || match_here r at_start s
          | EmptyString => match_here r at_start s
          end
      | ZeroOrMore => repeat at_start s
      | OneOrMore =>
          match s with
          | String c s' => atom_matches a c && repeat false s'
          | EmptyString => false
          end
      end
  end.

Fixpoint search (d : Disjunction) (at_start : bool) (s : string) : bool :=
  existsb (fun alt => match_here alt at_start s) d
  || match s with
     | String _ s' => search d false s'
     | EmptyString => false
     end.

(** [re.test(s)]: the pattern matches somewhere in [s]. *)
Definition test (d : Disjunction) (s : string) : bool := search d true s.

(** The texts of the ASCII range without CR and LF: texts of one line.
    On them a character is a byte, letter case is that of A to Z, which
    is what [atom_matches] reads, and the end of the text is the only
    place [$] accepts. *)
Definition is_ascii (c : ascii) : bool :=
  (nat_of_ascii c <? 128)%nat && negb (is_line_terminator c).

Fixpoint ascii (s : string) : bool :=
  match s with
  | EmptyString => true
  | String c r => is_ascii c && ascii r
  end.

End RegExp.

(** ** The widget schema and controller *)

Module WidgetController.

(** A stored document of the [Widget] model. *)
Record Widget := {
  _id : string;
  location : string;
  createdAt : Z;
  updatedAt : Z;
}.

(** The validators of the schema on [location], run by [save]:
    required, [minlength] 2 and [maxlength] 100. *)
Definition valid_location (l : string) : bool :=
  JS.truthy l && (2 <=? JS.length l)%nat && (JS.length l <=? 100)%nat.

(** The [error] member of a failure body; the texts are those of
    [helpers/message.helper]. *)
Inductive Failure :=
| InvalidInput
| WidgetAlreadyExistsError
| ValidationError
| FailedToCreateWidgetError.

Inductive Payload :=
| Error (e : Failure)
| Document (w : Widget).

Record Response := {
  status : nat;
  body : Payload;
}.

(** The collection in insertion order and the clock. *)
Record State := {
  clock : Z;
  widgets : list Widget;
}.

(** The store: the generator of document identifiers, and what it makes
    of [{ $regex: new RegExp(source, 'i') }].  [regex source] is [None]
    when the pattern is refused, by [new RegExp] or by the store, which
    either way throws an error that is not a [ValidationError]; otherwise
    it is the test applied to the location of a stored document. *)
Record Env := {
  newObjectId : State -> string;
  regex : string -> option (string -> bool);
}.

(** A store that gives the patterns of the fragment of [RegExp] their
    meaning, on texts of the ASCII range without line breaks. *)
Definition agrees (env : Env) : Prop :=
  forall source,
    RegExp.ascii source = true ->
    match RegExp.compile source with
    | RegExp.Pattern re =>
        exists test,
          regex env source = Some test
          /\ forall subject, RegExp.ascii subject = true ->
               test subject = RegExp.test re subject
    | RegExp.SyntaxError => regex env source = None
    | RegExp.Unsupported => True
    end.

(** [Widget.findOne({ location: { $regex: re } })] *)
Definition findOne (test : string -> bool) (s : State) : option Widget :=
  List.find (fun w => test (location w)) (widgets s).

(** [new Widget({ location }).save()]: the setter trims, the validators
    run, and the document is inserted with its identifier and
    timestamps. *)
Definition save (env : Env) (l : string) (s : State) : option (Widget * State) :=
  let l := JS.trim l in
  if valid_location l then
    let w := {| _id := newObjectId env s; location := l;
                createdAt := clock s; updatedAt := clock s |} in
    Some (w, {| clock := clock s; widgets := widgets s ++ [w] |})
  else None.

(** [createWidget] on [req.body.location]. *)
Definition createWidget (env : Env) (loc : JS.Value) (s : State) : Response * State :=
  match loc with
  | JS.Str l =>
      if negb (JS.truthy l) || (JS.length (JS.trim l) =? 0)%nat
      then ({| status := 400; body := Error InvalidInput |}, s)
      else
        let trimmedLocation := JS.trim l in
        match regex env ("^" +:+ trimmedLocation +:+ "$") with
        | None => ({| status := 500; body := Error FailedToCreateWidgetError |}, s)
        | Some test =>
            match findOne test s with
            | Some existingWidget =>
                ({| status := 409; body := Error WidgetAlreadyExistsError |}, s)
            | None =>
                match save env trimmedLocation s with
                | Some (savedWidget, s') =>
                    ({| status := 201; body := Document savedWidget |}, s')
                | None => ({| status := 400; body := Error ValidationError |}, s)
                end
            end
        end
  | _ => ({| status := 400; body := Error InvalidInput |}, s)
  end.

End WidgetController.

(** ** The weather-code tables as the specification words them *)

Module Spec.

(** The inclusive upper bounds, in ascending order, tried after the
    test for a code of exactly 0. *)
Definition thresholds : list (Z * WeatherService.Icon) :=
  [ (3, WeatherService.IconSunBehindCloud);
    (48, WeatherService.IconFog);
    (67, WeatherService.IconRain);
    (77, WeatherService.IconSnow);
    (82, WeatherService.IconSunBehindRainCloud);
    (99, WeatherService.IconThunder) ].

(** The first bound that the code does not exceed decides. *)
Definition icon_of_code (code : Z) : WeatherService.Icon :=
  if decide (code = 0) then WeatherService.IconSun
  else
    match List.find (fun p => code <=? fst p) thresholds with
    | Some p => snd p
    | None => WeatherService.IconSunBehindSmallCloud
    end.

(** A pattern matches a text in full when one of its alternatives
    matches the whole of it: the reading of the duplicate check as a
    full match. *)
Definition full_match (source subject : string) : option bool :=
  match RegExp.compile source with
  | RegExp.Pattern d =>
      Some (existsb (fun alt =>
                       RegExp.match_here (alt ++ [RegExp.AssertEnd]) true subject) d)
  | _ => None
  end.

(** The codes that have a description of their own. *)
Definition described_codes : list Z :=
  [0; 1; 2; 3; 45; 48; 51; 53; 55; 61; 63; 65; 71; 73; 75; 80; 81; 82; 95; 96; 99].

End Spec.

(** ** Concrete providers and requests, on which the handlers are run *)

Module Examples.
Import GeminiAIController.

Definition document (t : Q) (desc : string) : WeatherData (num := Q) :=
  {| main := {| temp := t; humidity := (60 # 1)%Q |};
     weather := [{| description := desc |}];
     wind := {| speed := (3 # 1)%Q |};
     visibility := None |}.

(** A weather provider that knows Paris and Oslo. *)
Definition weather_of (loc : string) : option (WeatherData (num := Q)) :=
  if String.eqb loc "Paris" then Some (document (43 # 2)%Q "clear sky")
  else if String.eqb loc "Oslo" then Some (document (31 # 10)%Q "light snow")
  else None.

(** The generative provider answers, is down, or answers with an empty
    text. *)
Definition env_up : Env :=
  {| weather_api := weather_of;
     gemini_api := fun _ _ => Some "Mild in Paris, wintry in Oslo.";
     latency := fun _ => 120 |}.

Definition env_down : Env :=
  {| weather_api := weather_of;
     gemini_api := fun _ _ => None;
     latency := fun _ => 120 |}.

Definition env_mute : Env :=
  {| weather_api := weather_of;
     gemini_api := fun _ _ => Some "";
     latency := fun _ => 120 |}.

Definition s0 : State := {| clock := 1000; aiCache := ∅ |}.

Definition chat (q : string) (locs : list string) : Body :=
  {| question := Some q; locations := Some locs; currentLocations := None;
     interests := None; location := None |}.

Definition summary (locs : list string) : Body :=
  {| question := None; locations := Some locs; currentLocations := None;
     interests := None; location := None |}.

Definition suggestions (i : string) : Body :=
  {| question := None; locations := None; currentLocations := None;
     interests := Some i; location := None |}.

Definition trivia (loc : string) : Body :=
  {| question := None; locations := None; currentLocations := None;
     interests := None; location := Some loc |}.

(** A store that numbers its documents and knows the patterns of the
    fragment, holding a widget for Paris. *)
Definition widget_env : WidgetController.Env :=
  {| WidgetController.newObjectId := fun s =>
       JS.pad_left 24 (pretty (length (WidgetController.widgets s)));
     WidgetController.regex := fun source =>
       match RegExp.compile source with
       | RegExp.Pattern re => Some (RegExp.test re)
       | _ => None
       end |}.

Definition paris : WidgetController.Widget :=
  {| WidgetController._id := "000000000000000000000000";
     WidgetController.location := "Paris";
     WidgetController.createdAt := 500;
     WidgetController.updatedAt := 500 |}.

Definition widgets0 : WidgetController.State :=
  {| WidgetController.clock := 1000; WidgetController.widgets := [paris] |}.

End Examples.

(** ** The weather controller *)

Module WeatherController.
Import Eff.

(** [String.prototype.includes] *)
Fixpoint starts_with (p s : string) : bool :=
  match p, s with
  | EmptyString, _ => true
  | String a p', String b s' => Ascii.eqb a b && starts_with p' s'
  | String _ _, EmptyString => false
  end.

Fixpoint includes (s p : string) : bool :=
  starts_with p s
  || match s with
     | String _ s' => includes s' p
     | EmptyString => false
     end.

(** The texts of [helpers/message.helper] that the service puts in the
    errors it throws, and the text the engine gives its [TypeError]. *)
Record Messages := {
  LocationNotFound : string;
  ServiceTimeoutError : string -> string;
  TypeError : string;
}.

(** [error.response?.status || 'Network error'] *)
Definition status_text (status : option nat) : string :=
  match status with
  | Some (S n) => pretty (S n)
  | _ => "Network error"
  end.

(** [error.message] of an error thrown by the weather service. *)
Definition message (m : Messages) (e : WeatherService.Error) : string :=
  match e with
  | WeatherService.LocationNotFound => LocationNotFound m
  | WeatherService.ServiceTimeoutError service => ServiceTimeoutError m service
  | WeatherService.ApiError service status =>
      service +:+ " API error: " +:+ status_text status
  | WeatherService.TypeError => TypeError m
  end.

(** The [error] member of a failure body. *)
Inductive Failure :=
| InvalidLocation
| LocationNotFoundError
| WeatherServiceUnavailableError
| FailedToFetchWeatherData.

Section WeatherController.

Context {num : Type} `{!JS.Num num} `{!JS.CaseMapping}.

(** A failure carries [error.message] where the handler sends it. *)
Inductive Payload :=
| Data (w : WeatherService.WeatherData (num := num))
| Failed (e : Failure) (detail : option string)
| Cleared (timestamp : Z)
| Statistics (stats : CacheService.Stats).

Record Response := {
  status : nat;
  body : Payload;
}.

Abbreviation M :=
  (Eff.M (WeatherService.State (num := num)) (WeatherService.Call (num := num))
     WeatherService.Error).

(** [getWeatherData] on [req.params.location]. *)
Definition getWeatherData (m : Messages) (env : WeatherService.Env) (location : string)
  : M Response :=
  try_catch
    (if negb (JS.truthy location) || (JS.length (JS.trim location) =? 0)%nat
     then mret {| status := 400; body := Failed InvalidLocation None |}
     else
       weatherData ← WeatherService.getWeatherForLocation env (JS.trim location);
       mret {| status := 200; body := Data weatherData |})
    (fun error =>
       let text := message m error in
       if includes text "not found"
       then mret {| status := 404; body := Failed LocationNotFoundError (Some text) |}
       else if includes text "API"
       then mret {| status := 503; body := Failed WeatherServiceUnavailableError None |}
       else mret {| status := 500; body := Failed FailedToFetchWeatherData (Some text) |}).

Definition clearCache : M Response :=
  WeatherService.clearExpiredCache;;
  now ← WeatherService.Date_now;
  mret {| status := 200; body := Cleared now |}.

Definition getCacheStats : M Response :=
  stats ← WeatherService.getCacheStats;
  mret {| status := 200; body := Statistics stats |}.

End WeatherController.
End WeatherController.

(** ** The other handlers of the widget controller *)

Module WidgetQueries.
Import WidgetController.

Definition is_hex (c : ascii) : bool :=
  let n := nat_of_ascii c in
  ((48 <=? n)%nat && (n <=? 57)%nat) || ((97 <=? n)%nat && (n <=? 102)%nat)
  || ((65 <=? n)%nat && (n <=? 70)%nat).

Fixpoint all_hex (s : string) : bool :=
  match s with
  | EmptyString => true
  | String c r => is_hex c && all_hex r
  end.

(** [id.match(/^[0-9a-fA-F]{24}$/)] *)
Definition is_object_id (id : string) : bool :=
  (String.length id =? 24)%nat && all_hex id.

(** Two hexadecimal texts of one identifier: the store casts the text to
    an identifier, whatever the case of its letters. *)
Definition same_id (a b : string) : bool :=
  String.eqb (JS.fold_ascii a) (JS.fold_ascii b).

Inductive Failure :=
| InvalidWidgetIDError
| WidgetNotFoundError.

Inductive Payload :=
| Error (e : Failure)
| Document (w : Widget)
| Deleted (deletedWidget : Widget)
| Documents (l : list Widget).

Record Response := {
  status : nat;
  body : Payload;
}.

(** [Widget.findById(id)] *)
Definition findById (id : string) (s : State) : option Widget :=
  List.find (fun w => same_id (_id w) id) (widgets s).

(** The collection without the first document of that identifier. *)
Fixpoint remove (id : string) (l : list Widget) : list Widget :=
  match l with
  | [] => []
  | w :: r => if same_id (_id w) id then r else w :: remove id r
  end.

(** [Widget.find().sort({ createdAt: -1 })]: latest first. *)
Definition later (a b : Widget) : Prop := createdAt b <= createdAt a.

#[global] Instance later_dec : RelDecision later :=
  fun a b => Z_le_dec (createdAt b) (createdAt a).

Definition getAllWidgets (s : State) : Response * State :=
  ({| status := 200; body := Documents (merge_sort later (widgets s)) |}, s).

Definition getWidgetById (id : string) (s : State) : Response * State :=
  if negb (is_object_id id)
  then ({| status := 400; body := Error InvalidWidgetIDError |}, s)
  else
    match findById id s with
    | None => ({| status := 404; body := Error WidgetNotFoundError |}, s)
    | Some widget => ({| status := 200; body := Document widget |}, s)
    end.

(** [Widget.findByIdAndDelete(id)] behind the same test of the
    identifier. *)
Definition deleteWidget (id : string) (s : State) : Response * State :=
  if negb (is_object_id id)
  then ({| status := 400; body := Error InvalidWidgetIDError |}, s)
  else
    match findById id s with
    | None => ({| status := 404; body := Error WidgetNotFoundError |}, s)
    | Some deletedWidget =>
        ({| status := 200; body := Deleted deletedWidget |},
         {| clock := clock s; widgets := remove id (widgets s) |})
    end.

End WidgetQueries.

(** ** The controller on the OpenAI API *)

Module AIWeatherController.
Import Eff.

(** An entry of the [messages] array sent to the provider. *)
Record Message := {
  role : string;
  content : string;
}.

Inductive Error :=
| TypeError               (* reading a property of [undefined] *)
| AIServiceUnavailable.   (* thrown by [callOpenAI] *)

Section AIWeatherController.

Context {num : Type} `{!JS.Num num}.

(** The interface [WeatherData] of this controller has the members of
    the one above. *)
Abbreviation WeatherData := (GeminiAIController.WeatherData (num := num)).

Inductive Call :=
| WeatherRequest (location : string)
| OpenAIRequest (messages : list Message) (maxTokens : nat).

(** A member of the JSON object sent back; [EngineMessage] is the
    [message] of an error raised by the engine, whose text the engine
    chooses. *)
Inductive Field :=
| Text (s : string)
| WeatherObject (w : WeatherData)
| EngineMessage.

Record Response := {
  status : nat;
  body : list (string * Field);
}.

Definition json (b : list (string * Field)) : Response :=
  {| status := 200; body := b |}.
Definition status_json (n : nat) (b : list (string * Field)) : Response :=
  {| status := n; body := b |}.

(** The two keys of [process.env], and the providers. *)
Record Env := {
  WEATHER_API_KEY : option string;
  OPENAI_API_KEY : option string;
  weather_api : string -> option WeatherData;
  openai_api : list Message -> nat -> option string;
}.

Abbreviation M := (Eff.M unit Call Error).

(** Never throws: a failed request yields [null]. *)
Definition getWeatherData (env : Env) (loc : string) : M (option WeatherData) :=
  emit (WeatherRequest loc);;
  mret (weather_api env loc).

Definition callOpenAI (env : Env) (messages : list Message) (maxTokens : nat)
  : M string :=
  emit (OpenAIRequest messages maxTokens);;
  match openai_api env messages maxTokens with
  | Some text => mret text
  | None => throw AIServiceUnavailable
  end.

(** [error.message || fallback]: the message of either error is not
    empty. *)
Definition message_or (error : Error) (fallback : string) : Field :=
  match error with
  | AIServiceUnavailable => Text (JS.or_else (Some "AI service unavailable") fallback)
  | TypeError => EngineMessage
  end.

(** *** POST /api/weather/ai/chat *)

Definition chatLine (loc : string) (d : option WeatherData)
  : Outcome Error string :=
  match d with
  | Some d =>
      match GeminiAIController.weather d with
      | w :: _ =>
          Return (loc +:+ ": " +:+ JS.toString (GeminiAIController.temp
                                                (GeminiAIController.main d))
                  +:+ "°C, " +:+ GeminiAIController.description w
                  +:+ ", humidity "
                  +:+ JS.toString (GeminiAIController.humidity
                                     (GeminiAIController.main d)) +:+ "%")
      | [] => Throw TypeError
      end
  | None => Return (loc +:+ ": Weather data unavailable")
  end.

Definition chatMessages (q weatherContext : string) : list Message :=
  [ {| role := "system";
       content := "You are a helpful weather assistant. Answer weather questions in a conversational, friendly way. Use the provided weather data when available. Keep responses concise and informative." |};
    {| role := "user";
       content := "Question: " +:+ q +:+ "
Current weather data: " +:+ weatherContext |} ].

Definition handleWeatherChat (env : Env) (req : GeminiAIController.Body) : M Response :=
  try_catch
    (match GeminiAIController.question req with
     | Some q =>
         if negb (JS.truthy q)
         then mret (status_json 400 [("error", Text "Question is required")])
         else
           weatherContext ←
             match GeminiAIController.locations req with
             | Some ((_ :: _) as locs) =>
                 weatherResults ← mapM (getWeatherData env) locs;
                 lines ← mapM (fun p => lift (chatLine (fst p) (snd p)))
                              (zip locs weatherResults);
                 mret (JS.join ". " lines)
             | _ => mret ""
             end;
           response ← callOpenAI env (chatMessages q weatherContext) 200;
           mret (json [("response", Text response)])
     | None => mret (status_json 400 [("error", Text "Question is required")])
     end)
    (fun error =>
       mret (status_json 500
               [("error", message_or error "Failed to process chat request")])).

(** *** POST /api/weather/ai/summary *)

(** The [forEach] that accumulates [weatherSummary] and
    [successfulResults]. *)
Fixpoint buildSummary (results : list (string * option WeatherData))
    (weatherSummary : string) (successfulResults : nat)
  : Outcome Error (string * nat) :=
  match results with
  | [] => Return (weatherSummary, successfulResults)
  | (loc, Some d) :: rest =>
      match GeminiAIController.weather d with
      | w :: _ =>
          buildSummary rest
            (weatherSummary +:+ (loc +:+ ": "
               +:+ JS.toString (GeminiAIController.temp (GeminiAIController.main d))
               +:+ "°C, " +:+ GeminiAIController.description w +:+ ". "))
            (S successfulResults)
      | [] => Throw TypeError
      end
  | (_, None) :: rest => buildSummary rest weatherSummary successfulResults
  end.

Definition summaryMessages (weatherSummary : string) : list Message :=
  [ {| role := "system";
       content := "Create concise, informative daily weather summaries. Highlight important patterns and provide brief insights. Keep it engaging and easy to understand." |};
    {| role := "user";
       content := "Create a daily weather summary for these locations: "
                  +:+ weatherSummary |} ].

Definition generateWeatherSummary (env : Env) (req : GeminiAIController.Body)
  : M Response :=
  try_catch
    (match GeminiAIController.locations req with
     | Some ((_ :: _) as locs) =>
         if negb (GeminiAIController.truthy (WEATHER_API_KEY env))
         then mret (status_json 500
                      [("error", Text "Weather service configuration error")])
         else if negb (GeminiAIController.truthy (OPENAI_API_KEY env))
         then mret (status_json 500 [("error", Text "AI service configuration error")])
         else
           weatherResults ← mapM (getWeatherData env) locs;
           built ← lift (buildSummary (zip locs weatherResults) "" 0);
           let weatherSummary := fst built in
           if negb (JS.truthy weatherSummary)
           then mret (status_json 400
                        [("error",
                          Text "No weather data available for provided locations");
                         ("details",
                          Text "All weather API calls failed. Check your API key and location names.")])
           else
             summary ← callOpenAI env (summaryMessages weatherSummary) 250;
             mret (json [("summary", Text summary)])
     | _ => mret (status_json 400 [("error", Text "Locations array is required")])
     end)
    (fun error =>
       mret (status_json 500
               [("error", message_or error "Failed to generate weather summary")])).

(** *** POST /api/weather/ai/suggestions *)

Definition suggestionsMessages (current : option (list string)) (i : string)
  : list Message :=
  [ {| role := "system";
       content := "You are a travel and weather advisor. Suggest interesting weather locations based on user interests. Provide exactly 5 suggestions with brief explanations. Format as a numbered list." |};
    {| role := "user";
       content := "User currently tracks: "
                  +:+ JS.or_else (JS.join ", " <$> current) "No locations yet"
                  +:+ ". Their interests: " +:+ i
                  +:+ ". Suggest 5 new interesting locations to track weather for." |} ].

Definition getLocationSuggestions (env : Env) (req : GeminiAIController.Body)
  : M Response :=
  try_catch
    (match GeminiAIController.interests req with
     | Some i =>
         if negb (JS.truthy i)
         then mret (status_json 400 [("error", Text "Interests are required")])
         else if negb (GeminiAIController.truthy (OPENAI_API_KEY env))
         then mret (status_json 500 [("error", Text "AI service configuration error")])
         else
           suggestions ←
             callOpenAI env
               (suggestionsMessages (GeminiAIController.currentLocations req) i) 300;
           mret (json [("suggestions", Text suggestions)])
     | None => mret (status_json 400 [("error", Text "Interests are required")])
     end)
    (fun error =>
       mret (status_json 500
               [("error", message_or error "Failed to get location suggestions")])).

(** *** POST /api/weather/ai/trivia *)

Definition triviaMessages (loc : string) (d : WeatherData)
  : Outcome Error (list Message) :=
  match GeminiAIController.weather d with
  | w :: _ =>
      Return
        [ {| role := "system";
             content := "Generate interesting, educational weather trivia. Make it fun and surprising, focusing on weather phenomena, climate facts, or historical weather events. Keep it concise and engaging." |};
          {| role := "user";
             content := "Generate interesting weather trivia for " +:+ loc
                        +:+ ". Current weather: "
                        +:+ JS.toString (GeminiAIController.temp
                                           (GeminiAIController.main d))
                        +:+ "°C, " +:+ GeminiAIController.description w |} ]
  | [] => Throw TypeError
  end.

Definition generateWeatherTrivia (env : Env) (req : GeminiAIController.Body)
  : M Response :=
  try_catch
    (match GeminiAIController.location req with
     | Some loc =>
         if negb (JS.truthy loc)
         then mret (status_json 400 [("error", Text "Location is required")])
         else if negb (GeminiAIController.truthy (WEATHER_API_KEY env))
                 || negb (GeminiAIController.truthy (OPENAI_API_KEY env))
         then mret (status_json 500 [("error", Text "Service configuration error")])
         else
           weatherData ← getWeatherData env loc;
           match weatherData with
           | None =>
               mret (status_json 400
                       [("error", Text ("Unable to fetch weather data for " +:+ loc));
                        ("details",
                         Text "Check if the location name is correct and try again.")])
           | Some d =>
               messages ← lift (triviaMessages loc d);
               trivia ← callOpenAI env messages 200;
               mret (json [("trivia", Text trivia); ("weather", WeatherObject d)])
           end
     | None => mret (status_json 400 [("error", Text "Location is required")])
     end)
    (fun error =>
       mret (status_json 500
               [("error", message_or error "Failed to generate weather trivia")])).

End AIWeatherController.
End AIWeatherController.

(** ** More providers for the examples *)

Module MoreExamples.

Definition messages : WeatherController.Messages :=
  {| WeatherController.LocationNotFound := "Location not found";
     WeatherController.ServiceTimeoutError := fun service =>
       service +:+ " service timeout";
     WeatherController.TypeError :=
       "Cannot read properties of undefined (reading 'temperature_2m')" |}.

Definition paris_geocode : WeatherService.GeocodeResult (num := Q) :=
  {| WeatherService.latitude := (4885 # 100)%Q;
     WeatherService.longitude := (235 # 100)%Q;
     WeatherService.name := "Paris";
     WeatherService.geo_country := "France" |}.

Definition paris_current : WeatherService.Current (num := Q) :=
  {| WeatherService.temperature_2m := (214 # 10)%Q;
     WeatherService.relative_humidity_2m := (60 # 1)%Q;
     WeatherService.weather_code := 2;
     WeatherService.wind_speed_10m := (1234 # 100)%Q |}.

(** U+00A0, the no-break space. *)
Definition nbsp : string :=
  String (ascii_of_nat 194) (String (ascii_of_nat 160) EmptyString).

Definition zurich_geocode : WeatherService.GeocodeResult (num := Q) :=
  {| WeatherService.latitude := (4737 # 100)%Q;
     WeatherService.longitude := (855 # 100)%Q;
     WeatherService.name := "Zurich";
     WeatherService.geo_country := "Switzerland" |}.

(** A geocoder that knows Paris and "ZÜRICH", times out on "slow" and
    is refused with 429 on "busy"; a forecast provider that answers. *)
Definition weather_env : WeatherService.Env :=
  {| WeatherService.geocoding_api := fun l =>
       if String.eqb l "Paris" then WeatherService.Answer [paris_geocode]
       else if String.eqb l "ZÜRICH" then WeatherService.Answer [zurich_geocode]
       else if String.eqb l "slow" then WeatherService.Aborted
       else if String.eqb l "busy" then WeatherService.Failed (Some 429%nat)
       else WeatherService.Answer [];
     WeatherService.forecast_api := fun _ _ =>
       WeatherService.Answer (Some paris_current);
     WeatherService.latency := fun _ => 150 |}.

(** The same geocoder with a forecast provider that is down. *)
Definition forecast_down : WeatherService.Env :=
  {| WeatherService.geocoding_api := WeatherService.geocoding_api weather_env;
     WeatherService.forecast_api := fun _ _ => WeatherService.Failed (Some 503%nat);
     WeatherService.latency := fun _ => 150 |}.

(** The same geocoder with a forecast provider whose answer has no
    [current] member. *)
Definition forecast_bare : WeatherService.Env :=
  {| WeatherService.geocoding_api := WeatherService.geocoding_api weather_env;
     WeatherService.forecast_api := fun _ _ => WeatherService.Answer None;
     WeatherService.latency := fun _ => 150 |}.

Definition weather0 : WeatherService.State (num := Q) :=
  {| WeatherService.clock := 1000; WeatherService.cacheService := WeatherService.new 5 |}.

(** A generative provider that answers, with a weather provider whose
    document for "Void" has no weather entry. *)
Definition env_void : GeminiAIController.Env :=
  {| GeminiAIController.weather_api := fun loc =>
       if String.eqb loc "Void"
       then Some {| GeminiAIController.main :=
                      {| GeminiAIController.temp := (1 # 1)%Q;
                         GeminiAIController.humidity := (1 # 1)%Q |};
                    GeminiAIController.weather := [];
                    GeminiAIController.wind := {| GeminiAIController.speed := (1 # 1)%Q |};
                    GeminiAIController.visibility := None |}
       else Examples.weather_of loc;
     GeminiAIController.gemini_api := fun _ _ => Some "Fine.";
     GeminiAIController.latency := fun _ => 120 |}.

(** The providers of the examples behind the other controller, with
    both keys configured; and the same with the generative provider
    down. *)
Definition openai_up : AIWeatherController.Env :=
  {| AIWeatherController.WEATHER_API_KEY := Some "w-key";
     AIWeatherController.OPENAI_API_KEY := Some "o-key";
     AIWeatherController.weather_api := Examples.weather_of;
     AIWeatherController.openai_api := fun _ _ => Some "Fine." |}.

Definition openai_down : AIWeatherController.Env :=
  {| AIWeatherController.WEATHER_API_KEY := Some "w-key";
     AIWeatherController.OPENAI_API_KEY := Some "o-key";
     AIWeatherController.weather_api := Examples.weather_of;
     AIWeatherController.openai_api := fun _ _ => None |}.

End MoreExamples.

(* ================================================================== *)
(** * Properties *)

(** ** The TTL cache *)

Section CacheFacts.

Context {T : Type}.
Implicit Types (this : CacheService.t T) (k : string) (now : Z).

Lemma sweep_fold_lookup now this (base m : gmap string (CacheService.CachedItem T)) j :
  map_fold
    (fun k item c =>
       if CacheService.isExpired now this item then base.delete k c else c)
    base m !! j =
  match m !! j with
  | Some item =>
      if CacheService.isExpired now this item then None else base !! j
  | None => base !! j
  end.
Proof.
  revert j.
  apply (map_fold_weak_ind
           (fun r (m : gmap string (CacheService.CachedItem T)) =>
              forall j, r !! j =
                match m !! j with
                | Some item =>
                    if CacheService.isExpired now this item
                    then None else base !! j
                | None => base !! j
                end)).
  - intros j. by rewrite lookup_empty.
  - intros i x m' r Hi IH j.
    destruct (decide (i = j)) as [->|Hne].
    + rewrite lookup_insert_eq.
      destruct (CacheService.isExpired now this x).
      * by rewrite lookup_delete_eq.
      * by rewrite IH, Hi.
    + rewrite lookup_insert_ne by done.
      destruct (CacheService.isExpired now this x).
      * rewrite lookup_delete_ne by done. apply IH.
      * apply IH.
Qed.

Lemma clearExpired_lookup now this k :
  CacheService.cache (CacheService.clearExpired now this) !! k =
  match CacheService.cache this !! k with
  | Some item =>
      if CacheService.isExpired now this item then None else Some item
  | None => None
  end.
Proof.
  unfold CacheService.clearExpired; simpl.
  rewrite sweep_fold_lookup.
  destruct (CacheService.cache this !! k) as [item|] eqn:E; [|done].
  by destruct (CacheService.isExpired now this item).
Qed.

(** C4: [get] on a key without entry returns absent; on an entry whose
    age exceeds the configured duration it removes the entry and returns
    absent, and a later [has] on the key answers false; on an entry that
    has not expired it returns the stored value and changes nothing. *)
Theorem get_absent_expired_fresh this k now :
  (CacheService.cache this !! k = None ->
   CacheService.get now k this = (None, this))
  /\ (forall item,
        CacheService.cache this !! k = Some item ->
        CacheService.cacheDuration this < now - CacheService.timestamp item ->
        fst (CacheService.get now k this) = None
        /\ CacheService.cache (snd (CacheService.get now k this))
           = base.delete k (CacheService.cache this)
        /\ forall later,
             fst (CacheService.has later k (snd (CacheService.get now k this)))
             = false)
  /\ (forall item,
        CacheService.cache this !! k = Some item ->
        now - CacheService.timestamp item <= CacheService.cacheDuration this ->
        CacheService.get now k this = (Some (CacheService.data item), this)).
Proof.
  unfold CacheService.get, CacheService.isExpired.
  split; [|split].
  - by intros ->.
  - intros item -> Hold.
    destruct (Z.ltb_spec (CacheService.cacheDuration this)
                (now - CacheService.timestamp item)); [|lia].
    simpl. split; [done|split; [done|]].
    intros later. unfold CacheService.has; simpl.
    by rewrite lookup_delete_eq.
  - intros item -> Hfresh.
    destruct (Z.ltb_spec (CacheService.cacheDuration this)
                (now - CacheService.timestamp item)); [lia|done].
Qed.

(** C5: the sweep removes exactly the entries whose age exceeds the
    configured duration, keeps every other entry as it was, adds none,
    and leaves no entry when all of them had expired. *)
Theorem clearExpired_exact this now :
  (forall k item,
     CacheService.cache this !! k = Some item ->
     CacheService.cacheDuration this < now - CacheService.timestamp item ->
     CacheService.cache (CacheService.clearExpired now this) !! k = None)
  /\ (forall k item,
        CacheService.cache this !! k = Some item ->
        now - CacheService.timestamp item <= CacheService.cacheDuration this ->
        CacheService.cache (CacheService.clearExpired now this) !! k = Some item)
  /\ (forall k,
        CacheService.cache this !! k = None ->
        CacheService.cache (CacheService.clearExpired now this) !! k = None)
  /\ CacheService.cacheDuration (CacheService.clearExpired now this)
     = CacheService.cacheDuration this
  /\ ((forall k item,
         CacheService.cache this !! k = Some item ->
         CacheService.cacheDuration this < now - CacheService.timestamp item) ->
      size (CacheService.cache (CacheService.clearExpired now this)) = 0%nat).
Proof.
  repeat split.
  - intros k item Hk Hold. rewrite clearExpired_lookup, Hk.
    unfold CacheService.isExpired.
    by destruct (Z.ltb_spec (CacheService.cacheDuration this)
                   (now - CacheService.timestamp item)); [|lia].
  - intros k item Hk Hfresh. rewrite clearExpired_lookup, Hk.
    unfold CacheService.isExpired.
    by destruct (Z.ltb_spec (CacheService.cacheDuration this)
                   (now - CacheService.timestamp item)); [lia|].
  - intros k Hk. by rewrite clearExpired_lookup, Hk.
  - intros Hall. apply map_size_empty_iff, map_eq. intros k.
    rewrite clearExpired_lookup, lookup_empty.
    destruct (CacheService.cache this !! k) as [item|] eqn:Hk; [|done].
    specialize (Hall k item Hk). unfold CacheService.isExpired.
    by destruct (Z.ltb_spec (CacheService.cacheDuration this)
                   (now - CacheService.timestamp item)); [|lia].
Qed.

End CacheFacts.

(** A cache of numbers holding one entry stored at time 0. *)
Lemma get_absent_expired_fresh_witness :
  let this := CacheService.set 0 "paris" 7%nat (CacheService.new 300000) in
  CacheService.get 5 "rome" this = (None, this)
  /\ fst (CacheService.get 300001 "paris" this) = None
  /\ fst (CacheService.has 300002 "paris" (snd (CacheService.get 300001 "paris" this)))
     = false
  /\ CacheService.get 300000 "paris" this = (Some 7%nat, this).
Proof.
  intros this.
  destruct (get_absent_expired_fresh this "rome" 5) as (Habsent & _ & _).
  destruct (get_absent_expired_fresh this "paris" 300001) as (_ & Hexpired & _).
  destruct (get_absent_expired_fresh this "paris" 300000) as (_ & _ & Hfresh).
  split; [apply Habsent; reflexivity|].
  destruct (Hexpired {| CacheService.data := 7%nat; CacheService.timestamp := 0;
                        CacheService.key := "paris" |})
    as (Hnone & _ & Hhas); [reflexivity|reflexivity|].
  split; [exact Hnone|]. split; [apply Hhas|].
  apply (Hfresh {| CacheService.data := 7%nat; CacheService.timestamp := 0;
                    CacheService.key := "paris" |}); [reflexivity|].
  vm_compute. discriminate.
Defined.

(** Three entries, two of them stored long ago: the sweep keeps the
    recent one; with all of them past expiry it keeps none. *)
Lemma clearExpired_exact_witness :
  let this :=
    CacheService.set 400000 "oslo" 3%nat
      (CacheService.set 1 "rome" 2%nat
         (CacheService.set 0 "paris" 1%nat (CacheService.new 300000))) in
  CacheService.cache (CacheService.clearExpired 400100 this) !! "paris" = None
  /\ CacheService.cache (CacheService.clearExpired 400100 this) !! "oslo"
     = Some {| CacheService.data := 3%nat; CacheService.timestamp := 400000;
               CacheService.key := "oslo" |}
  /\ size (CacheService.cache (CacheService.clearExpired 800000 this)) = 0%nat.
Proof.
  intros this.
  destruct (clearExpired_exact this 400100) as (Hgone & Hkept & _).
  destruct (clearExpired_exact this 800000) as (_ & _ & _ & _ & Hnone).
  split; [|split].
  - apply (Hgone "paris" {| CacheService.data := 1%nat; CacheService.timestamp := 0;
                            CacheService.key := "paris" |}); reflexivity.
  - apply Hkept; [reflexivity|]. vm_compute. discriminate.
  - apply Hnone. intros k item Hk.
    assert (Hts : CacheService.timestamp item <= 400000).
    { unfold this, CacheService.set in Hk; simpl in Hk.
      destruct (decide (k = "oslo")) as [->|]; [rewrite lookup_insert_eq in Hk|
        rewrite lookup_insert_ne in Hk by done;
        destruct (decide (k = "rome")) as [->|]; [rewrite lookup_insert_eq in Hk|
          rewrite lookup_insert_ne in Hk by done;
          destruct (decide (k = "paris")) as [->|]; [rewrite lookup_insert_eq in Hk|
            rewrite lookup_insert_ne, lookup_empty in Hk by done; discriminate]]];
      injection Hk as <-; simpl; lia. }
    change (CacheService.cacheDuration this) with 300000. lia.
Defined.

(** ** The weather-code tables *)

Lemma description_of_unlisted (code : Z) :
  code ∉ Spec.described_codes ->
  WeatherService.getWeatherDescription code = "Unknown".
Proof.
  intros Hcode. unfold WeatherService.getWeatherDescription.
  assert (WeatherService.descriptions !! code = None) as ->; [|done].
  unfold WeatherService.descriptions. apply not_elem_of_list_to_map_1.
  exact Hcode.
Qed.

(** C6: the icon is decided by the first inclusive upper bound, in
    ascending order, that the code does not exceed, after the test for a
    code of exactly 0, and is the default icon past 99; the description
    comes from the table of exact codes and is "Unknown" for every other
    code.  Code 0 is "Clear sky", code 96 "Thunderstorm with hail", and
    code 10 has the fog icon and the description "Unknown". *)
Theorem weather_code_mapping (code : Z) :
  WeatherService.getWeatherIcon code = Spec.icon_of_code code
  /\ (code = 0 -> WeatherService.getWeatherIcon code = WeatherService.IconSun)
  /\ (code <> 0 -> code <= 3 ->
      WeatherService.getWeatherIcon code = WeatherService.IconSunBehindCloud)
  /\ (3 < code <= 48 -> WeatherService.getWeatherIcon code = WeatherService.IconFog)
  /\ (48 < code <= 67 -> WeatherService.getWeatherIcon code = WeatherService.IconRain)
  /\ (67 < code <= 77 -> WeatherService.getWeatherIcon code = WeatherService.IconSnow)
  /\ (77 < code <= 82 ->
      WeatherService.getWeatherIcon code = WeatherService.IconSunBehindRainCloud)
  /\ (82 < code <= 99 -> WeatherService.getWeatherIcon code = WeatherService.IconThunder)
  /\ (99 < code ->
      WeatherService.getWeatherIcon code = WeatherService.IconSunBehindSmallCloud)
  /\ (code ∉ Spec.described_codes ->
      WeatherService.getWeatherDescription code = "Unknown")
  /\ (code ∈ Spec.described_codes ->
      WeatherService.descriptions !! code
      = Some (WeatherService.getWeatherDescription code)
      /\ WeatherService.getWeatherDescription code <> "Unknown")
  /\ WeatherService.getWeatherDescription 0 = "Clear sky"
  /\ WeatherService.getWeatherDescription 96 = "Thunderstorm with hail"
  /\ WeatherService.getWeatherIcon 10 = WeatherService.IconFog
  /\ WeatherService.getWeatherDescription 10 = "Unknown".
Proof.
  assert (Hicon : WeatherService.getWeatherIcon code = Spec.icon_of_code code).
  { unfold WeatherService.getWeatherIcon, Spec.icon_of_code.
    destruct (decide (code = 0)) as [->|Hne]; [done|].
    destruct (Z.eqb_spec code 0); [done|]. simpl.
    repeat (match goal with
            | |- context [?a <=? ?b] => destruct (Z.leb_spec a b); simpl
            end; try done; try lia). }
  split; [exact Hicon|].
  unfold WeatherService.getWeatherIcon.
  repeat split; intros; try reflexivity;
    try (repeat (match goal with
                 | |- context [?a =? ?b] => destruct (Z.eqb_spec a b); simpl
                 | |- context [?a <=? ?b] => destruct (Z.leb_spec a b); simpl
                 end; try done; try lia); fail).
  - by apply description_of_unlisted.
  - unfold Spec.described_codes in *.
    repeat (match goal with
            | H : _ ∈ _ :: _ |- _ => apply elem_of_cons in H as [->|H]
            | H : _ ∈ [] |- _ => by apply elem_of_nil in H
            end; try reflexivity).
  - unfold Spec.described_codes in *.
    repeat (match goal with
            | H : _ ∈ _ :: _ |- _ => apply elem_of_cons in H as [->|H]
            | H : _ ∈ [] |- _ => by apply elem_of_nil in H
            end; try (vm_compute; discriminate)).
Qed.

(** ** The weather lookup *)

Section WeatherLookupFacts.
Context {num : Type} `{!JS.Num num} `{!JS.CaseMapping}.
Import Eff.

Ltac run_eff :=
  unfold mbind, mret, M_bind, M_ret, bind, ret, gets, modify, emit, throw,
    try_catch, lift in *.

Lemma lookup_hit (env : WeatherService.Env) (loc : string) (s : WeatherService.State) item :
  CacheService.cache (WeatherService.cacheService s) !! JS.trim (JS.toLowerCase loc) = Some item ->
  WeatherService.clock s - CacheService.timestamp item
    <= CacheService.cacheDuration (WeatherService.cacheService s) ->
  WeatherService.getWeatherForLocation env loc s = (Return (CacheService.data item), s, []).
Proof.
  intros Hitem Hfresh.
  unfold WeatherService.getWeatherForLocation, WeatherService.Date_now,
    WeatherService.with_cacheService.
  run_eff. simpl.
  unfold CacheService.get, CacheService.isExpired. rewrite Hitem.
  destruct (Z.ltb_spec (CacheService.cacheDuration (WeatherService.cacheService s))
              (WeatherService.clock s - CacheService.timestamp item)); [lia|].
  simpl. by destruct s.
Qed.

Lemma lookup_success_cached (env : WeatherService.Env) loc s d s1 log1 :
  WeatherService.getWeatherForLocation env loc s = (Return d, s1, log1) ->
  exists item,
    CacheService.cache (WeatherService.cacheService s1) !! JS.trim (JS.toLowerCase loc)
    = Some item
    /\ CacheService.data item = d.
Proof.
  unfold WeatherService.getWeatherForLocation, WeatherService.Date_now,
    WeatherService.with_cacheService, WeatherService.geocodeLocation,
    WeatherService.fetchWeatherData, WeatherService.await.
  run_eff. simpl.
  unfold CacheService.get, CacheService.isExpired.
  destruct (CacheService.cache (WeatherService.cacheService s)
              !! JS.trim (JS.toLowerCase loc)) as [item|] eqn:Hitem.
  - destruct (Z.ltb_spec (CacheService.cacheDuration (WeatherService.cacheService s))
                (WeatherService.clock s - CacheService.timestamp item)).
    + simpl.
      destruct (WeatherService.geocoding_api env loc) as [[|g gs]| |]; simpl;
        try discriminate.
      destruct (WeatherService.forecast_api env _ _) as [[cur|]| |]; simpl;
        try discriminate.
      intros [= <- <- <-]. simpl. eexists. rewrite lookup_insert_eq.
      split; reflexivity.
    + simpl. intros [= <- <- <-]. simpl. by exists item.
  - simpl.
    destruct (WeatherService.geocoding_api env loc) as [[|g gs]| |]; simpl;
      try discriminate.
    destruct (WeatherService.forecast_api env _ _) as [[cur|]| |]; simpl;
      try discriminate.
    intros [= <- <- <-]. simpl. eexists. rewrite lookup_insert_eq.
    split; reflexivity.
Qed.

(** C7: two location strings that agree after lower-casing and trimming
    are looked up under one cache key: once a lookup of the first has
    succeeded, a lookup of the second, made while the age of the stored
    entry does not exceed the configured duration, returns the same
    snapshot, issues no geocoding or forecast request and leaves the cache
    as it was. *)
Theorem lookup_same_key_hits (env : WeatherService.Env) l1 l2 s d s1 log1 :
  JS.trim (JS.toLowerCase l1) = JS.trim (JS.toLowerCase l2) ->
  WeatherService.getWeatherForLocation env l1 s = (Return d, s1, log1) ->
  exists item,
    CacheService.cache (WeatherService.cacheService s1) !! JS.trim (JS.toLowerCase l2)
    = Some item
    /\ CacheService.data item = d
    /\ forall t,
         t - CacheService.timestamp item
           <= CacheService.cacheDuration (WeatherService.cacheService s1) ->
         WeatherService.getWeatherForLocation env l2 (WeatherService.at_time t s1)
         = (Return d, WeatherService.at_time t s1, []).
Proof.
  intros Hkey Hrun.
  destruct (lookup_success_cached env l1 s d s1 log1 Hrun) as (item & Hitem & Hd).
  exists item. rewrite <- Hkey. split; [exact Hitem|]. split; [exact Hd|].
  intros t Ht. rewrite <- Hd. apply lookup_hit.
  - simpl. by rewrite <- Hkey.
  - exact Ht.
Qed.

End WeatherLookupFacts.

Section LookupExamples.

#[local] Existing Instance JS.Latin1.

(** A geocoder that knows Paris and a forecast of 21.4 degrees, code 2,
    12.34 km/h wind: after the lookup of ["  Paris "] at time 1000, the
    lookup of ["PARIS"] four minutes later is answered from the cache.
    And after the lookup of ["ZÜRICH"], so is the lookup of ["zürich"]
    followed by a no-break space. *)
Lemma lookup_same_key_hits_witness :
  let env : WeatherService.Env (num := Q) :=
    {| WeatherService.geocoding_api := fun l =>
         if String.eqb l "  Paris "
         then WeatherService.Answer
                [{| WeatherService.latitude := (4885 # 100)%Q;
                    WeatherService.longitude := (235 # 100)%Q;
                    WeatherService.name := "Paris";
                    WeatherService.geo_country := "France" |}]
         else WeatherService.Answer [];
       WeatherService.forecast_api := fun _ _ =>
         WeatherService.Answer
           (Some {| WeatherService.temperature_2m := (214 # 10)%Q;
                    WeatherService.relative_humidity_2m := (60 # 1)%Q;
                    WeatherService.weather_code := 2;
                    WeatherService.wind_speed_10m := (1234 # 100)%Q |});
       WeatherService.latency := fun _ => 150 |} in
  let s0 : WeatherService.State (num := Q) :=
    {| WeatherService.clock := 1000;
       WeatherService.cacheService := WeatherService.new 5 |} in
  (exists d s1,
     WeatherService.getWeatherForLocation env "  Paris " s0
     = (Eff.Return d, s1,
        [WeatherService.GeocodingRequest "  Paris ";
         WeatherService.ForecastRequest (4885 # 100)%Q (235 # 100)%Q])
     /\ WeatherService.description d = "Partly cloudy"
     /\ WeatherService.getWeatherForLocation env "PARIS" (WeatherService.at_time 241300 s1)
        = (Eff.Return d, WeatherService.at_time 241300 s1, []))
  /\ (exists d s1 log1,
        WeatherService.getWeatherForLocation MoreExamples.weather_env "ZÜRICH" s0
        = (Eff.Return d, s1, log1)
        /\ WeatherService.cityName d = "Zurich"
        /\ WeatherService.getWeatherForLocation MoreExamples.weather_env
             ("zürich" +:+ MoreExamples.nbsp) (WeatherService.at_time 241300 s1)
           = (Eff.Return d, WeatherService.at_time 241300 s1, [])).
Proof.
  intros env s0. split.
  - destruct (WeatherService.getWeatherForLocation env "  Paris " s0)
      as [[o s1] log1] eqn:Hrun.
    vm_compute in Hrun. injection Hrun as <- <- <-.
    eexists _, _. split; [reflexivity|]. split; [reflexivity|].
    edestruct (lookup_same_key_hits env "  Paris " "PARIS" s0)
      as (item & Hitem & Hd & Hhit); [reflexivity|vm_compute; reflexivity|].
    vm_compute in Hitem. injection Hitem as <-.
    rewrite <- Hd. apply Hhit. vm_compute. discriminate.
  - destruct (WeatherService.getWeatherForLocation MoreExamples.weather_env "ZÜRICH" s0)
      as [[o s1] log1] eqn:Hrun.
    vm_compute in Hrun. injection Hrun as <- <- <-.
    eexists _, _, _. split; [reflexivity|]. split; [reflexivity|].
    edestruct (lookup_same_key_hits MoreExamples.weather_env "ZÜRICH"
                 ("zürich" +:+ MoreExamples.nbsp) s0)
      as (item & Hitem & Hd & Hhit); [reflexivity|vm_compute; reflexivity|].
    vm_compute in Hitem. injection Hitem as <-.
    rewrite <- Hd. apply Hhit. vm_compute. discriminate.
Defined.

End LookupExamples.

(** ** Strings and sorting *)

Lemma append_assoc (a b c : string) : (a +:+ b) +:+ c = a +:+ (b +:+ c).
Proof.
  induction a as [|x a IH]; [reflexivity|].
  change (String x ((a +:+ b) +:+ c) = String x (a +:+ (b +:+ c))). by f_equal.
Qed.

Lemma append_nil_r (a : string) : a +:+ "" = a.
Proof.
  induction a as [|x a IH]; [reflexivity|].
  change (String x (a +:+ "") = String x a). by f_equal.
Qed.

Lemma append_eq_nil (a b : string) : a +:+ b = "" -> a = "" /\ b = "".
Proof. destruct a; [done|]. intros Heq. discriminate Heq. Qed.

Lemma unrank_rank (c : ascii) : JS.unrank (JS.rank c) = c.
Proof. destruct c as [[] [] [] [] [] [] [] []]; reflexivity. Qed.

Lemma map_bytes_unrank_rank (s : string) :
  JS.map_bytes JS.unrank (JS.map_bytes JS.rank s) = s.
Proof. induction s as [|c r IH]; simpl; [done|]. by rewrite unrank_rank, IH. Qed.

Lemma sort_permutation (l1 l2 : list string) : l1 ≡ₚ l2 -> JS.sort l1 = JS.sort l2.
Proof.
  intros Hperm. unfold JS.sort. f_equal.
  apply (Sorted_unique String.le).
  - apply Sorted_merge_sort, _.
  - apply Sorted_merge_sort, _.
  - by rewrite !merge_sort_Permutation, Hperm.
Qed.

Lemma sort_is_permutation (l : list string) : JS.sort l ≡ₚ l.
Proof.
  unfold JS.sort. rewrite merge_sort_Permutation, <- list_fmap_compose.
  erewrite list_fmap_ext; [by rewrite list_fmap_id|].
  intros i s _. apply map_bytes_unrank_rank.
Qed.

(** ** The AI controller *)

Section GeminiFacts.
Context {num : Type} `{!JS.Num num}.
Import Eff.
Import GeminiAIController.

Implicit Types (env : @Env num) (s : State) (req : Body).

Ltac run_eff :=
  unfold mbind, mret, M_bind, M_ret, bind, ret, gets, modify, emit, throw,
    try_catch, lift in *.

Lemma advance_zero s : advance 0 s = s.
Proof. destruct s. unfold advance; simpl. f_equal. lia. Qed.

Lemma advance_advance a b s : advance b (advance a s) = advance (a + b) s.
Proof. unfold advance; simpl. f_equal. lia. Qed.

Lemma getCachedResponse_run k s :
  getCachedResponse k s =
  (Return (cached_at s k), s, []).
Proof.
  unfold getCachedResponse, cached_at, Date_now. run_eff.
  destruct (aiCache s !! k) as [c|]; [|done].
  by destruct (clock s - timestamp c <? CACHE_TTL).
Qed.

Lemma setCachedResponse_run k d s :
  setCachedResponse k d s = (Return tt, stored k d s, []).
Proof. reflexivity. Qed.

Lemma getWeatherData_run env loc s :
  getWeatherData env loc s =
  (Return (weather_api env loc), advance (latency env (WeatherRequest loc)) s,
   [WeatherRequest loc]).
Proof. reflexivity. Qed.

Lemma callGemini_run env prompt maxTokens s :
  callGemini env prompt maxTokens s =
  (match gemini_api env prompt maxTokens with
   | Some text => Return text
   | None => Throw AIServiceUnavailable
   end,
   advance (latency env (GeminiRequest prompt maxTokens)) s,
   [GeminiRequest prompt maxTokens]).
Proof.
  unfold callGemini, await. run_eff.
  by destruct (gemini_api env prompt maxTokens).
Qed.

Lemma mapM_getWeatherData_run env locs s :
  mapM (getWeatherData env) locs s =
  (Return (weather_api env <$> locs),
   advance (elapsed env (WeatherRequest <$> locs)) s,
   WeatherRequest <$> locs).
Proof.
  revert s. induction locs as [|loc locs IH]; intros s.
  - simpl. by rewrite advance_zero.
  - cbn [mapM]. unfold mbind, M_bind, bind at 1.
    rewrite getWeatherData_run. unfold mbind, M_bind, bind at 1. rewrite IH.
    unfold mret, M_ret, ret. simpl. by rewrite advance_advance, app_nil_r.
Qed.

Lemma mapM_lift_run {A B} (f : A -> Outcome Error B) (l : list A) s :
  mapM (C := Call) (fun x => lift (f x)) l s = (sequence (f <$> l), s, []).
Proof.
  induction l as [|x l IH].
  - reflexivity.
  - cbn [mapM]. unfold mbind, M_bind, bind at 1. unfold lift at 1.
    simpl. destruct (f x) as [b|e]; [|done].
    unfold mbind, M_bind, bind at 1. rewrite IH. unfold fmap.
    by destruct (sequence (list_fmap _ _ f l)).
Qed.


(** The summary handler, request by request: its response, the state it
    leaves and the requests it issued. *)
Lemma generateWeatherSummary_run env req s :
  generateWeatherSummary env req s =
  match locations req with
  | Some ((_ :: _) as given) =>
      let locs := JS.sort given in
      let cacheKey := getCacheKey "summary" (JS.of_strings locs) in
      if truthy (cached_at s cacheKey)
      then (Return (json [("summary", Text (default "" (cached_at s cacheKey)))]), s, [])
      else
        let results := weather_api env <$> locs in
        let asked := WeatherRequest <$> locs in
        let s1 := advance (elapsed env asked) s in
        match buildSummary (zip locs results) "" 0 with
        | Throw _ =>
            (Return (status_json 500
                       [("error", Text "Failed to generate weather summary")]),
             s1, asked)
        | Return (weatherSummary, successfulResults) =>
            if negb (JS.truthy weatherSummary)
            then (Return (status_json 400
                            [("error",
                              Text "No weather data available for provided locations")]),
                  s1, asked)
            else
              let c := GeminiRequest (summaryPrompt weatherSummary) 300 in
              let s2 := advance (latency env c) s1 in
              match gemini_api env (summaryPrompt weatherSummary) 300 with
              | Some summary =>
                  (Return (json [("summary", Text summary)]),
                   stored cacheKey summary s2, asked ++ [c])
              | None =>
                  (Return (json [("summary",
                                  Text (summaryFallback results successfulResults
                                          weatherSummary))]),
                   s2, asked ++ [c])
              end
        end
  | _ => (Return (status_json 400 [("error", Text "Locations array is required")]), s, [])
  end.
Proof.
  unfold generateWeatherSummary.
  destruct (locations req) as [[|loc given]|]; try reflexivity.
  set (locs := JS.sort (loc :: given)).
  cbv zeta. unfold try_catch at 1. unfold mbind, M_bind, bind at 1.
  rewrite getCachedResponse_run.
  destruct (truthy _); [reflexivity|].
  unfold mbind, M_bind, bind at 1. rewrite mapM_getWeatherData_run.
  unfold mbind, M_bind, bind at 1. unfold lift at 1.
  destruct (buildSummary _ _ _) as [[ws k]|e];
    [|unfold mret, M_ret, ret; by rewrite !app_nil_r].
  destruct (negb (JS.truthy ws)); [unfold mret, M_ret, ret; by rewrite !app_nil_r|].
  unfold try_catch. unfold mbind, M_bind, bind at 1. rewrite callGemini_run.
  destruct (gemini_api env _ _) as [text|].
  - unfold mbind, M_bind, bind. rewrite setCachedResponse_run.
    unfold mret, M_ret, ret. by rewrite !app_nil_r.
  - unfold mret, M_ret, ret. by rewrite !app_nil_r.
Qed.


Lemma gatherContext_run env given s :
  gatherContext env given s =
  (match sequence ((fun p => chatLine (fst p) (snd p))
                     <$> zip (default [] given) (weather_api env <$> default [] given)) with
   | Return lines => Return (JS.join ". " lines)
   | Throw e => Throw e
   end,
   advance (elapsed env (WeatherRequest <$> default [] given)) s,
   WeatherRequest <$> default [] given).
Proof.
  unfold gatherContext.
  destruct given as [[|loc locs]|]; simpl default;
    try (cbn; by rewrite advance_zero).
  unfold mbind, M_bind, bind at 1. rewrite mapM_getWeatherData_run.
  unfold mbind, M_bind, bind at 1. rewrite mapM_lift_run.
  destruct (sequence _) as [lines|e]; unfold mret, M_ret, ret;
    by rewrite !app_nil_r.
Qed.

Lemma handleWeatherChat_run env req s :
  handleWeatherChat env req s =
  match question req with
  | Some q =>
      if negb (JS.truthy q)
      then (Return (status_json 400 [("error", Text "Question is required")]), s, [])
      else
        let cacheKey :=
          getCacheKey "chat"
            (JS.Object [("question", JS.Str q);
                        ("locations", JS.of_option JS.of_strings (locations req))]) in
        if truthy (cached_at s cacheKey)
        then (Return (json [("response", Text (default "" (cached_at s cacheKey)))]), s, [])
        else
          let locs := default [] (locations req) in
          let results := weather_api env <$> locs in
          let asked := WeatherRequest <$> locs in
          let s1 := advance (elapsed env asked) s in
          match sequence ((fun p => chatLine (fst p) (snd p)) <$> zip locs results) with
          | Throw _ =>
              (Return (status_json 500
                         [("error", Text "Failed to process chat request")]),
               s1, asked)
          | Return lines =>
              let prompt := chatPrompt q (JS.join ". " lines) in
              let c := GeminiRequest prompt 200 in
              let s2 := advance (latency env c) s1 in
              match gemini_api env prompt 200 with
              | Some response =>
                  (Return (json [("response", Text response)]),
                   stored cacheKey response s2, asked ++ [c])
              | None =>
                  (Return (json [("response", Text (chatFallback (locations req)))]),
                   s2, asked ++ [c])
              end
          end
  | None => (Return (status_json 400 [("error", Text "Question is required")]), s, [])
  end.
Proof.
  unfold handleWeatherChat.
  destruct (question req) as [q|]; [|reflexivity].
  destruct (negb (JS.truthy q)); [reflexivity|].
  cbv zeta. unfold try_catch at 1. unfold mbind, M_bind, bind at 1.
  rewrite getCachedResponse_run.
  destruct (truthy _); [reflexivity|].
  unfold mbind, M_bind, bind at 1.
  rewrite gatherContext_run.
  destruct (sequence _) as [lines|e];
    [|unfold mret, M_ret, ret; by rewrite !app_nil_r].
  unfold try_catch. unfold mbind, M_bind, bind at 1. rewrite callGemini_run.
  destruct (gemini_api env _ _) as [text|].
  - unfold mbind, M_bind, bind. rewrite setCachedResponse_run.
    unfold mret, M_ret, ret. by rewrite !app_nil_r.
  - unfold mret, M_ret, ret. by rewrite !app_nil_r.
Qed.

Lemma getLocationSuggestions_run env req s :
  getLocationSuggestions env req s =
  match interests req with
  | Some i =>
      if negb (JS.truthy i)
      then (Return (status_json 400 [("error", Text "Interests are required")]), s, [])
      else
        let cacheKey :=
          getCacheKey "suggestions"
            (JS.Object
               [("currentLocations", JS.of_option JS.of_strings (currentLocations req));
                ("interests", JS.Str i)]) in
        if truthy (cached_at s cacheKey)
        then (Return (json [("suggestions", Text (default "" (cached_at s cacheKey)))]),
              s, [])
        else
          let prompt := suggestionsPrompt (currentLocations req) i in
          let c := GeminiRequest prompt 400 in
          let s1 := advance (latency env c) s in
          match gemini_api env prompt 400 with
          | Some suggestions =>
              (Return (json [("suggestions", Text suggestions)]),
               stored cacheKey suggestions s1, [c])
          | None =>
              (Return (json [("suggestions", Text (suggestionsFallback i))]), s1, [c])
          end
  | None => (Return (status_json 400 [("error", Text "Interests are required")]), s, [])
  end.
Proof.
  unfold getLocationSuggestions.
  destruct (interests req) as [i|]; [|reflexivity].
  destruct (negb (JS.truthy i)); [reflexivity|].
  cbv zeta. unfold try_catch at 1. unfold mbind, M_bind, bind at 1.
  rewrite getCachedResponse_run.
  destruct (truthy _); [reflexivity|].
  unfold try_catch. unfold mbind, M_bind, bind at 1. rewrite callGemini_run.
  destruct (gemini_api env _ _) as [text|]; reflexivity.
Qed.

Lemma generateWeatherTrivia_run env req s :
  generateWeatherTrivia env req s =
  match location req with
  | Some loc =>
      if negb (JS.truthy loc)
      then (Return (status_json 400 [("error", Text "Location is required")]), s, [])
      else
        let cacheKey := getCacheKey "trivia" (JS.Str loc) in
        if truthy (cached_at s cacheKey)
        then (Return (json [("trivia", Text (default "" (cached_at s cacheKey)))]), s, [])
        else
          let s1 := advance (latency env (WeatherRequest loc)) s in
          match weather_api env loc with
          | None =>
              (Return (status_json 400
                         [("error", Text ("Unable to fetch weather data for " +:+ loc))]),
               s1, [WeatherRequest loc])
          | Some d =>
              match first_description d with
              | Throw _ =>
                  (Return (status_json 500
                             [("error", Text "Failed to generate weather trivia")]),
                   s1, [WeatherRequest loc])
              | Return desc =>
                  let prompt := triviaPrompt loc (temp (main d)) desc in
                  let c := GeminiRequest prompt 200 in
                  let s2 := advance (latency env c) s1 in
                  match gemini_api env prompt 200 with
                  | Some trivia =>
                      (Return (json [("trivia", Text trivia);
                                     ("weather", WeatherObject d)]),
                       stored cacheKey trivia s2, [WeatherRequest loc; c])
                  | None =>
                      (Return (json [("trivia",
                                      Text (triviaFallback loc (temp (main d)) desc));
                                     ("weather", WeatherObject d)]),
                       s2, [WeatherRequest loc; c])
                  end
              end
          end
  | None => (Return (status_json 400 [("error", Text "Location is required")]), s, [])
  end.
Proof.
  unfold generateWeatherTrivia.
  destruct (location req) as [loc|]; [|reflexivity].
  destruct (negb (JS.truthy loc)); [reflexivity|].
  cbv zeta. unfold try_catch at 1. unfold mbind, M_bind, bind at 1.
  rewrite getCachedResponse_run.
  destruct (truthy _); [reflexivity|].
  unfold mbind, M_bind, bind at 1. rewrite getWeatherData_run.
  destruct (weather_api env loc) as [d|]; [|reflexivity].
  unfold mbind, M_bind, bind at 1. unfold lift at 1.
  destruct (first_description d) as [desc|e]; [|reflexivity].
  unfold try_catch. unfold mbind, M_bind, bind at 1. rewrite callGemini_run.
  destruct (gemini_api env _ _) as [text|]; reflexivity.
Qed.


Lemma gemini_not_asked_weather p n (locs : list string) :
  GeminiRequest p n ∉ WeatherRequest <$> locs.
Proof. intros (loc & Heq & _)%list_elem_of_fmap. discriminate. Qed.

Lemma gemini_asked_last p n (locs : list string) p' n' :
  GeminiRequest p n ∈ (WeatherRequest <$> locs) ++ [GeminiRequest p' n'] ->
  p = p' /\ n = n'.
Proof.
  intros [Hin|Hin]%elem_of_app.
  - by apply gemini_not_asked_weather in Hin.
  - apply list_elem_of_singleton in Hin. by injection Hin.
Qed.

(** [buildSummary] counts the successful lookups and appends one line for
    each of them. *)
Lemma buildSummary_spec (pairs : list (string * option WeatherData)) acc n ws k :
  buildSummary pairs acc n = Return (ws, k) ->
  k = (n + length (omap id pairs.*2))%nat
  /\ exists lines,
       ws = acc +:+ lines /\ (lines = "" <-> omap id pairs.*2 = []).
Proof.
  unfold omap, fmap.
  revert acc n. induction pairs as [|[loc [d|]] pairs IH]; intros acc n; simpl.
  - intros [= <- <-]. split; [lia|]. exists "". by rewrite append_nil_r.
  - unfold summaryLine.
    destruct (first_description d) as [desc|e]; [|discriminate].
    intros (-> & lines & -> & Hlines)%IH. split; [lia|].
    eexists. rewrite append_assoc. split; [reflexivity|].
    split; [|discriminate].
    intros [Hline _]%append_eq_nil.
    apply append_eq_nil in Hline as [_ Hline]. discriminate Hline.
  - apply IH.
Qed.

Lemma results_of_zip (env : @Env num) (locs : list string) :
  (zip locs (weather_api env <$> locs)).*2 = weather_api env <$> locs.
Proof. apply snd_zip. by rewrite length_fmap. Qed.

Lemma buildSummary_returns (env : @Env num) (locs : list string) acc n ws k :
  buildSummary (zip locs (weather_api env <$> locs)) acc n = Return (ws, k) ->
  ws = acc +:+ summaryContext env locs.
Proof.
  unfold fmap. revert acc n.
  induction locs as [|loc locs IH]; intros acc n; simpl.
  - intros [= <- <-]. by rewrite append_nil_r.
  - destruct (weather_api env loc) as [d|]; [|apply IH].
    destruct (summaryLine loc d) as [line|e]; [|discriminate].
    intros Hrest%IH. by rewrite Hrest, append_assoc.
Qed.

(** C1: when a handler has reached the call of the generative provider and
    that call fails, the handler does not throw: it answers 200 with a text
    computed from the request and the weather documents alone.  For the
    summary this is the sentence giving the average temperature, the sum
    of the temperatures of the locations whose lookup succeeded divided
    by their number, of which there is at least one, printed with one
    decimal and followed by the lines of these locations, and it is not
    empty; for the suggestions it is the list of five places after the
    user's interests; for the chat and the trivia it is their fixed
    sentence, the trivia together with the weather document. *)
Theorem provider_failure_falls_back env req s o s' log p n :
  GeminiRequest p n ∈ log ->
  gemini_api env p n = None ->
  (handleWeatherChat env req s = (o, s', log) ->
   exists resp,
     o = Return resp /\ status resp = 200%nat
     /\ body resp =
        [("response",
          Text ("I can help with weather questions! You're currently tracking "
                +:+ pretty (length (default [] (locations req)))
                +:+ " locations. Check your weather widgets for current conditions."))])
  /\ (generateWeatherSummary env req s = (o, s', log) ->
      exists resp given weatherSummary,
        let temps :=
          (fun d => temp (main d)) <$> omap id (weather_api env <$> JS.sort given) in
        let avgTemp :=
          JS.div (foldl JS.add JS.zero temps) (JS.of_nat (length temps)) in
        let text :=
          "Weather Summary: Average temperature across " +:+ pretty (length temps)
          +:+ " locations is " +:+ JS.toFixed avgTemp 1 +:+ "°C. "
          +:+ weatherSummary in
        o = Return resp /\ status resp = 200%nat
        /\ locations req = Some given
        /\ temps <> []
        /\ weatherSummary = summaryContext env (JS.sort given)
        /\ body resp = [("summary", Text text)]
        /\ text <> "")
  /\ (getLocationSuggestions env req s = (o, s', log) ->
      exists resp i,
        o = Return resp /\ status resp = 200%nat
        /\ interests req = Some i
        /\ body resp =
           [("suggestions",
             Text ("Based on your interests in " +:+ i +:+ ", here are 5 recommended locations:

1. Barcelona, Spain - Great climate for outdoor activities
2. Vancouver, Canada - Perfect for nature lovers  
3. Sydney, Australia - Ideal for beach and city experiences
4. Tokyo, Japan - Fascinating weather patterns and seasons
5. Reykjavik, Iceland - Unique Arctic weather phenomena"))])
  /\ (generateWeatherTrivia env req s = (o, s', log) ->
      exists resp loc d desc,
        o = Return resp /\ status resp = 200%nat
        /\ location req = Some loc
        /\ weather_api env loc = Some d
        /\ first_description d = Return desc
        /\ body resp =
           [("trivia",
             Text (loc +:+ " is currently experiencing " +:+ desc +:+ " at "
                   +:+ JS.toString (temp (main d))
                   +:+ "°C. Did you know that weather patterns can vary significantly even within the same city due to local geography and urban heat effects?"));
            ("weather", WeatherObject d)]).
Proof.
  intros Hasked Hfails. repeat split.
  - rewrite handleWeatherChat_run.
    destruct (question req) as [q|];
      [|intros [= <- <- <-]; by apply elem_of_nil in Hasked].
    destruct (negb (JS.truthy q));
      [intros [= <- <- <-]; by apply elem_of_nil in Hasked|].
    cbv zeta. destruct (truthy _);
      [intros [= <- <- <-]; by apply elem_of_nil in Hasked|].
    destruct (sequence _) as [lines|e];
      [|intros [= <- <- <-]; by apply gemini_not_asked_weather in Hasked].
    destruct (gemini_api env (chatPrompt _ _) _) as [text|] eqn:Hanswer; intros [= <- <- <-].
    + destruct (gemini_asked_last _ _ _ _ _ Hasked) as [-> ->]. congruence.
    + by eexists.
  - rewrite generateWeatherSummary_run.
    destruct (locations req) as [[|loc given]|] eqn:Hgiven;
      try (intros [= <- <- <-]; by apply elem_of_nil in Hasked).
    cbv zeta. destruct (truthy _);
      [intros [= <- <- <-]; by apply elem_of_nil in Hasked|].
    destruct (buildSummary _ _ _) as [[ws k]|e] eqn:Hbuild;
      [|intros [= <- <- <-]; by apply gemini_not_asked_weather in Hasked].
    destruct (JS.truthy ws) eqn:Hws; simpl negb; cbv iota;
      [|intros [= <- <- <-]; by apply gemini_not_asked_weather in Hasked].
    pose proof (buildSummary_returns _ _ _ _ _ _ Hbuild) as Hcontext.
    apply buildSummary_spec in Hbuild as (-> & lines & Hlines & Hsome).
    rewrite results_of_zip in Hsome. simpl in Hlines. subst ws.
    destruct (gemini_api env (summaryPrompt _) _) as [text|] eqn:Hanswer; intros [= <- <- <-].
    + destruct (gemini_asked_last _ _ _ _ _ Hasked) as [-> ->]. congruence.
    + eexists _, (loc :: given), lines. cbv zeta.
      split; [reflexivity|]. split; [reflexivity|]. split; [reflexivity|].
      split; [|split; [|split]].
      * intros Hnone%fmap_nil_inv. apply Hsome in Hnone. by subst lines.
      * exact Hcontext.
      * unfold summaryFallback, average, json; simpl body.
        by rewrite results_of_zip, length_fmap.
      * discriminate.
  - rewrite getLocationSuggestions_run.
    destruct (interests req) as [i|];
      [|intros [= <- <- <-]; by apply elem_of_nil in Hasked].
    destruct (negb (JS.truthy i));
      [intros [= <- <- <-]; by apply elem_of_nil in Hasked|].
    cbv zeta. destruct (truthy _);
      [intros [= <- <- <-]; by apply elem_of_nil in Hasked|].
    destruct (gemini_api env (suggestionsPrompt _ _) _) as [text|] eqn:Hanswer; intros [= <- <- <-].
    + apply list_elem_of_singleton in Hasked. injection Hasked as -> ->. congruence.
    + by eexists _, _.
  - rewrite generateWeatherTrivia_run.
    destruct (location req) as [loc|];
      [|intros [= <- <- <-]; by apply elem_of_nil in Hasked].
    destruct (negb (JS.truthy loc));
      [intros [= <- <- <-]; by apply elem_of_nil in Hasked|].
    cbv zeta. destruct (truthy _);
      [intros [= <- <- <-]; by apply elem_of_nil in Hasked|].
    destruct (weather_api env loc) as [d|] eqn:Hd;
      [|intros [= <- <- <-]; by apply (gemini_not_asked_weather p n [loc]) in Hasked].
    destruct (first_description d) as [desc|e] eqn:Hdesc;
      [|intros [= <- <- <-]; by apply (gemini_not_asked_weather p n [loc]) in Hasked].
    destruct (gemini_api env (triviaPrompt _ _ _) _) as [text|] eqn:Hanswer; intros [= <- <- <-].
    + destruct (gemini_asked_last p n [loc] _ _ Hasked) as [-> ->]. congruence.
    + by eexists _, _, _, _.
Qed.


Lemma chat_lines env (locs : list string) :
  (forall loc d, loc ∈ locs -> weather_api env loc = Some d -> weather d <> []) ->
  exists lines,
    sequence ((fun p => chatLine (fst p) (snd p)) <$> zip locs (weather_api env <$> locs))
    = Return lines
    /\ length lines = length locs
    /\ forall i loc,
         locs !! i = Some loc -> weather_api env loc = None ->
         lines !! i = Some (loc +:+ ": Weather data unavailable").
Proof.
  unfold fmap.
  induction locs as [|loc locs IH]; intros Hwell.
  - exists []. repeat split. intros i loc. by rewrite lookup_nil.
  - destruct IH as (lines & Hlines & Hlen & Hfailed).
    { intros loc' d Hin. apply Hwell. by right. }
    simpl. unfold chatLine at 1. simpl.
    destruct (weather_api env loc) as [d|] eqn:Hd.
    + unfold first_description.
      destruct (weather d) as [|w ws] eqn:Hw.
      { exfalso. eapply Hwell; [left|exact Hd|exact Hw]. }
      rewrite Hlines. eexists. split; [reflexivity|]. split; [simpl; lia|].
      intros [|i] loc'; simpl; [|apply Hfailed]. intros [= <-]. congruence.
    + rewrite Hlines. eexists. split; [reflexivity|]. split; [simpl; lia|].
      intros [|i] loc'; simpl; [|apply Hfailed]. by intros [= <-].
Qed.

Lemma buildSummary_context env (locs : list string) acc n :
  (forall loc d, loc ∈ locs -> weather_api env loc = Some d -> weather d <> []) ->
  exists k,
    buildSummary (zip locs (weather_api env <$> locs)) acc n
    = Return (acc +:+ summaryContext env locs, k).
Proof.
  unfold fmap.
  revert acc n. induction locs as [|loc locs IH]; intros acc n Hwell; simpl.
  - exists n. by rewrite append_nil_r.
  - assert (Hrest : forall loc' d,
               loc' ∈ locs -> weather_api env loc' = Some d -> weather d <> []).
    { intros loc' d Hin. apply Hwell. by right. }
    destruct (weather_api env loc) as [d|] eqn:Hd; [|by apply IH].
    unfold summaryLine, first_description.
    destruct (weather d) as [|w ws] eqn:Hw.
    { exfalso. eapply Hwell; [left|exact Hd|exact Hw]. }
    destruct (IH (acc +:+ (loc +:+ ": " +:+ JS.toString (temp (main d)) +:+ "°C, "
                             +:+ description w +:+ ". ")) (S n) Hrest) as [k Hk].
    exists k. rewrite Hk. by rewrite append_assoc.
Qed.

Lemma summaryContext_empty env (locs : list string) :
  Forall (fun loc => weather_api env loc = None) locs ->
  summaryContext env locs = "".
Proof.
  induction 1 as [|loc locs Hloc _ IH]; [done|].
  simpl. by rewrite Hloc.
Qed.

Lemma summaryContext_nonempty env (locs : list string) :
  (forall loc d, loc ∈ locs -> weather_api env loc = Some d -> weather d <> []) ->
  Exists (fun loc => is_Some (weather_api env loc)) locs ->
  JS.truthy (summaryContext env locs) = true.
Proof.
  intros Hwell Hsome. induction Hsome as [loc locs [d Hd]|loc locs _ IH].
  - simpl. rewrite Hd. unfold summaryLine, first_description.
    destruct (weather d) as [|w ws] eqn:Hw.
    { exfalso. eapply Hwell; [left|exact Hd|exact Hw]. }
    destruct loc; reflexivity.
  - assert (Hrest : JS.truthy (summaryContext env locs) = true).
    { apply IH. intros loc' d Hin. apply Hwell. by right. }
    simpl. destruct (weather_api env loc) as [d|]; [|exact Hrest].
    destruct (summaryLine loc d) as [line|]; [|exact Hrest].
    destruct line; [exact Hrest|reflexivity].
Qed.

(** C2, as the code has it: in the chat handler a location whose lookup
    failed contributes the line "<location>: Weather data unavailable" and
    the provider is called with the context of all locations, also when
    every lookup failed.  In the summary handler a failed location has no
    line in the context; the provider is called when at least one lookup
    succeeded, and when every lookup failed the handler answers 400 after
    the weather requests, without calling the provider.  Weather
    documents are taken to carry a description. *)
Theorem failed_lookups_in_context env req s :
  (forall loc d, weather_api env loc = Some d -> weather d <> []) ->
  (forall q,
     question req = Some q -> JS.truthy q = true ->
     truthy (cached_at s
               (getCacheKey "chat"
                  (JS.Object [("question", JS.Str q);
                              ("locations",
                               JS.of_option JS.of_strings (locations req))])))
     = false ->
     let locs := default [] (locations req) in
     exists lines resp s',
       handleWeatherChat env req s
       = (Return resp, s',
          (WeatherRequest <$> locs)
          ++ [GeminiRequest (chatPrompt q (JS.join ". " lines)) 200])
       /\ status resp = 200%nat
       /\ length lines = length locs
       /\ forall i loc,
            locs !! i = Some loc -> weather_api env loc = None ->
            lines !! i = Some (loc +:+ ": Weather data unavailable"))
  /\ (forall given,
        locations req = Some given -> given <> [] ->
        truthy (cached_at s (getCacheKey "summary" (JS.of_strings (JS.sort given))))
        = false ->
        let asked := WeatherRequest <$> JS.sort given in
        (Forall (fun loc => weather_api env loc = None) given ->
         exists resp s',
           generateWeatherSummary env req s = (Return resp, s', asked)
           /\ status resp = 400%nat
           /\ body resp
              = [("error", Text "No weather data available for provided locations")])
        /\ (Exists (fun loc => is_Some (weather_api env loc)) given ->
            exists resp s',
              generateWeatherSummary env req s
              = (Return resp, s',
                 asked
                 ++ [GeminiRequest
                       (summaryPrompt (summaryContext env (JS.sort given))) 300])
              /\ status resp = 200%nat)).
Proof.
  intros Hwell. split.
  - intros q Hq Htruthy Hmiss locs.
    destruct (chat_lines env locs) as (lines & Hlines & Hlen & Hfailed).
    { intros loc d _. apply Hwell. }
    exists lines. rewrite handleWeatherChat_run, Hq, Htruthy. simpl negb. cbv iota zeta.
    rewrite Hmiss. fold locs. rewrite Hlines.
    destruct (gemini_api env _ _); eexists _, _; by repeat split.
  - intros given Hgiven Hnonempty Hmiss asked.
    assert (Hsorted : JS.sort given ≡ₚ given) by apply sort_is_permutation.
    destruct (buildSummary_context env (JS.sort given) "" 0) as [k Hbuild].
    { intros loc d _. apply Hwell. }
    change ("" +:+ summaryContext env (JS.sort given))
      with (summaryContext env (JS.sort given)) in Hbuild.
    rewrite generateWeatherSummary_run, Hgiven.
    destruct given as [|loc given]; [done|]. cbv zeta.
    rewrite Hmiss, Hbuild. split.
    + intros Hnone. rewrite summaryContext_empty by by rewrite Hsorted.
      simpl. eexists _, _. by repeat split.
    + intros Hsome. rewrite summaryContext_nonempty.
      * simpl negb. cbv iota. destruct (gemini_api env _ _); eexists _, _; by repeat split.
      * intros loc' d _. apply Hwell.
      * by rewrite Hsorted.
Qed.


Lemma summary_cache_hit env req given s c :
  locations req = Some given -> given <> [] ->
  aiCache s !! getCacheKey "summary" (JS.of_strings (JS.sort given)) = Some c ->
  clock s - timestamp c < CACHE_TTL ->
  data c <> "" ->
  generateWeatherSummary env req s = (Return (json [("summary", Text (data c))]), s, []).
Proof.
  intros Hgiven Hnonempty Hentry Hfresh Htext.
  rewrite generateWeatherSummary_run, Hgiven.
  destruct given as [|loc given]; [done|]. cbv zeta.
  unfold cached_at. rewrite Hentry.
  destruct (Z.ltb_spec (clock s - timestamp c) CACHE_TTL); [|lia].
  simpl. by destruct (data c).
Qed.

(** C8, as the code has it: the summary handler sorts the locations before
    it builds the cache key, so two arrays that are permutations of each
    other have one key; and once a request has obtained a summary from the
    provider, a request with the locations in another order, made less
    than [CACHE_TTL] after the summary was stored, is answered with that
    summary, issues no request and leaves the state as it was, provided the
    summary is not the empty text. *)
Theorem summary_order_independent env req1 req2 l1 l2 :
  locations req1 = Some l1 ->
  locations req2 = Some l2 ->
  l1 ≡ₚ l2 ->
  getCacheKey "summary" (JS.of_strings (JS.sort l1))
  = getCacheKey "summary" (JS.of_strings (JS.sort l2))
  /\ forall s o1 s1 log1 p text,
       generateWeatherSummary env req1 s = (o1, s1, log1) ->
       GeminiRequest p 300 ∈ log1 ->
       gemini_api env p 300 = Some text ->
       text <> "" ->
       forall t,
         t - clock s1 < CACHE_TTL ->
         generateWeatherSummary env req2 (at_time t s1)
         = (Return (json [("summary", Text text)]), at_time t s1, []).
Proof.
  intros Hl1 Hl2 Hperm.
  assert (Hsort : JS.sort l1 = JS.sort l2) by by apply sort_permutation.
  split; [by rewrite Hsort|].
  intros s o1 s1 log1 p text Hrun Hasked Hanswer Htext t Ht.
  rewrite generateWeatherSummary_run, Hl1 in Hrun.
  destruct l1 as [|loc l1];
    [injection Hrun as <- <- <-; by apply elem_of_nil in Hasked|].
  cbv zeta in Hrun.
  destruct (truthy _);
    [injection Hrun as <- <- <-; by apply elem_of_nil in Hasked|].
  destruct (buildSummary _ _ _) as [[ws k]|e];
    [|injection Hrun as <- <- <-; by apply gemini_not_asked_weather in Hasked].
  destruct (negb (JS.truthy ws));
    [injection Hrun as <- <- <-; by apply gemini_not_asked_weather in Hasked|].
  destruct (gemini_api env (summaryPrompt _) _) as [text'|] eqn:Hanswer';
    injection Hrun as <- Hs1 <-;
    destruct (gemini_asked_last _ _ _ _ _ Hasked) as [-> _]; [|congruence].
  assert (text' = text) as -> by congruence.
  apply (summary_cache_hit env req2 l2 (at_time t s1)
           {| data := text; timestamp := clock s1 |}); try done.
  - intros ->. by apply Permutation_nil_r in Hperm.
  - rewrite <- Hsort, <- Hs1. simpl. apply lookup_insert_eq.
Qed.

End GeminiFacts.

(** C3: the trivia served from the cache comes without the weather.  A
    first request for Paris is answered by the provider with the trivia
    and the weather document; the same request one second later is
    answered 200 from the cache, with the trivia alone. *)
Theorem trivia_from_cache_lacks_weather :
  exists resp1 s1 log1 resp2,
    GeminiAIController.generateWeatherTrivia Examples.env_up
      (Examples.trivia "Paris") Examples.s0
    = (Eff.Return resp1, s1, log1)
    /\ GeminiAIController.status resp1 = 200%nat
    /\ GeminiAIController.member "trivia" resp1
       = Some (GeminiAIController.Text "Mild in Paris, wintry in Oslo.")
    /\ GeminiAIController.member "weather" resp1
       = Some (GeminiAIController.WeatherObject
                 (Examples.document (43 # 2)%Q "clear sky"))
    /\ GeminiAIController.generateWeatherTrivia Examples.env_up
         (Examples.trivia "Paris")
         (GeminiAIController.at_time (GeminiAIController.clock s1 + 1000) s1)
       = (Eff.Return resp2,
          GeminiAIController.at_time (GeminiAIController.clock s1 + 1000) s1, [])
    /\ GeminiAIController.status resp2 = 200%nat
    /\ GeminiAIController.member "trivia" resp2
       = Some (GeminiAIController.Text "Mild in Paris, wintry in Oslo.")
    /\ GeminiAIController.member "weather" resp2 = None.
Proof.
  eexists _, _, _, _.
  split; [vm_compute; reflexivity|].
  repeat split; vm_compute; reflexivity.
Qed.

(** The summary handler with a single location that the weather provider
    does not know: the request ends with 400 after the weather request;
    there is no placeholder and no call of the generative provider. *)
Lemma summary_aborts_when_every_lookup_fails :
  exists s1,
    GeminiAIController.generateWeatherSummary Examples.env_up
      (Examples.summary ["Atlantis"]) Examples.s0
    = (Eff.Return
         {| GeminiAIController.status := 400;
            GeminiAIController.body :=
              [("error",
                GeminiAIController.Text
                  "No weather data available for provided locations")] |},
       s1, [GeminiAIController.WeatherRequest "Atlantis"]).
Proof. eexists. vm_compute. reflexivity. Qed.

(** The provider answers the first summary request with the empty text,
    which is stored; the request with the locations in the other order, one
    second later, asks the weather provider and the generative provider
    again. *)
Lemma empty_summary_is_not_served_from_cache :
  exists s1 log1 resp2 s2 prompt,
    GeminiAIController.generateWeatherSummary Examples.env_mute
      (Examples.summary ["Paris"; "Oslo"]) Examples.s0
    = (Eff.Return (GeminiAIController.json [("summary", GeminiAIController.Text "")]),
       s1, log1)
    /\ GeminiAIController.aiCache s1
       !! GeminiAIController.getCacheKey "summary" (JS.of_strings ["Oslo"; "Paris"])
       = Some {| GeminiAIController.data := "";
                 GeminiAIController.timestamp := GeminiAIController.clock s1 |}
    /\ GeminiAIController.generateWeatherSummary Examples.env_mute
         (Examples.summary ["Oslo"; "Paris"])
         (GeminiAIController.at_time (GeminiAIController.clock s1 + 1000) s1)
       = (Eff.Return resp2, s2,
          [GeminiAIController.WeatherRequest "Oslo";
           GeminiAIController.WeatherRequest "Paris";
           GeminiAIController.GeminiRequest prompt 300]).
Proof.
  eexists _, _, _, _, _.
  split; [vm_compute; reflexivity|].
  split; vm_compute; reflexivity.
Qed.

Lemma weather_of_described loc d :
  Examples.weather_of loc = Some d -> GeminiAIController.weather d <> [].
Proof.
  unfold Examples.weather_of.
  destruct (String.eqb loc "Paris"); [by intros [= <-]|].
  destruct (String.eqb loc "Oslo"); [by intros [= <-]|done].
Qed.

Ltac find_request :=
  repeat first [apply list_elem_of_here | apply list_elem_of_further].

(** The four handlers run with the generative provider down; the
    summary is asked for four locations, three of which are known. *)
Lemma provider_failure_falls_back_witness :
  (exists resp s' log,
     GeminiAIController.handleWeatherChat Examples.env_down
       (Examples.chat "Will it rain?" ["Paris"; "Atlantis"]) Examples.s0
     = (Eff.Return resp, s', log)
     /\ GeminiAIController.status resp = 200%nat
     /\ GeminiAIController.body resp
        = [("response",
            GeminiAIController.Text
              "I can help with weather questions! You're currently tracking 2 locations. Check your weather widgets for current conditions.")])
  /\ (exists resp s' log,
        GeminiAIController.generateWeatherSummary Examples.env_down
          (Examples.summary ["Paris"; "Atlantis"; "Oslo"; "Paris"]) Examples.s0
        = (Eff.Return resp, s', log)
        /\ GeminiAIController.status resp = 200%nat
        /\ GeminiAIController.body resp
           = [("summary",
               GeminiAIController.Text
                 "Weather Summary: Average temperature across 3 locations is 15.4°C. Oslo: 3.1°C, light snow. Paris: 21.5°C, clear sky. Paris: 21.5°C, clear sky. ")])
  /\ (exists resp s' log,
        GeminiAIController.getLocationSuggestions Examples.env_down
          (Examples.suggestions "hiking") Examples.s0
        = (Eff.Return resp, s', log)
        /\ GeminiAIController.status resp = 200%nat
        /\ GeminiAIController.body resp
           = [("suggestions",
               GeminiAIController.Text
                 "Based on your interests in hiking, here are 5 recommended locations:

1. Barcelona, Spain - Great climate for outdoor activities
2. Vancouver, Canada - Perfect for nature lovers  
3. Sydney, Australia - Ideal for beach and city experiences
4. Tokyo, Japan - Fascinating weather patterns and seasons
5. Reykjavik, Iceland - Unique Arctic weather phenomena")])
  /\ (exists resp s' log,
        GeminiAIController.generateWeatherTrivia Examples.env_down
          (Examples.trivia "Oslo") Examples.s0
        = (Eff.Return resp, s', log)
        /\ GeminiAIController.status resp = 200%nat
        /\ GeminiAIController.body resp
           = [("trivia",
               GeminiAIController.Text
                 "Oslo is currently experiencing light snow at 3.1°C. Did you know that weather patterns can vary significantly even within the same city due to local geography and urban heat effects?");
              ("weather",
               GeminiAIController.WeatherObject
                 (Examples.document (31 # 10)%Q "light snow"))]).
Proof.
  repeat split.
  - destruct (GeminiAIController.handleWeatherChat _ _ _) as [[o s'] log] eqn:Hrun.
    assert (Hasked : exists p n, GeminiAIController.GeminiRequest p n ∈ log).
    { vm_compute in Hrun. injection Hrun as _ _ <-. eexists _, _. find_request. }
    destruct Hasked as (p & n & Hasked).
    destruct (provider_failure_falls_back Examples.env_down
                (Examples.chat "Will it rain?" ["Paris"; "Atlantis"]) Examples.s0 o s' log p n Hasked eq_refl)
      as (Hchat & _).
    destruct (Hchat Hrun) as (resp & -> & Hstatus & Hbody).
    exists resp, s', log. split; [reflexivity|]. split; [exact Hstatus|].
    rewrite Hbody. vm_compute. reflexivity.
  - destruct (GeminiAIController.generateWeatherSummary _ _ _) as [[o s'] log] eqn:Hrun.
    assert (Hasked : exists p n, GeminiAIController.GeminiRequest p n ∈ log).
    { vm_compute in Hrun. injection Hrun as _ _ <-. eexists _, _. find_request. }
    destruct Hasked as (p & n & Hasked).
    destruct (provider_failure_falls_back Examples.env_down
                (Examples.summary ["Paris"; "Atlantis"; "Oslo"; "Paris"]) Examples.s0
                o s' log p n Hasked eq_refl)
      as (_ & Hsummary & _).
    destruct (Hsummary Hrun)
      as (resp & given & context & -> & Hstatus & [= <-] & _ & -> & Hbody & _).
    exists resp, s', log. split; [reflexivity|]. split; [exact Hstatus|].
    rewrite Hbody. vm_compute. reflexivity.
  - destruct (GeminiAIController.getLocationSuggestions _ _ _) as [[o s'] log] eqn:Hrun.
    assert (Hasked : exists p n, GeminiAIController.GeminiRequest p n ∈ log).
    { vm_compute in Hrun. injection Hrun as _ _ <-. eexists _, _. find_request. }
    destruct Hasked as (p & n & Hasked).
    destruct (provider_failure_falls_back Examples.env_down
                (Examples.suggestions "hiking") Examples.s0 o s' log p n Hasked eq_refl)
      as (_ & _ & Hsuggestions & _).
    destruct (Hsuggestions Hrun) as (resp & i & -> & Hstatus & [= <-] & Hbody).
    exists resp, s', log. split; [reflexivity|]. split; [exact Hstatus|].
    rewrite Hbody. reflexivity.
  - destruct (GeminiAIController.generateWeatherTrivia _ _ _) as [[o s'] log] eqn:Hrun.
    assert (Hasked : exists p n, GeminiAIController.GeminiRequest p n ∈ log).
    { vm_compute in Hrun. injection Hrun as _ _ <-. eexists _, _. find_request. }
    destruct Hasked as (p & n & Hasked).
    destruct (provider_failure_falls_back Examples.env_down
                (Examples.trivia "Oslo") Examples.s0 o s' log p n Hasked eq_refl)
      as (_ & _ & _ & Htrivia).
    destruct (Htrivia Hrun)
      as (resp & loc & d & desc & -> & Hstatus & [= <-] & [= <-] & [= <-] & Hbody).
    exists resp, s', log. split; [reflexivity|]. split; [exact Hstatus|].
    rewrite Hbody. vm_compute. reflexivity.
Defined.

(** A chat about Paris and an unknown place; a summary of an unknown
    place alone, and of an unknown place and Oslo. *)
Lemma failed_lookups_in_context_witness :
  (exists lines resp s',
     GeminiAIController.handleWeatherChat Examples.env_up
       (Examples.chat "Will it rain?" ["Paris"; "Atlantis"]) Examples.s0
     = (Eff.Return resp, s',
        [GeminiAIController.WeatherRequest "Paris";
         GeminiAIController.WeatherRequest "Atlantis";
         GeminiAIController.GeminiRequest
           (GeminiAIController.chatPrompt "Will it rain?" (JS.join ". " lines)) 200])
     /\ lines !! 1%nat = Some "Atlantis: Weather data unavailable")
  /\ (exists resp s',
        GeminiAIController.generateWeatherSummary Examples.env_up
          (Examples.summary ["Atlantis"]) Examples.s0
        = (Eff.Return resp, s', [GeminiAIController.WeatherRequest "Atlantis"])
        /\ GeminiAIController.status resp = 400%nat)
  /\ (exists resp s',
        GeminiAIController.generateWeatherSummary Examples.env_up
          (Examples.summary ["Oslo"; "Atlantis"]) Examples.s0
        = (Eff.Return resp, s',
           [GeminiAIController.WeatherRequest "Atlantis";
            GeminiAIController.WeatherRequest "Oslo";
            GeminiAIController.GeminiRequest
              (GeminiAIController.summaryPrompt "Oslo: 3.1°C, light snow. ") 300])
        /\ GeminiAIController.status resp = 200%nat).
Proof.
  split; [|split].
  - destruct (failed_lookups_in_context Examples.env_up
                (Examples.chat "Will it rain?" ["Paris"; "Atlantis"]) Examples.s0
                weather_of_described) as (Hchat & _).
    destruct (Hchat "Will it rain?" eq_refl eq_refl eq_refl)
      as (lines & resp & s' & Hrun & _ & _ & Hfailed).
    exists lines, resp, s'. split; [exact Hrun|].
    exact (Hfailed 1%nat "Atlantis" eq_refl eq_refl).
  - destruct (failed_lookups_in_context Examples.env_up
                (Examples.summary ["Atlantis"]) Examples.s0
                weather_of_described) as (_ & Hsummary).
    destruct (Hsummary ["Atlantis"] eq_refl ltac:(discriminate) eq_refl) as (Hnone & _).
    destruct Hnone as (resp & s' & Hrun & Hstatus & _).
    { by repeat constructor. }
    exists resp, s'. by split.
  - destruct (failed_lookups_in_context Examples.env_up
                (Examples.summary ["Oslo"; "Atlantis"]) Examples.s0
                weather_of_described) as (_ & Hsummary).
    destruct (Hsummary ["Oslo"; "Atlantis"] eq_refl ltac:(discriminate) eq_refl)
      as (_ & Hsome).
    destruct Hsome as (resp & s' & Hrun & Hstatus).
    { left. by eexists. }
    exists resp, s'. by split.
Defined.

(** A summary of Paris and Oslo, then of Oslo and Paris one second
    later. *)
Lemma summary_order_independent_witness :
  GeminiAIController.getCacheKey "summary" (JS.of_strings (JS.sort ["Paris"; "Oslo"]))
  = GeminiAIController.getCacheKey "summary" (JS.of_strings (JS.sort ["Oslo"; "Paris"]))
  /\ exists s1 log1,
       GeminiAIController.generateWeatherSummary Examples.env_up
         (Examples.summary ["Paris"; "Oslo"]) Examples.s0
       = (Eff.Return (GeminiAIController.json
                        [("summary",
                          GeminiAIController.Text "Mild in Paris, wintry in Oslo.")]),
          s1, log1)
       /\ GeminiAIController.generateWeatherSummary Examples.env_up
            (Examples.summary ["Oslo"; "Paris"])
            (GeminiAIController.at_time (GeminiAIController.clock s1 + 1000) s1)
          = (Eff.Return (GeminiAIController.json
                           [("summary",
                             GeminiAIController.Text "Mild in Paris, wintry in Oslo.")]),
             GeminiAIController.at_time (GeminiAIController.clock s1 + 1000) s1, []).
Proof.
  destruct (summary_order_independent Examples.env_up
              (Examples.summary ["Paris"; "Oslo"]) (Examples.summary ["Oslo"; "Paris"])
              ["Paris"; "Oslo"] ["Oslo"; "Paris"] eq_refl eq_refl (perm_swap _ _ _))
    as (Hkey & Hhit).
  split; [exact Hkey|].
  destruct (GeminiAIController.generateWeatherSummary Examples.env_up
              (Examples.summary ["Paris"; "Oslo"]) Examples.s0)
    as [[o1 s1] log1] eqn:Hrun.
  assert (Hasked : exists p, GeminiAIController.GeminiRequest p 300 ∈ log1
                             /\ o1 = Eff.Return (GeminiAIController.json
                                  [("summary",
                                    GeminiAIController.Text
                                      "Mild in Paris, wintry in Oslo.")])).
  { vm_compute in Hrun. injection Hrun as <- _ <-. eexists. split; [find_request|done]. }
  destruct Hasked as (p & Hasked & ->).
  exists s1, log1. split; [reflexivity|].
  apply (Hhit _ _ _ _ p _ Hrun Hasked eq_refl); [discriminate|].
  unfold GeminiAIController.CACHE_TTL. lia.
Defined.

(** ** The widget controller *)

Lemma append_cons (c : ascii) (a b : string) : String c a +:+ b = String c (a +:+ b).
Proof. reflexivity. Qed.

Lemma trimStart_eq (s : string) :
  JS.trimStart s
  = match JS.skip_white s with Some r => JS.trimStart r | None => s end.
Proof.
  destruct s as [|a [|b [|c r]]]; cbn [JS.trimStart JS.skip_white]; [done| | |].
  - by destruct (JS.is_white a).
  - destruct (JS.is_white a); [done|]. by destruct (JS.is_white2 a b).
  - destruct (JS.is_white a); [done|]. destruct (JS.is_white2 a b); [done|].
    by destruct (JS.is_white3 a b c).
Qed.

Lemma skip_white_shorter (s r : string) :
  JS.skip_white s = Some r -> (String.length r < String.length s)%nat.
Proof.
  destruct s as [|a [|b [|c s]]]; cbn [JS.skip_white]; [done| | |].
  - destruct (JS.is_white a); [|done]. intros [= <-]. simpl. lia.
  - destruct (JS.is_white a); [intros [= <-]; simpl; lia|].
    destruct (JS.is_white2 a b); [|done]. intros [= <-]. simpl. lia.
  - destruct (JS.is_white a); [intros [= <-]; simpl; lia|].
    destruct (JS.is_white2 a b); [intros [= <-]; simpl; lia|].
    destruct (JS.is_white3 a b c); [|done]. intros [= <-]. simpl. lia.
Qed.

Lemma skip_white_app (a b r : string) :
  JS.skip_white a = Some r -> JS.skip_white (a +:+ b) = Some (r +:+ b).
Proof.
  destruct a as [|x [|y [|z a]]]; rewrite ?append_cons; cbn [JS.skip_white]; [done| | |].
  - destruct (JS.is_white x); [|done]. by intros [= <-].
  - destruct (JS.is_white x); [by intros [= <-]|].
    destruct (JS.is_white2 x y); [|done]. by intros [= <-].
  - destruct (JS.is_white x); [by intros [= <-]|].
    destruct (JS.is_white2 x y); [by intros [= <-]|].
    destruct (JS.is_white3 x y z); [|done]. by intros [= <-].
Qed.

(** What [trimStart] returns does not start with white space. *)
Lemma trimStart_skip (s : string) : JS.skip_white (JS.trimStart s) = None.
Proof.
  remember (String.length s) as n eqn:Hn. revert s Hn.
  induction n as [n IH] using lt_wf_ind. intros s ->.
  rewrite trimStart_eq. destruct (JS.skip_white s) as [r|] eqn:Hs; [|done].
  by eapply IH; [eapply skip_white_shorter|].
Qed.

Lemma trimStart_fixed (s : string) : JS.skip_white s = None -> JS.trimStart s = s.
Proof. intros Hs. by rewrite trimStart_eq, Hs. Qed.

(** White space before a text is trimmed with it. *)
Lemma blank_app (a b : string) :
  JS.blank a = true -> JS.trimStart (a +:+ b) = JS.trimStart b.
Proof.
  remember (String.length a) as n eqn:Hn. revert a Hn.
  induction n as [n IH] using lt_wf_ind. intros a -> Hblank.
  destruct a as [|x a]; [done|].
  unfold JS.blank in Hblank. rewrite trimStart_eq in Hblank.
  destruct (JS.skip_white (String x a)) as [r|] eqn:Hs; [|done].
  rewrite (trimStart_eq (String x a +:+ b)), (skip_white_app _ b _ Hs).
  eapply IH; [by eapply skip_white_shorter|done|exact Hblank].
Qed.

(** [trimEnd] removes a blank end. *)
Lemma trimEnd_split (s : string) :
  exists w, s = JS.trimEnd s +:+ w /\ JS.blank w = true.
Proof.
  induction s as [|c r (w & Hr & Hw)]; [by exists ""|].
  cbn [JS.trimEnd]. destruct (JS.blank (String c r)) eqn:Hblank.
  - by exists (String c r).
  - exists w. split; [|done]. by rewrite append_cons, <- Hr.
Qed.

Lemma trimEnd_idempotent (s : string) : JS.trimEnd (JS.trimEnd s) = JS.trimEnd s.
Proof.
  induction s as [|c r IH]; [done|].
  cbn [JS.trimEnd]. destruct (JS.blank (String c r)) eqn:Hblank; [done|].
  cbn [JS.trimEnd]. destruct (JS.blank (String c (JS.trimEnd r))) eqn:Hshort.
  - destruct (trimEnd_split r) as (w & Hr & Hw).
    pose proof (blank_app _ w Hshort) as Happ.
    rewrite append_cons, <- Hr in Happ.
    unfold JS.blank in Hblank, Hw. rewrite Happ in Hblank.
    by destruct (JS.trimStart w).
  - by rewrite IH.
Qed.

Lemma trim_idempotent (s : string) : JS.trim (JS.trim s) = JS.trim s.
Proof.
  unfold JS.trim.
  rewrite (trimStart_fixed (JS.trimEnd (JS.trimStart s))); [apply trimEnd_idempotent|].
  destruct (JS.skip_white (JS.trimEnd (JS.trimStart s))) as [r|] eqn:Hs; [|done].
  destruct (trimEnd_split (JS.trimStart s)) as (w & Hsplit & _).
  pose proof (skip_white_app _ w _ Hs) as Happ.
  rewrite <- Hsplit, trimStart_skip in Happ. discriminate.
Qed.






Section WidgetFacts.
Import WidgetController.

Implicit Types (env : Env) (s : State) (w : Widget).

Lemma trim_nonempty (l : string) : JS.trim l <> "" -> JS.truthy l = true.
Proof. destruct l; [done|reflexivity]. Qed.

Lemma length_zero_iff (t : string) : (JS.length t =? 0)%nat = true <-> t = "".
Proof.
  destruct t as [|c r]; [done|]. split; [|discriminate].
  cbn [JS.length]. cbv zeta.
  destruct (nat_of_ascii c <? 192)%nat; [discriminate|].
  destruct (nat_of_ascii c <? 224)%nat; [by destruct r|].
  destruct (nat_of_ascii c <? 240)%nat; [by destruct r as [|? [|? ?]]|].
  by destruct r as [|? [|? [|? ?]]].
Qed.

(** The test of [createWidget] on a location that is not blank. *)
Lemma not_blank (l : string) :
  JS.trim l <> "" -> negb (JS.truthy l) || (JS.length (JS.trim l) =? 0)%nat = false.
Proof.
  intros Hl. rewrite trim_nonempty by done. simpl.
  destruct (JS.length (JS.trim l) =? 0)%nat eqn:Hlen; [|done].
  by apply length_zero_iff in Hlen.
Qed.

Lemma find_exists {A} (f : A -> bool) (l : list A) :
  Exists (fun x => f x = true) l -> exists x, List.find f l = Some x.
Proof.
  induction 1 as [x l Hx|x l _ IH]; simpl.
  - rewrite Hx. by eexists.
  - destruct (f x); [by eexists|exact IH].
Qed.

Lemma find_forall {A} (f : A -> bool) (l : list A) :
  Forall (fun x => f x = false) l -> List.find f l = None.
Proof. induction 1 as [|x l Hx _ IH]; simpl; [done|]. by rewrite Hx. Qed.






(** With "Paris" stored, "p|zz" is refused with 409: the pattern built
    from it is [^p|zz$], whose first alternative accepts every text that
    starts with a "p"; yet neither alternative of "p|zz" matches "Paris"
    in full. *)
Lemma alternative_is_not_a_full_match :
  createWidget Examples.widget_env (JS.Str "p|zz") Examples.widgets0
  = ({| status := 409; body := Error WidgetAlreadyExistsError |}, Examples.widgets0)
  /\ Spec.full_match "p|zz" "Paris" = Some false.
Proof. split; reflexivity. Qed.

(** The run of [createWidget] on a location that the store's pattern
    accepts for a stored widget. *)
Lemma refused_as_duplicate env (l : string) s test :
  JS.trim l <> "" ->
  regex env ("^" +:+ JS.trim l +:+ "$") = Some test ->
  Exists (fun w => test (location w) = true) (widgets s) ->
  createWidget env (JS.Str l) s
  = ({| status := 409; body := Error WidgetAlreadyExistsError |}, s).
Proof.
  intros Hl Hregex Hdup. unfold createWidget, findOne.
  rewrite not_blank by done. cbv zeta. rewrite Hregex.
  by destruct (find_exists (fun w => test (location w)) (widgets s) Hdup) as [w ->].
Qed.

(** C10, as the code has it: the duplicate check is the store's test of
    the pattern built from the trimmed location between [^] and [$], not
    an equality of strings and not a full match: the request is refused
    with 409 exactly when that pattern accepts a stored location, and
    with 500 exactly when the pattern is refused.  In a store that agrees
    with the fragment and holds "Paris": "Pari." is refused with 409
    although the two are not equal, even up to case; and so is "p|zz",
    whose anchors bind one alternative each.  The pattern built from "a+b"
    does not accept "a+b" itself, so that "a+b" is stored a second time. *)
Theorem duplicate_check_is_pattern_match :
  (forall env l s,
     JS.trim l <> "" ->
     (status (fst (createWidget env (JS.Str l) s)) = 409%nat
      <-> exists test,
            regex env ("^" +:+ JS.trim l +:+ "$") = Some test
            /\ Exists (fun w => test (location w) = true) (widgets s))
     /\ (status (fst (createWidget env (JS.Str l) s)) = 500%nat
         <-> regex env ("^" +:+ JS.trim l +:+ "$") = None))
  /\ (forall env s,
        agrees env ->
        Exists (fun w => location w = "Paris") (widgets s) ->
        createWidget env (JS.Str "Pari.") s
        = ({| status := 409; body := Error WidgetAlreadyExistsError |}, s)
        /\ createWidget env (JS.Str "p|zz") s
           = ({| status := 409; body := Error WidgetAlreadyExistsError |}, s))
  /\ JS.fold_ascii "Pari." <> JS.fold_ascii "Paris"
  /\ Spec.full_match "p|zz" "Paris" = Some false
  /\ (forall env,
        agrees env ->
        let stored := {| _id := "000000000000000000000000"; location := "a+b";
                         createdAt := 500; updatedAt := 500 |} in
        exists test w,
          regex env "^a+b$" = Some test
          /\ test "a+b" = false
          /\ test "aab" = true
          /\ createWidget env (JS.Str "a+b") {| clock := 1000; widgets := [stored] |}
             = ({| status := 201; body := Document w |},
                {| clock := 1000; widgets := [stored; w] |})
          /\ location w = "a+b").
Proof.
  split; [|split; [|split; [|split]]].
  - intros env l s Hnonempty.
    unfold createWidget. rewrite not_blank by done. cbv zeta. unfold findOne.
    destruct (regex env _) as [test|]; [|split; [split|]; [done|by intros (? & ? & _)|done]].
    destruct (List.find _ (widgets s)) as [w|] eqn:Hfind.
    + split; [|done]. split; [|done].
      intros _. exists test. split; [done|].
      apply List.find_some in Hfind as [Hin Hw].
      apply Exists_exists. exists w. split; [|done]. by apply list_elem_of_In.
    + split.
      * split; [by destruct (save env (JS.trim l) s) as [[w s1]|]|].
        intros (test' & [= <-] & (w & Hin & Hw)%Exists_exists).
        apply list_elem_of_In in Hin.
        pose proof (List.find_none _ _ Hfind w Hin) as Hno. simpl in Hno. congruence.
      * split; [by destruct (save env (JS.trim l) s) as [[w s1]|]|done].
  - intros env s Hagrees Hparis.
    assert (Hstored : forall test,
               test "Paris" = true ->
               Exists (fun w => test (location w) = true) (widgets s)).
    { intros test Htest. eapply Exists_impl; [exact Hparis|].
      intros w Hw. simpl in Hw. by rewrite Hw. }
    split.
    + pose proof (Hagrees "^Pari.$" eq_refl) as (test & Hregex & Htest).
      apply (refused_as_duplicate env "Pari." s test); [discriminate|exact Hregex|].
      apply Hstored. by rewrite Htest.
    + pose proof (Hagrees "^p|zz$" eq_refl) as (test & Hregex & Htest).
      apply (refused_as_duplicate env "p|zz" s test); [discriminate|exact Hregex|].
      apply Hstored. by rewrite Htest.
  - discriminate.
  - reflexivity.
  - intros env Hagrees stored.
    pose proof (Hagrees "^a+b$" eq_refl) as (test & Hregex & Htest).
    exists test. eexists. split; [exact Hregex|].
    split; [by rewrite Htest|]. split; [by rewrite Htest|].
    unfold createWidget, findOne. cbn [negb orb JS.truthy].
    change (JS.trim "a+b") with "a+b".
    change ("^" +:+ "a+b" +:+ "$") with "^a+b$". rewrite Hregex.
    cbn [widgets List.find location stored]. rewrite Htest by done.
    split; reflexivity.
Qed.

End WidgetFacts.


(** ** Sanity checks of the model on concrete inputs *)

Example regexp_literal : RegExp.compile "^ab$" =
  RegExp.Pattern [[RegExp.AssertStart; RegExp.Piece (RegExp.Lit "a") RegExp.Once;
                   RegExp.Piece (RegExp.Lit "b") RegExp.Once; RegExp.AssertEnd]].
Proof. reflexivity. Qed.

Example decimal_examples :
  JS.toFixed (43 # 2)%Q 1 = "21.5" /\ JS.toFixed (-1 # 4)%Q 1 = "-0.3"
  /\ JS.toString (43 # 2)%Q = "21.5" /\ JS.toString (18 # 1)%Q = "18"
  /\ JS.toFixed (18 # 1)%Q 1 = "18.0".
Proof. vm_compute. repeat split. Qed.

Example normalised_key :
  JS.trim (JS.lower_latin1 "  PaRis ") = "paris"
  /\ JS.trim (JS.lower_latin1 ("ZÜRICH" +:+ MoreExamples.nbsp)) = "zürich".
Proof. split; reflexivity. Qed.

(** White space of one, two and three bytes at both ends; the white
    space inside stays. *)
Example trim_white_space :
  JS.trim (MoreExamples.nbsp +:+ " a　b
" +:+ MoreExamples.nbsp +:+ "　") = "a　b"
  /\ JS.trim ("　" +:+ MoreExamples.nbsp) = ""
  /\ JS.trim "é " = "é".
Proof. repeat split; reflexivity. Qed.

(** Code units: one for a character of up to three bytes, two for a
    character of four. *)
Example length_in_code_units :
  JS.length "Zürich" = 6%nat /\ String.length "Zürich" = 7%nat
  /\ JS.length "é" = 1%nat /\ JS.length "東京" = 2%nat /\ JS.length "😀" = 2%nat.
Proof. repeat split; reflexivity. Qed.

(** Capitals sort before small letters, and a character outside the
    basic plane sorts before U+FF5E, as its surrogates do. *)
Example sorted_by_code_units :
  JS.sort ["oslo"; "Paris"; "berlin"] = ["Paris"; "berlin"; "oslo"]
  /\ JS.sort ["～"; "😀"; "é"] = ["é"; "😀"; "～"].
Proof. split; reflexivity. Qed.

Example stringify_locations :
  JS.stringify (JS.of_strings ["a"; "b"])
  = Some (String.concat ""
            ["["; String JS.quote_char "a"; String JS.quote_char ",";
             String JS.quote_char "b"; String JS.quote_char "]"]).
Proof. reflexivity. Qed.

Example stringify_omits_undefined :
  JS.stringify (JS.Object [("question", JS.Str "q"); ("locations", JS.Undefined)])
  = Some (String.concat ""
            ["{"; String JS.quote_char "question"; String JS.quote_char ":";
             String JS.quote_char "q"; String JS.quote_char "}"]).
Proof. reflexivity. Qed.

Example quantifier_without_atom :
  RegExp.compile "^+a$" = RegExp.SyntaxError
  /\ WidgetController.createWidget Examples.widget_env (JS.Str "+a") Examples.widgets0
     = ({| WidgetController.status := 500;
           WidgetController.body :=
             WidgetController.Error WidgetController.FailedToCreateWidgetError |},
        Examples.widgets0).
Proof. split; reflexivity. Qed.

Example group_is_outside_the_fragment :
  RegExp.compile "^St. (Gallen)$" = RegExp.Unsupported.
Proof. reflexivity. Qed.

Example escaped_dollar :
  exists re, RegExp.compile "^ab\$" = RegExp.Pattern re
             /\ RegExp.test re "ab$" = true /\ RegExp.test re "ab" = false
             /\ RegExp.test re "ab$cd" = true.
Proof. eexists. by repeat split. Qed.

(* ================================================================== *)
(** * Further properties *)

(** ** The TTL cache: round trips, frames and statistics *)

Section CacheMore.

Context {T : Type}.
Implicit Types (this : CacheService.t T) (k : string) (now later : Z).

Lemma with_cache_same this : CacheService.with_cache this (CacheService.cache this) = this.
Proof. by destruct this. Qed.

Lemma cache_eq this (c1 c2 : gmap string (CacheService.CachedItem T)) :
  (forall k, c1 !! k = c2 !! k) ->
  CacheService.with_cache this c1 = CacheService.with_cache this c2.
Proof. intros Heq. f_equal. by apply map_eq. Qed.

(** X1: a value stored at time [now] is returned by [get] as long as its
    age does not exceed the configured duration, and the cache is left as
    [set] made it; once the age exceeds the duration [get] returns absent
    and the entry is gone.  A second [set] on the key replaces the value
    and restarts the age. *)
Theorem set_then_get this k (v : T) now later :
  (later - now <= CacheService.cacheDuration this ->
   CacheService.get later k (CacheService.set now k v this)
   = (Some v, CacheService.set now k v this))
  /\ (CacheService.cacheDuration this < later - now ->
      fst (CacheService.get later k (CacheService.set now k v this)) = None
      /\ CacheService.cache
           (snd (CacheService.get later k (CacheService.set now k v this))) !! k
         = None)
  /\ (forall (v' : T) now',
        CacheService.set now' k v' (CacheService.set now k v this)
        = CacheService.set now' k v' this).
Proof.
  split; [|split].
  - intros Hfresh. unfold CacheService.get, CacheService.set, CacheService.isExpired.
    simpl. rewrite lookup_insert_eq. simpl.
    by destruct (Z.ltb_spec (CacheService.cacheDuration this) (later - now)); [lia|].
  - intros Hold. unfold CacheService.get, CacheService.set, CacheService.isExpired.
    simpl. rewrite lookup_insert_eq. simpl.
    destruct (Z.ltb_spec (CacheService.cacheDuration this) (later - now)); [|lia].
    simpl. split; [done|]. apply lookup_delete_eq.
  - intros v' now'. unfold CacheService.set, CacheService.with_cache. simpl.
    f_equal. apply insert_insert_eq.
Qed.

(** X2: [set] on one key and [get] on another do not interfere: the
    answer of [get] is the one it gives without the [set], and the two
    operations leave the same cache in either order. *)
Theorem set_get_other_key this k k' (v : T) now later :
  k <> k' ->
  fst (CacheService.get later k' (CacheService.set now k v this))
  = fst (CacheService.get later k' this)
  /\ snd (CacheService.get later k' (CacheService.set now k v this))
     = CacheService.set now k v (snd (CacheService.get later k' this)).
Proof.
  intros Hne. unfold CacheService.get, CacheService.set, CacheService.isExpired.
  simpl. rewrite lookup_insert_ne by done.
  destruct (CacheService.cache this !! k') as [item|]; [|done].
  destruct (CacheService.cacheDuration this <? later - CacheService.timestamp item);
    [|done].
  simpl. split; [done|]. unfold CacheService.with_cache; simpl. f_equal.
  by apply delete_insert_ne.
Qed.

(** X3: [delete] reports whether the key had an entry, expired or not;
    afterwards the key has none, and the entries of the other keys are as
    before. *)
Theorem delete_reports_and_removes this k :
  (fst (CacheService.delete k this) = true <-> is_Some (CacheService.cache this !! k))
  /\ CacheService.cache (snd (CacheService.delete k this)) !! k = None
  /\ (forall k', k' <> k ->
        CacheService.cache (snd (CacheService.delete k this)) !! k'
        = CacheService.cache this !! k')
  /\ forall now, CacheService.get now k (snd (CacheService.delete k this))
                 = (None, snd (CacheService.delete k this)).
Proof.
  unfold CacheService.delete.
  destruct (CacheService.cache this !! k) as [item|] eqn:Hk; simpl.
  - split; [by split; eauto|]. split; [apply lookup_delete_eq|].
    split; [intros k' Hne; by apply lookup_delete_ne|].
    intros now. unfold CacheService.get. simpl. by rewrite lookup_delete_eq.
  - split; [split; [done|by intros [? ?]]|]. split; [done|]. split; [done|].
    intros now. unfold CacheService.get. by rewrite Hk.
Qed.

(** X4: [has] applies the test of [get]: it answers true exactly when
    [get] returns a value, and evicts exactly what [get] evicts. *)
Theorem has_agrees_with_get this k now :
  (fst (CacheService.has now k this) = true
   <-> is_Some (fst (CacheService.get now k this)))
  /\ snd (CacheService.has now k this) = snd (CacheService.get now k this).
Proof.
  unfold CacheService.has, CacheService.get.
  destruct (CacheService.cache this !! k) as [item|]; simpl.
  - destruct (CacheService.isExpired now this item); simpl.
    + split; [split; [done|by intros [? ?]]|done].
    + split; [by split; eauto|done].
  - split; [split; [done|by intros [? ?]]|done].
Qed.

Lemma stats_fold now this (m : gmap string (CacheService.CachedItem T)) :
  map_fold
    (fun _ item (acc : nat * nat) =>
       if CacheService.isExpired now this item then (S (fst acc), snd acc)
       else (fst acc, S (snd acc)))
    (0%nat, 0%nat) m
  = (size (filter (fun kv => CacheService.isExpired now this (snd kv) = true) m),
     size (filter (fun kv => CacheService.isExpired now this (snd kv) = false) m)).
Proof.
  apply (map_fold_weak_ind
           (fun r (m : gmap string (CacheService.CachedItem T)) =>
              r = (size (filter (fun kv => CacheService.isExpired now this (snd kv) = true) m),
                   size (filter (fun kv => CacheService.isExpired now this (snd kv) = false) m)))).
  - by rewrite !map_filter_empty, map_size_empty.
  - intros i x m' r Hi ->. simpl.
    destruct (CacheService.isExpired now this x) eqn:Hx.
    + rewrite map_filter_insert_True by done.
      rewrite map_filter_insert_False by (simpl; congruence).
      rewrite delete_id by done.
      rewrite map_size_insert_None; [done|].
      rewrite map_lookup_filter, Hi. done.
    + rewrite map_filter_insert_False by (simpl; congruence).
      rewrite map_filter_insert_True by done.
      rewrite delete_id by done.
      rewrite map_size_insert_None; [done|].
      rewrite map_lookup_filter, Hi. done.
Qed.

Lemma swept_is_filter now this :
  CacheService.cache (CacheService.clearExpired now this)
  = filter (fun kv => CacheService.isExpired now this (snd kv) = false)
      (CacheService.cache this).
Proof.
  apply map_eq. intros k. rewrite clearExpired_lookup, map_lookup_filter.
  destruct (CacheService.cache this !! k) as [item|]; simpl; [|done].
  destruct (CacheService.isExpired now this item) eqn:Hx.
  - rewrite option_guard_False by (simpl; congruence). done.
  - rewrite option_guard_True by done. done.
Qed.

Lemma stats_split now this (m : gmap string (CacheService.CachedItem T)) :
  (size (filter (fun kv => CacheService.isExpired now this (snd kv) = false) m)
   + size (filter (fun kv => CacheService.isExpired now this (snd kv) = true) m)
   = size m)%nat.
Proof.
  set (old := fun kv : string * CacheService.CachedItem T =>
                CacheService.isExpired now this (snd kv) = true).
  set (fresh := fun kv : string * CacheService.CachedItem T =>
                  CacheService.isExpired now this (snd kv) = false).
  induction m as [|i x m Hi IH] using map_ind.
  - by rewrite !map_filter_empty, map_size_empty.
  - rewrite map_size_insert_None by done. rewrite <- IH.
    destruct (CacheService.isExpired now this x) eqn:Hx.
    + rewrite (map_filter_insert_False fresh) by (unfold fresh; simpl; congruence).
      rewrite (map_filter_insert_True old) by done.
      rewrite delete_id by done.
      rewrite map_size_insert_None; [lia|]. by rewrite map_lookup_filter, Hi.
    + rewrite (map_filter_insert_True fresh) by done.
      rewrite (map_filter_insert_False old) by (unfold old; simpl; congruence).
      rewrite delete_id by done.
      rewrite map_size_insert_None; [lia|]. by rewrite map_lookup_filter, Hi.
Qed.

(** The statistics of a cache that was swept at the same time. *)
Lemma getStats_swept this now :
  CacheService.getStats now (CacheService.clearExpired now this)
  = {| CacheService.totalItems :=
         CacheService.validItems (CacheService.getStats now this);
       CacheService.validItems :=
         CacheService.validItems (CacheService.getStats now this);
       CacheService.expiredItems := 0;
       CacheService.cacheDurationMs := CacheService.cacheDuration this |}.
Proof.
  set (old := fun kv : string * CacheService.CachedItem T =>
                CacheService.isExpired now this (snd kv) = true).
  set (fresh := fun kv : string * CacheService.CachedItem T =>
                  CacheService.isExpired now this (snd kv) = false).
  assert (Hidem : filter fresh (filter fresh (CacheService.cache this))
                  = filter fresh (CacheService.cache this)).
  { apply map_eq. intros k. rewrite !map_lookup_filter.
    destruct (CacheService.cache this !! k) as [item|]; simpl; [|done].
    destruct (decide (fresh (k, item))) as [Hf|Hf].
    - rewrite option_guard_True by done. simpl. by rewrite option_guard_True.
    - by rewrite option_guard_False. }
  pose proof (stats_split now this (filter fresh (CacheService.cache this))) as Hsum.
  fold fresh old in Hsum.
  pose proof (f_equal size Hidem) as Hvalid.
  assert (Hnone : size (filter old (filter fresh (CacheService.cache this))) = 0%nat)
    by lia.
  unfold CacheService.getStats. rewrite !stats_fold, !swept_is_filter.
  cbn [fst snd CacheService.validItems].
  change (fun kv : string * CacheService.CachedItem T =>
            CacheService.isExpired now (CacheService.clearExpired now this) (snd kv)
            = false) with fresh.
  change (fun kv : string * CacheService.CachedItem T =>
            CacheService.isExpired now (CacheService.clearExpired now this) (snd kv)
            = true) with old.
  change (fun kv : string * CacheService.CachedItem T =>
            CacheService.isExpired now this (snd kv) = false) with fresh.
  f_equal; [exact Hvalid|exact Hnone].
Qed.

(** [get] on a cache that was swept at the same time. *)
Lemma get_swept this now k :
  CacheService.get now k (CacheService.clearExpired now this)
  = (fst (CacheService.get now k this), CacheService.clearExpired now this).
Proof.
  unfold CacheService.get. rewrite clearExpired_lookup.
  destruct (CacheService.cache this !! k) as [item|]; [|done].
  destruct (CacheService.isExpired now this item) eqn:Hx; [done|].
  change (CacheService.isExpired now (CacheService.clearExpired now this) item)
    with (CacheService.isExpired now this item). by rewrite Hx.
Qed.

Lemma expired_by_age now this (m : gmap string (CacheService.CachedItem T)) :
  filter (fun kv => CacheService.isExpired now this (snd kv) = true) m
  = filter (fun kv => CacheService.cacheDuration this
                      < now - CacheService.timestamp (snd kv)) m.
Proof.
  apply map_filter_ext. intros k item _. unfold CacheService.isExpired. simpl.
  apply Z.ltb_lt.
Qed.

Lemma valid_by_age now this (m : gmap string (CacheService.CachedItem T)) :
  filter (fun kv => CacheService.isExpired now this (snd kv) = false) m
  = filter (fun kv => now - CacheService.timestamp (snd kv)
                      <= CacheService.cacheDuration this) m.
Proof.
  apply map_filter_ext. intros k item _. unfold CacheService.isExpired. simpl.
  rewrite Z.ltb_ge. done.
Qed.

(** The statistics in terms of the ages of the entries. *)
Lemma getStats_by_age this now :
  CacheService.getStats now this
  = {| CacheService.totalItems := size (CacheService.cache this);
       CacheService.validItems :=
         size (filter (fun kv => now - CacheService.timestamp (snd kv)
                                 <= CacheService.cacheDuration this)
                 (CacheService.cache this));
       CacheService.expiredItems :=
         size (filter (fun kv => CacheService.cacheDuration this
                                 < now - CacheService.timestamp (snd kv))
                 (CacheService.cache this));
       CacheService.cacheDurationMs := CacheService.cacheDuration this |}.
Proof.
  unfold CacheService.getStats. cbv zeta. rewrite stats_fold. cbn [fst snd].
  by rewrite expired_by_age, valid_by_age.
Qed.

Lemma getStats_swept_by_age this now :
  CacheService.getStats now (CacheService.clearExpired now this)
  = {| CacheService.totalItems :=
         size (filter (fun kv => now - CacheService.timestamp (snd kv)
                                 <= CacheService.cacheDuration this)
                 (CacheService.cache this));
       CacheService.validItems :=
         size (filter (fun kv => now - CacheService.timestamp (snd kv)
                                 <= CacheService.cacheDuration this)
                 (CacheService.cache this));
       CacheService.expiredItems := 0;
       CacheService.cacheDurationMs := CacheService.cacheDuration this |}.
Proof. rewrite getStats_swept, getStats_by_age. reflexivity. Qed.

(** X5: the statistics count the entries by their age: [validItems] is
    the number of entries whose age does not exceed the configured
    duration, [expiredItems] the number of entries whose age does, and
    [totalItems] the number of entries, which is their sum.  After a
    sweep at the same time the statistics count no expired entry, and
    their total is the number of entries that were valid. *)
Theorem getStats_counts this now :
  CacheService.getStats now this
  = {| CacheService.totalItems := size (CacheService.cache this);
       CacheService.validItems :=
         size (filter (fun kv => now - CacheService.timestamp (snd kv)
                                 <= CacheService.cacheDuration this)
                 (CacheService.cache this));
       CacheService.expiredItems :=
         size (filter (fun kv => CacheService.cacheDuration this
                                 < now - CacheService.timestamp (snd kv))
                 (CacheService.cache this));
       CacheService.cacheDurationMs := CacheService.cacheDuration this |}
  /\ (CacheService.validItems (CacheService.getStats now this)
      + CacheService.expiredItems (CacheService.getStats now this)
      = size (CacheService.cache this))%nat
  /\ CacheService.getStats now (CacheService.clearExpired now this)
     = {| CacheService.totalItems :=
            size (filter (fun kv => now - CacheService.timestamp (snd kv)
                                    <= CacheService.cacheDuration this)
                    (CacheService.cache this));
          CacheService.validItems :=
            size (filter (fun kv => now - CacheService.timestamp (snd kv)
                                    <= CacheService.cacheDuration this)
                    (CacheService.cache this));
          CacheService.expiredItems := 0;
          CacheService.cacheDurationMs := CacheService.cacheDuration this |}.
Proof.
  split; [apply getStats_by_age|]. split.
  - unfold CacheService.getStats. simpl. rewrite stats_fold. simpl.
    apply stats_split.
  - apply getStats_swept_by_age.
Qed.

(** X6: a sweep is not observable through [get]: the answer for every
    key is the same with or without the sweep.  Sweeping twice at one
    time is sweeping once, and a sweep followed by a later sweep is the
    later sweep alone. *)
Theorem sweep_unobservable this now :
  (forall k, fst (CacheService.get now k (CacheService.clearExpired now this))
             = fst (CacheService.get now k this))
  /\ (forall k, snd (CacheService.get now k (CacheService.clearExpired now this))
                = CacheService.clearExpired now this)
  /\ (forall later, now <= later ->
        CacheService.clearExpired later (CacheService.clearExpired now this)
        = CacheService.clearExpired later this).
Proof.
  split; [|split].
  - intros k. by rewrite get_swept.
  - intros k. by rewrite get_swept.
  - intros later Hlater.
    transitivity (CacheService.with_cache this
                    (CacheService.cache
                       (CacheService.clearExpired later
                          (CacheService.clearExpired now this)))); [done|].
    transitivity (CacheService.with_cache this
                    (CacheService.cache (CacheService.clearExpired later this)));
      [|done].
    apply cache_eq. intros k. rewrite !clearExpired_lookup.
    destruct (CacheService.cache this !! k) as [item|]; [|done].
    unfold CacheService.isExpired. simpl.
    destruct (Z.ltb_spec (CacheService.cacheDuration this)
                (now - CacheService.timestamp item));
      destruct (Z.ltb_spec (CacheService.cacheDuration this)
                  (later - CacheService.timestamp item)); try done; lia.
Qed.

End CacheMore.

(** Two keys of a cache of numbers. *)
Lemma set_get_other_key_witness :
  let this := CacheService.set 0 "paris" 1%nat (CacheService.new 300000) in
  fst (CacheService.get 10 "paris" (CacheService.set 5 "rome" 2%nat this)) = Some 1%nat
  /\ snd (CacheService.get 400000 "paris" (CacheService.set 5 "rome" 2%nat this))
     = CacheService.set 5 "rome" 2%nat (snd (CacheService.get 400000 "paris" this)).
Proof.
  intros this.
  destruct (set_get_other_key this "rome" "paris" 2%nat 5 10 ltac:(discriminate))
    as [Hfst _].
  destruct (set_get_other_key this "rome" "paris" 2%nat 5 400000 ltac:(discriminate))
    as [_ Hsnd].
  split; [by rewrite Hfst|exact Hsnd].
Defined.

(** ** The weather lookup: misses, failures and the controller *)

Section WeatherMore.

Context {num : Type} `{!JS.Num num} `{!JS.CaseMapping}.
Import Eff.

Implicit Types (env : @WeatherService.Env num) (s : @WeatherService.State num).

(** The snapshot built from a geocoding result and current conditions. *)
Lemma lookup_run env loc s :
  let key := JS.trim (JS.toLowerCase loc) in
  let '(cached, svc) :=
    CacheService.get (WeatherService.clock s) key (WeatherService.cacheService s) in
  let wait c (s : WeatherService.State) : WeatherService.State :=
    {| WeatherService.clock := WeatherService.clock s + WeatherService.latency env c;
       WeatherService.cacheService := WeatherService.cacheService s |} in
  let s0 := {| WeatherService.clock := WeatherService.clock s;
               WeatherService.cacheService := svc |} in
  let g := WeatherService.GeocodingRequest loc in
  WeatherService.getWeatherForLocation env loc s =
  match cached with
  | Some d => (Return d, s0, [])
  | None =>
      match WeatherService.geocoding_api env loc with
      | WeatherService.Answer [] =>
          (Throw WeatherService.LocationNotFound, wait g s0, [g])
      | WeatherService.Aborted =>
          (Throw (WeatherService.ServiceTimeoutError "Geocoding"), wait g s0, [g])
      | WeatherService.Failed status =>
          (Throw (WeatherService.ApiError "Geocoding" status), wait g s0, [g])
      | WeatherService.Answer (r :: _) =>
          let f := WeatherService.ForecastRequest (WeatherService.latitude r)
                     (WeatherService.longitude r) in
          let s1 := wait f (wait g s0) in
          match WeatherService.forecast_api env (WeatherService.latitude r)
                  (WeatherService.longitude r) with
          | WeatherService.Answer (Some current) =>
              let info :=
                {| WeatherService.temperature :=
                     JS.Math_round (WeatherService.temperature_2m current);
                   WeatherService.condition :=
                     WeatherService.getWeatherDescription
                       (WeatherService.weather_code current);
                   WeatherService.humidity := WeatherService.relative_humidity_2m current;
                   WeatherService.windSpeed :=
                     JS.div (JS.Math_round
                               (JS.mul (WeatherService.wind_speed_10m current)
                                  (JS.of_nat 10)))
                       (JS.of_nat 10);
                   WeatherService.icon :=
                     WeatherService.getWeatherIcon (WeatherService.weather_code current);
                   WeatherService.description :=
                     WeatherService.getWeatherDescription
                       (WeatherService.weather_code current);
                   WeatherService.cityName := WeatherService.name r;
                   WeatherService.country := WeatherService.geo_country r |} in
              (Return info,
               {| WeatherService.clock := WeatherService.clock s1;
                  WeatherService.cacheService :=
                    CacheService.set (WeatherService.clock s1) key info svc |},
               [g; f])
          | WeatherService.Answer None =>
              (Throw WeatherService.TypeError, s1, [g; f])
          | WeatherService.Aborted =>
              (Throw (WeatherService.ServiceTimeoutError "Weather"), s1, [g; f])
          | WeatherService.Failed status =>
              (Throw (WeatherService.ApiError "Weather" status), s1, [g; f])
          end
      end
  end.
Proof.
  cbv zeta.
  destruct (CacheService.get _ _ _) as [cached svc] eqn:Hget.
  unfold WeatherService.getWeatherForLocation, WeatherService.Date_now,
    WeatherService.with_cacheService, WeatherService.geocodeLocation,
    WeatherService.fetchWeatherData, WeatherService.await.
  unfold mbind, mret, M_bind, M_ret, bind, ret, gets, modify, emit, throw, try_catch.
  simpl. rewrite Hget. simpl.
  destruct cached as [d|]; [done|]. simpl.
  destruct (WeatherService.geocoding_api env loc) as [[|r rs]| |]; simpl; try done.
  destruct (WeatherService.forecast_api env _ _) as [[cur|]| |]; simpl; done.
Qed.


Lemma get_none_absent {T} (this : CacheService.t T) k now :
  fst (CacheService.get now k this) = None ->
  CacheService.cache (snd (CacheService.get now k this)) !! k = None.
Proof.
  unfold CacheService.get.
  destruct (CacheService.cache this !! k) as [item|] eqn:Hk; [|done].
  destruct (CacheService.isExpired now this item); [|done].
  intros _. apply lookup_delete_eq.
Qed.

Lemma get_other_key {T} (this : CacheService.t T) k k' now :
  k' <> k ->
  CacheService.cache (snd (CacheService.get now k this)) !! k'
  = CacheService.cache this !! k'.
Proof.
  intros Hne. unfold CacheService.get.
  destruct (CacheService.cache this !! k) as [item|]; [|done].
  destruct (CacheService.isExpired now this item); [|done].
  by apply lookup_delete_ne.
Qed.

Lemma get_duration {T} (this : CacheService.t T) k now :
  CacheService.cacheDuration (snd (CacheService.get now k this))
  = CacheService.cacheDuration this.
Proof.
  unfold CacheService.get.
  destruct (CacheService.cache this !! k) as [item|]; [|reflexivity].
  destruct (CacheService.isExpired now this item); reflexivity.
Qed.

(** X7: a lookup that finds no valid entry, with a geocoder that has
    results and a forecast provider that answers with current
    conditions, asks the geocoder for the location as given and the
    forecast provider for the coordinates of the first result, returns
    the snapshot built from the two answers (description and icon from
    the weather code), and stores it under the key
    [location.toLowerCase().trim()] with the time at which the answers had
    arrived.  A [get] of that key at that time returns the snapshot when
    the configured duration is not negative, and nothing when it is. *)
Theorem lookup_miss_fetches_and_stores env loc s r rest current :
  fst (CacheService.get (WeatherService.clock s) (JS.trim (JS.toLowerCase loc))
         (WeatherService.cacheService s)) = None ->
  WeatherService.geocoding_api env loc = WeatherService.Answer (r :: rest) ->
  WeatherService.forecast_api env (WeatherService.latitude r) (WeatherService.longitude r)
  = WeatherService.Answer (Some current) ->
  exists info s',
    WeatherService.getWeatherForLocation env loc s
    = (Return info, s',
       [WeatherService.GeocodingRequest loc;
        WeatherService.ForecastRequest (WeatherService.latitude r)
          (WeatherService.longitude r)])
    /\ WeatherService.temperature info
       = JS.Math_round (WeatherService.temperature_2m current)
    /\ WeatherService.humidity info = WeatherService.relative_humidity_2m current
    /\ WeatherService.description info
       = WeatherService.getWeatherDescription (WeatherService.weather_code current)
    /\ WeatherService.condition info = WeatherService.description info
    /\ WeatherService.icon info
       = WeatherService.getWeatherIcon (WeatherService.weather_code current)
    /\ WeatherService.cityName info = WeatherService.name r
    /\ WeatherService.country info = WeatherService.geo_country r
    /\ WeatherService.clock s'
       = WeatherService.clock s
         + WeatherService.latency env (WeatherService.GeocodingRequest loc)
         + WeatherService.latency env
             (WeatherService.ForecastRequest (WeatherService.latitude r)
                (WeatherService.longitude r))
    /\ CacheService.cache (WeatherService.cacheService s')
       !! JS.trim (JS.toLowerCase loc)
       = Some {| CacheService.data := info;
                 CacheService.timestamp := WeatherService.clock s';
                 CacheService.key := JS.trim (JS.toLowerCase loc) |}
    /\ fst (CacheService.get (WeatherService.clock s') (JS.trim (JS.toLowerCase loc))
              (WeatherService.cacheService s'))
       = if 0 <=? CacheService.cacheDuration (WeatherService.cacheService s)
         then Some info else None.
Proof.
  intros Hmiss Hgeo Hforecast.
  pose proof (lookup_run env loc s) as Hrun. cbv zeta in Hrun.
  pose proof (get_duration (WeatherService.cacheService s)
                (JS.trim (JS.toLowerCase loc)) (WeatherService.clock s)) as Hduration.
  destruct (CacheService.get _ _ _) as [cached svc]. simpl in Hmiss, Hduration.
  subst cached.
  rewrite Hgeo, Hforecast in Hrun. rewrite Hrun.
  eexists _, _. split; [reflexivity|]. simpl.
  repeat split; try reflexivity; [apply lookup_insert_eq|].
  unfold CacheService.get, CacheService.set, CacheService.isExpired. simpl.
  rewrite lookup_insert_eq. simpl. rewrite Z.sub_diag, Hduration.
  destruct (Z.ltb_spec (CacheService.cacheDuration (WeatherService.cacheService s)) 0);
    destruct (Z.leb_spec 0 (CacheService.cacheDuration (WeatherService.cacheService s)));
    try lia; reflexivity.
Qed.

(** X8: a lookup that throws has stored nothing: the key
    [location.toLowerCase().trim()] has no entry afterwards.  What it
    throws and what it asked follow the provider that failed: no result, a
    timeout or a failure of the geocoder end the lookup after the
    geocoding request alone; a timeout or a failure of the forecast
    provider, or an answer of the forecast provider without current
    conditions, end it after the two requests. *)
Theorem failed_lookup_caches_nothing env loc s e s' log :
  WeatherService.getWeatherForLocation env loc s = (Throw e, s', log) ->
  CacheService.cache (WeatherService.cacheService s') !! JS.trim (JS.toLowerCase loc)
  = None
  /\ match WeatherService.geocoding_api env loc with
     | WeatherService.Answer [] =>
         e = WeatherService.LocationNotFound
         /\ log = [WeatherService.GeocodingRequest loc]
     | WeatherService.Aborted =>
         e = WeatherService.ServiceTimeoutError "Geocoding"
         /\ log = [WeatherService.GeocodingRequest loc]
     | WeatherService.Failed status =>
         e = WeatherService.ApiError "Geocoding" status
         /\ log = [WeatherService.GeocodingRequest loc]
     | WeatherService.Answer (r :: _) =>
         log = [WeatherService.GeocodingRequest loc;
                WeatherService.ForecastRequest (WeatherService.latitude r)
                  (WeatherService.longitude r)]
         /\ match WeatherService.forecast_api env (WeatherService.latitude r)
                    (WeatherService.longitude r) with
            | WeatherService.Answer (Some _) => False
            | WeatherService.Answer None => e = WeatherService.TypeError
            | WeatherService.Aborted => e = WeatherService.ServiceTimeoutError "Weather"
            | WeatherService.Failed status => e = WeatherService.ApiError "Weather" status
            end
     end.
Proof.
  pose proof (lookup_run env loc s) as Hrun. cbv zeta in Hrun.
  pose proof (get_none_absent (WeatherService.cacheService s)
                (JS.trim (JS.toLowerCase loc)) (WeatherService.clock s)) as Habsent.
  destruct (CacheService.get _ _ _) as [cached svc]. rewrite Hrun. clear Hrun.
  destruct cached as [d|]; [discriminate|]. specialize (Habsent eq_refl).
  simpl in Habsent.
  destruct (WeatherService.geocoding_api env loc) as [[|r rs]| |].
  - by intros [= <- <- <-].
  - destruct (WeatherService.forecast_api env _ _) as [[cur|]| |];
      [discriminate|by intros [= <- <- <-]..].
  - by intros [= <- <- <-].
  - by intros [= <- <- <-].
Qed.

(** X9: a lookup, whatever its outcome, leaves the entries of all other
    keys and the configured duration as they were. *)
Theorem lookup_touches_one_key env loc s o s' log k :
  k <> JS.trim (JS.toLowerCase loc) ->
  WeatherService.getWeatherForLocation env loc s = (o, s', log) ->
  CacheService.cache (WeatherService.cacheService s') !! k
  = CacheService.cache (WeatherService.cacheService s) !! k
  /\ CacheService.cacheDuration (WeatherService.cacheService s')
     = CacheService.cacheDuration (WeatherService.cacheService s).
Proof.
  intros Hne.
  pose proof (lookup_run env loc s) as Hrun. cbv zeta in Hrun.
  pose proof (get_other_key (WeatherService.cacheService s)
                (JS.trim (JS.toLowerCase loc)) k (WeatherService.clock s) Hne) as Hframe.
  pose proof (get_duration (WeatherService.cacheService s)
                (JS.trim (JS.toLowerCase loc)) (WeatherService.clock s)) as Hduration.
  destruct (CacheService.get _ _ _) as [cached svc].
  cbv beta iota zeta in Hrun. rewrite Hrun. clear Hrun.
  simpl in Hframe, Hduration.
  destruct cached as [d|]; [by intros [= <- <- <-]|].
  destruct (WeatherService.geocoding_api env loc) as [[|r rs]| |];
    try by intros [= <- <- <-].
  destruct (WeatherService.forecast_api env _ _) as [[cur|]| |];
    try by intros [= <- <- <-].
  intros [= <- <- <-]. simpl. by rewrite lookup_insert_ne.
Qed.

Implicit Types (m : WeatherController.Messages).

Lemma weather_endpoint_run m env loc s :
  WeatherController.getWeatherData m env loc s =
  if negb (JS.truthy loc) || (JS.length (JS.trim loc) =? 0)%nat
  then (Return {| WeatherController.status := 400;
                  WeatherController.body :=
                    WeatherController.Failed WeatherController.InvalidLocation None |},
        s, [])
  else
    match WeatherService.getWeatherForLocation env (JS.trim loc) s with
    | (Return d, s', log) =>
        (Return {| WeatherController.status := 200;
                   WeatherController.body := WeatherController.Data d |}, s', log)
    | (Throw e, s', log) =>
        let text := WeatherController.message m e in
        (Return
           (if WeatherController.includes text "not found"
            then {| WeatherController.status := 404;
                    WeatherController.body :=
                      WeatherController.Failed WeatherController.LocationNotFoundError
                        (Some text) |}
            else if WeatherController.includes text "API"
            then {| WeatherController.status := 503;
                    WeatherController.body :=
                      WeatherController.Failed
                        WeatherController.WeatherServiceUnavailableError None |}
            else {| WeatherController.status := 500;
                    WeatherController.body :=
                      WeatherController.Failed WeatherController.FailedToFetchWeatherData
                        (Some text) |}),
         s', log)
    end.
Proof.
  unfold WeatherController.getWeatherData.
  destruct (negb (JS.truthy loc) || (JS.length (JS.trim loc) =? 0)%nat);
    [reflexivity|].
  unfold try_catch, mbind, M_bind, bind.
  destruct (WeatherService.getWeatherForLocation env (JS.trim loc) s)
    as [[[d|e] s'] log].
  - unfold mret, M_ret, ret. by rewrite app_nil_r.
  - cbv zeta.
    destruct (WeatherController.includes _ "not found");
      [|destruct (WeatherController.includes _ "API")];
      unfold mret, M_ret, ret; by rewrite app_nil_r.
Qed.

(** X10: the weather endpoint always answers.  A location that is empty
    or made of white space is refused with 400 before the service is
    called; otherwise the service is asked for the trimmed location, its
    requests and its effect on the cache are those of the endpoint, and a
    snapshot it returns is sent with 200. *)
Theorem getWeatherData_answers m env loc s :
  (exists resp s' log,
     WeatherController.getWeatherData m env loc s = (Return resp, s', log))
  /\ (JS.trim loc = "" ->
      WeatherController.getWeatherData m env loc s
      = (Return {| WeatherController.status := 400;
                   WeatherController.body :=
                     WeatherController.Failed WeatherController.InvalidLocation None |},
         s, []))
  /\ (JS.trim loc <> "" ->
      forall o s' log,
        WeatherService.getWeatherForLocation env (JS.trim loc) s = (o, s', log) ->
        exists resp,
          WeatherController.getWeatherData m env loc s = (Return resp, s', log)
          /\ forall d, o = Return d ->
               resp = {| WeatherController.status := 200;
                         WeatherController.body := WeatherController.Data d |}).
Proof.
  rewrite weather_endpoint_run. split; [|split].
  - destruct (_ || _); [by eexists _, _, _|].
    destruct (WeatherService.getWeatherForLocation _ _ _) as [[[d|e] s'] log];
      by eexists _, _, _.
  - intros Hblank. rewrite Hblank. simpl. by rewrite orb_true_r.
  - intros Hloc o s' log Hrun.
    rewrite trim_nonempty by done. simpl.
    destruct (JS.length (JS.trim loc) =? 0)%nat eqn:Hlen.
    { by apply length_zero_iff in Hlen. }
    rewrite Hrun. destruct o as [d|e]; eexists; (split; [reflexivity|]).
    + by intros d' [= <-].
    + discriminate.
Qed.


Lemma api_error_service env loc s svc st s' log :
  WeatherService.getWeatherForLocation env loc s
  = (Throw (WeatherService.ApiError svc st), s', log) ->
  svc = "Geocoding" \/ svc = "Weather".
Proof.
  pose proof (lookup_run env loc s) as Hrun. cbv zeta in Hrun.
  destruct (CacheService.get _ _ _) as [cached svc'].
  cbv beta iota zeta in Hrun. rewrite Hrun. clear Hrun.
  destruct cached as [d|]; [discriminate|].
  destruct (WeatherService.geocoding_api env loc) as [[|r rs]| |];
    try discriminate.
  - destruct (WeatherService.forecast_api env _ _) as [[cur|]| |]; try discriminate.
    intros [= <- _ _ _]. by right.
  - intros [= <- _ _ _]. by left.
Qed.

Lemma includes_api (service rest : string) :
  WeatherController.includes (service +:+ " API error: " +:+ rest) "API" = true.
Proof.
  induction service as [|c service IH]; [reflexivity|].
  change (String c service +:+ " API error: " +:+ rest)
    with (String c (service +:+ " API error: " +:+ rest)).
  cbn [WeatherController.includes]. rewrite IH. apply orb_true_r.
Qed.

Lemma api_error_not_found_free (n : nat) :
  (n < 1000)%nat ->
  WeatherController.includes
    ("Geocoding API error: " +:+ WeatherController.status_text (Some n)) "not found"
  = false
  /\ WeatherController.includes
       ("Weather API error: " +:+ WeatherController.status_text (Some n)) "not found"
     = false.
Proof.
  intros Hn.
  assert (Hall :
    forallb (fun n =>
               negb (WeatherController.includes
                       ("Geocoding API error: "
                        +:+ WeatherController.status_text (Some n)) "not found")
               && negb (WeatherController.includes
                          ("Weather API error: "
                           +:+ WeatherController.status_text (Some n)) "not found"))
      (seq 0 1000) = true) by (vm_compute; reflexivity).
  rewrite forallb_forall in Hall.
  specialize (Hall n). rewrite in_seq in Hall.
  destruct (andb_prop _ _ (Hall ltac:(lia))) as [Hg Hw].
  by rewrite negb_true_iff in Hg, Hw.
Qed.

(** X11: how the weather endpoint reports a failed lookup.  A failure of
    either provider that is not a timeout (an HTTP status below 1000, or
    no answer at all) is answered with 503, so that a 404 of a provider
    is not answered with 404; a location the geocoder has no result for
    is answered with 404 and the text of the error, when that text
    contains "not found".  The requests and the cache are those of the
    lookup. *)
Theorem weather_endpoint_error_statuses m env loc s :
  JS.trim loc <> "" ->
  (forall service status s' log,
     (forall n, status = Some n -> (n < 1000)%nat) ->
     WeatherService.getWeatherForLocation env (JS.trim loc) s
     = (Throw (WeatherService.ApiError service status), s', log) ->
     WeatherController.getWeatherData m env loc s
     = (Return {| WeatherController.status := 503;
                  WeatherController.body :=
                    WeatherController.Failed
                      WeatherController.WeatherServiceUnavailableError None |},
        s', log))
  /\ (forall s' log,
        WeatherController.includes (WeatherController.LocationNotFound m) "not found"
        = true ->
        WeatherService.getWeatherForLocation env (JS.trim loc) s
        = (Throw WeatherService.LocationNotFound, s', log) ->
        WeatherController.getWeatherData m env loc s
        = (Return {| WeatherController.status := 404;
                     WeatherController.body :=
                       WeatherController.Failed WeatherController.LocationNotFoundError
                         (Some (WeatherController.LocationNotFound m)) |},
           s', log)).
Proof.
  intros Hloc.
  assert (Hguard :
    negb (JS.truthy loc) || (JS.length (JS.trim loc) =? 0)%nat = false).
  { rewrite trim_nonempty by done. simpl.
    destruct (JS.length (JS.trim loc) =? 0)%nat eqn:Hlen; [|done].
    by apply length_zero_iff in Hlen. }
  split.
  - intros service status s' log Hstatus Hrun.
    rewrite weather_endpoint_run, Hguard, Hrun. cbv zeta.
    unfold WeatherController.message. rewrite includes_api.
    assert (Hfree :
      WeatherController.includes
        (service +:+ " API error: " +:+ WeatherController.status_text status)
        "not found" = false).
    { destruct (api_error_service _ _ _ _ _ _ _ Hrun) as [-> | ->];
        (destruct status as [n|]; [|vm_compute; reflexivity]);
        destruct (api_error_not_found_free n (Hstatus n eq_refl)) as [Hg Hw];
        [exact Hg|exact Hw]. }
    by rewrite Hfree.
  - intros s' log Htext Hrun.
    rewrite weather_endpoint_run, Hguard, Hrun. cbv zeta.
    unfold WeatherController.message. by rewrite Htext.
Qed.

End WeatherMore.

Section WeatherExamples.

#[local] Existing Instance JS.Latin1.

(** From a cold cache: "ZÜRICH" is fetched and stored under "zürich",
    and read back at once. *)
Lemma lookup_miss_fetches_and_stores_witness :
  exists info s',
    WeatherService.getWeatherForLocation MoreExamples.weather_env "ZÜRICH"
      MoreExamples.weather0
    = (Eff.Return info, s',
       [WeatherService.GeocodingRequest "ZÜRICH";
        WeatherService.ForecastRequest (4737 # 100)%Q (855 # 100)%Q])
    /\ WeatherService.description info = "Partly cloudy"
    /\ WeatherService.icon info = WeatherService.IconSunBehindCloud
    /\ WeatherService.clock s' = 1300
    /\ CacheService.cache (WeatherService.cacheService s') !! "zürich"
       = Some {| CacheService.data := info; CacheService.timestamp := 1300;
                 CacheService.key := "zürich" |}
    /\ fst (CacheService.get 1300 "zürich" (WeatherService.cacheService s'))
       = Some info.
Proof.
  destruct (lookup_miss_fetches_and_stores MoreExamples.weather_env "ZÜRICH"
              MoreExamples.weather0 MoreExamples.zurich_geocode []
              MoreExamples.paris_current eq_refl eq_refl eq_refl)
    as (info & s' & Hrun & _ & _ & Hdesc & _ & Hicon & _ & _ & Hclock & Hstored
        & Hget).
  exists info, s'. split; [exact Hrun|]. split; [exact Hdesc|]. split; [exact Hicon|].
  split; [exact Hclock|]. rewrite Hclock in Hstored, Hget.
  split; [exact Hstored|exact Hget].
Defined.

(** A lookup of Paris leaves an entry stored for Rome alone. *)
Lemma lookup_touches_one_key_witness :
  let s : WeatherService.State (num := Q) :=
    {| WeatherService.clock := 1000;
       WeatherService.cacheService :=
         CacheService.set 900 "rome"
           {| WeatherService.temperature := (18 # 1)%Q;
              WeatherService.condition := "Clear sky";
              WeatherService.humidity := (40 # 1)%Q;
              WeatherService.windSpeed := (2 # 1)%Q;
              WeatherService.icon := WeatherService.IconSun;
              WeatherService.description := "Clear sky";
              WeatherService.cityName := "Rome";
              WeatherService.country := "Italy" |}
           (WeatherService.new 5) |} in
  CacheService.cache
    (WeatherService.cacheService
       (snd (fst (WeatherService.getWeatherForLocation MoreExamples.weather_env
                    "Paris" s)))) !! "rome"
  = CacheService.cache (WeatherService.cacheService s) !! "rome".
Proof.
  intros s.
  destruct (WeatherService.getWeatherForLocation MoreExamples.weather_env "Paris" s)
    as [[o s'] log] eqn:Hrun.
  pose proof (lookup_touches_one_key MoreExamples.weather_env "Paris" s o s' log
                "rome") as Hframe.
  apply Hframe; [|exact Hrun]. vm_compute. intros Heq. discriminate Heq.
Defined.

(** A location made of a no-break space is refused without a request;
    " Paris" followed by one is looked up as "Paris". *)
Lemma getWeatherData_answers_witness :
  WeatherController.getWeatherData MoreExamples.messages MoreExamples.weather_env
    MoreExamples.nbsp MoreExamples.weather0
  = (Eff.Return {| WeatherController.status := 400;
                   WeatherController.body :=
                     WeatherController.Failed WeatherController.InvalidLocation None |},
     MoreExamples.weather0, [])
  /\ exists d s',
       WeatherController.getWeatherData MoreExamples.messages MoreExamples.weather_env
         (" Paris" +:+ MoreExamples.nbsp) MoreExamples.weather0
       = (Eff.Return {| WeatherController.status := 200;
                        WeatherController.body := WeatherController.Data d |},
          s',
          [WeatherService.GeocodingRequest "Paris";
           WeatherService.ForecastRequest (4885 # 100)%Q (235 # 100)%Q]).
Proof.
  split.
  - apply (getWeatherData_answers MoreExamples.messages MoreExamples.weather_env
             MoreExamples.nbsp MoreExamples.weather0). reflexivity.
  - destruct (getWeatherData_answers MoreExamples.messages MoreExamples.weather_env
                (" Paris" +:+ MoreExamples.nbsp) MoreExamples.weather0)
      as (_ & _ & Hcalled).
    destruct (WeatherService.getWeatherForLocation MoreExamples.weather_env "Paris"
                MoreExamples.weather0) as [[o s'] log] eqn:Hrun.
    destruct (Hcalled ltac:(by vm_compute) o s' log Hrun) as (resp & Hresp & Hdata).
    assert (Ho : exists d, o = Eff.Return d
                           /\ log = [WeatherService.GeocodingRequest "Paris";
                                     WeatherService.ForecastRequest
                                       (4885 # 100)%Q (235 # 100)%Q]).
    { vm_compute in Hrun. injection Hrun as <- _ <-. by eexists. }
    destruct Ho as (d & -> & ->).
    exists d, s'. by rewrite Hresp, (Hdata d eq_refl).
Defined.

(** The geocoder refuses "busy" with 429, and has no result for
    "Atlantis". *)
Lemma weather_endpoint_error_statuses_witness :
  (exists s' log,
     WeatherController.getWeatherData MoreExamples.messages MoreExamples.weather_env
       " busy " MoreExamples.weather0
     = (Eff.Return {| WeatherController.status := 503;
                      WeatherController.body :=
                        WeatherController.Failed
                          WeatherController.WeatherServiceUnavailableError None |},
        s', log))
  /\ (exists s' log,
        WeatherController.getWeatherData MoreExamples.messages MoreExamples.weather_env
          "Atlantis" MoreExamples.weather0
        = (Eff.Return {| WeatherController.status := 404;
                         WeatherController.body :=
                           WeatherController.Failed
                             WeatherController.LocationNotFoundError
                             (Some "Location not found") |},
           s', log)).
Proof.
  split.
  - destruct (weather_endpoint_error_statuses MoreExamples.messages
                MoreExamples.weather_env " busy " MoreExamples.weather0
                ltac:(discriminate)) as [Hapi _].
    eexists _, _. eapply (Hapi "Geocoding" (Some 429%nat)).
    + intros n [= <-]. lia.
    + vm_compute. reflexivity.
  - destruct (weather_endpoint_error_statuses MoreExamples.messages
                MoreExamples.weather_env "Atlantis" MoreExamples.weather0
                ltac:(discriminate)) as [_ Hunknown].
    eexists _, _. eapply Hunknown; [reflexivity|]. vm_compute. reflexivity.
Defined.

(** A geocoder that times out; and a forecast provider that is down
    while an entry for "zürich", stored 400 seconds earlier, has expired:
    the failed lookup of "ZÜRICH" leaves no entry under "zürich". *)
Lemma failed_lookup_caches_nothing_witness :
  (exists s',
     WeatherService.getWeatherForLocation MoreExamples.weather_env "slow"
       MoreExamples.weather0
     = (Eff.Throw (WeatherService.ServiceTimeoutError "Geocoding"), s',
        [WeatherService.GeocodingRequest "slow"])
     /\ CacheService.cache (WeatherService.cacheService s') !! "slow" = None)
  /\ (let s : WeatherService.State (num := Q) :=
        {| WeatherService.clock := 401000;
           WeatherService.cacheService :=
             CacheService.set 1000 "zürich"
               {| WeatherService.temperature := (18 # 1)%Q;
                  WeatherService.condition := "Clear sky";
                  WeatherService.humidity := (40 # 1)%Q;
                  WeatherService.windSpeed := (2 # 1)%Q;
                  WeatherService.icon := WeatherService.IconSun;
                  WeatherService.description := "Clear sky";
                  WeatherService.cityName := "Zurich";
                  WeatherService.country := "Switzerland" |}
               (WeatherService.new 5) |} in
      exists s' log,
        WeatherService.getWeatherForLocation MoreExamples.forecast_down "ZÜRICH" s
        = (Eff.Throw (WeatherService.ApiError "Weather" (Some 503%nat)), s', log)
        /\ is_Some (CacheService.cache (WeatherService.cacheService s) !! "zürich")
        /\ CacheService.cache (WeatherService.cacheService s') !! "zürich" = None)
  /\ (exists s' log,
        WeatherService.getWeatherForLocation MoreExamples.forecast_bare "Paris"
          MoreExamples.weather0
        = (Eff.Throw WeatherService.TypeError, s', log)).
Proof.
  split; [|split].
  - destruct (WeatherService.getWeatherForLocation MoreExamples.weather_env "slow"
                MoreExamples.weather0) as [[o s'] log] eqn:Hrun.
    assert (Ho : exists e, o = Eff.Throw e).
    { vm_compute in Hrun. injection Hrun as <- _ _. by eexists. }
    destruct Ho as [e ->].
    destruct (failed_lookup_caches_nothing MoreExamples.weather_env "slow"
                MoreExamples.weather0 e s' log Hrun) as (Hnone & He & Hlog).
    exists s'. rewrite He, Hlog. by split.
  - intros s.
    destruct (WeatherService.getWeatherForLocation MoreExamples.forecast_down
                "ZÜRICH" s) as [[o s'] log] eqn:Hrun.
    assert (Ho : exists e, o = Eff.Throw e).
    { vm_compute in Hrun. injection Hrun as <- _ _. by eexists. }
    destruct Ho as [e ->].
    destruct (failed_lookup_caches_nothing MoreExamples.forecast_down "ZÜRICH"
                s e s' log Hrun) as (Hnone & _ & He).
    exists s', log. rewrite He. split; [reflexivity|]. split; [by eexists|].
    exact Hnone.
  - destruct (WeatherService.getWeatherForLocation MoreExamples.forecast_bare "Paris"
                MoreExamples.weather0) as [[o s'] log] eqn:Hrun.
    assert (Ho : exists e, o = Eff.Throw e).
    { vm_compute in Hrun. injection Hrun as <- _ _. by eexists. }
    destruct Ho as [e ->].
    destruct (failed_lookup_caches_nothing MoreExamples.forecast_bare "Paris"
                MoreExamples.weather0 e s' log Hrun) as (_ & _ & He).
    exists s', log. by rewrite He.
Defined.

End WeatherExamples.

(** ** The AI controller: what every handler does *)

Section GeminiMore.

Context {num : Type} `{!JS.Num num}.
Import Eff.
Import GeminiAIController.

Implicit Types (env : @Env num) (s : State) (req : Body).

(** The four handlers behind the AI routes. *)
Local Abbreviation handlers :=
  [handleWeatherChat; generateWeatherSummary; getLocationSuggestions;
   generateWeatherTrivia].

Ltac each_handler H :=
  repeat (apply elem_of_cons in H as [->|H]); [| | | |by apply elem_of_nil in H].

(** X12: a handler of the AI routes never throws: whatever the request,
    the providers and the state, it sends a response, with status 200, 400
    or 500. *)
Theorem ai_handlers_always_respond env req s h :
  h ∈ [handleWeatherChat; generateWeatherSummary; getLocationSuggestions;
       generateWeatherTrivia] ->
  exists resp s' log,
    h env req s = (Return resp, s', log)
    /\ (status resp = 200 \/ status resp = 400 \/ status resp = 500)%nat.
Proof.
  intros Hh. each_handler Hh.
  - rewrite handleWeatherChat_run.
    destruct (question req) as [q|]; [|eexists _, _, _; split; [done|auto]].
    destruct (negb (JS.truthy q)); [eexists _, _, _; split; [done|auto]|].
    cbv zeta. destruct (truthy _); [eexists _, _, _; split; [done|auto]|].
    destruct (sequence _); [|eexists _, _, _; split; [done|auto]].
    destruct (gemini_api env _ _); eexists _, _, _; (split; [done|auto]).
  - rewrite generateWeatherSummary_run.
    destruct (locations req) as [[|loc given]|];
      try (eexists _, _, _; split; [done|auto]).
    cbv zeta. destruct (truthy _); [eexists _, _, _; split; [done|auto]|].
    destruct (buildSummary _ _ _) as [[ws k]|];
      [|eexists _, _, _; split; [done|auto]].
    destruct (negb (JS.truthy ws)); [eexists _, _, _; split; [done|auto]|].
    destruct (gemini_api env _ _); eexists _, _, _; (split; [done|auto]).
  - rewrite getLocationSuggestions_run.
    destruct (interests req) as [i|]; [|eexists _, _, _; split; [done|auto]].
    destruct (negb (JS.truthy i)); [eexists _, _, _; split; [done|auto]|].
    cbv zeta. destruct (truthy _); [eexists _, _, _; split; [done|auto]|].
    destruct (gemini_api env _ _); eexists _, _, _; (split; [done|auto]).
  - rewrite generateWeatherTrivia_run.
    destruct (location req) as [loc|]; [|eexists _, _, _; split; [done|auto]].
    destruct (negb (JS.truthy loc)); [eexists _, _, _; split; [done|auto]|].
    cbv zeta. destruct (truthy _); [eexists _, _, _; split; [done|auto]|].
    destruct (weather_api env loc) as [d|]; [|eexists _, _, _; split; [done|auto]].
    destruct (first_description d); [|eexists _, _, _; split; [done|auto]].
    destruct (gemini_api env _ _); eexists _, _, _; (split; [done|auto]).
Qed.

(** What a handler may do to the cache of responses: nothing, or store
    the text that the provider answered, with the time of the end of the
    request. *)
Lemma ai_cache_step env req s h o s' log :
  h ∈ handlers ->
  h env req s = (o, s', log) ->
  aiCache s' = aiCache s
  \/ exists k p n text,
       GeminiRequest p n ∈ log
       /\ gemini_api env p n = Some text
       /\ aiCache s' = <[k := {| data := text; timestamp := clock s' |}]> (aiCache s).
Proof.
  intros Hh. each_handler Hh.
  - rewrite handleWeatherChat_run.
    destruct (question req) as [q|]; [|intros [= <- <- <-]; by left].
    destruct (negb (JS.truthy q)); [intros [= <- <- <-]; by left|].
    cbv zeta. destruct (truthy _); [intros [= <- <- <-]; by left|].
    destruct (sequence _); [|intros [= <- <- <-]; by left].
    destruct (gemini_api env _ _) as [text|] eqn:Hanswer;
      intros [= <- <- <-]; [|by left].
    right. eexists _, _, _, text. split; [|split; [exact Hanswer|reflexivity]].
    apply elem_of_app. right. apply list_elem_of_here.
  - rewrite generateWeatherSummary_run.
    destruct (locations req) as [[|loc given]|];
      try (intros [= <- <- <-]; by left).
    cbv zeta. destruct (truthy _); [intros [= <- <- <-]; by left|].
    destruct (buildSummary _ _ _) as [[ws k]|]; [|intros [= <- <- <-]; by left].
    destruct (negb (JS.truthy ws)); [intros [= <- <- <-]; by left|].
    destruct (gemini_api env _ _) as [text|] eqn:Hanswer;
      intros [= <- <- <-]; [|by left].
    right. eexists _, _, _, text. split; [|split; [exact Hanswer|reflexivity]].
    apply elem_of_app. right. apply list_elem_of_here.
  - rewrite getLocationSuggestions_run.
    destruct (interests req) as [i|]; [|intros [= <- <- <-]; by left].
    destruct (negb (JS.truthy i)); [intros [= <- <- <-]; by left|].
    cbv zeta. destruct (truthy _); [intros [= <- <- <-]; by left|].
    destruct (gemini_api env _ _) as [text|] eqn:Hanswer;
      intros [= <- <- <-]; [|by left].
    right. eexists _, _, _, text. split; [|split; [exact Hanswer|reflexivity]].
    apply list_elem_of_here.
  - rewrite generateWeatherTrivia_run.
    destruct (location req) as [loc|]; [|intros [= <- <- <-]; by left].
    destruct (negb (JS.truthy loc)); [intros [= <- <- <-]; by left|].
    cbv zeta. destruct (truthy _); [intros [= <- <- <-]; by left|].
    destruct (weather_api env loc) as [d|]; [|intros [= <- <- <-]; by left].
    destruct (first_description d); [|intros [= <- <- <-]; by left].
    destruct (gemini_api env _ _) as [text|] eqn:Hanswer;
      intros [= <- <- <-]; [|by left].
    right. eexists _, _, _, text. split; [|split; [exact Hanswer|reflexivity]].
    apply list_elem_of_further, list_elem_of_here.
Qed.

(** X13: the cache of AI responses only grows.  A handler never removes
    an entry, expired or not; it changes the cache only by storing the
    text the provider answered; when the provider did not answer (a
    refused request, an answer from the cache, a fallback) the cache is
    left as it was, so a fallback text is never stored. *)
Theorem ai_cache_only_grows env req s h o s' log :
  h ∈ [handleWeatherChat; generateWeatherSummary; getLocationSuggestions;
       generateWeatherTrivia] ->
  h env req s = (o, s', log) ->
  (forall k c, aiCache s !! k = Some c -> is_Some (aiCache s' !! k))
  /\ ((forall p n, GeminiRequest p n ∈ log -> gemini_api env p n = None) ->
      aiCache s' = aiCache s)
  /\ (forall k c,
        aiCache s' !! k = Some c -> aiCache s !! k <> Some c ->
        timestamp c = clock s'
        /\ exists p n, GeminiRequest p n ∈ log /\ gemini_api env p n = Some (data c)).
Proof.
  intros Hh Hrun.
  destruct (ai_cache_step env req s h o s' log Hh Hrun)
    as [Hsame|(k0 & p & n & text & Hasked & Hanswer & Hstored)].
  - rewrite Hsame. split; [by eauto|]. split; [done|]. by intros k c ->.
  - rewrite Hstored. split; [|split].
    + intros k c Hk. destruct (decide (k0 = k)) as [->|Hne].
      * rewrite lookup_insert_eq. by eexists.
      * rewrite lookup_insert_ne by done. by eexists.
    + intros Hdown. rewrite (Hdown p n Hasked) in Hanswer. discriminate.
    + intros k c Hk Hnew. destruct (decide (k0 = k)) as [->|Hne].
      * rewrite lookup_insert_eq in Hk. injection Hk as <-. simpl.
        split; [done|]. by exists p, n.
      * rewrite lookup_insert_ne in Hk by done. done.
Qed.


(** A request that reached the provider has a cache key: the answer is
    stored under it, a state that holds a text under it answers the
    request from the cache, and any other state makes the handler ask
    again. *)
Lemma ai_request_key env req s h o s' log p n text :
  h ∈ handlers ->
  h env req s = (o, s', log) ->
  GeminiRequest p n ∈ log ->
  gemini_api env p n = Some text ->
  exists k field,
    aiCache s' !! k = Some {| data := text; timestamp := clock s' |}
    /\ forall s0,
         (truthy (cached_at s0 k) = true ->
          h env req s0
          = (Return (json [(field, Text (default "" (cached_at s0 k)))]), s0, []))
         /\ (truthy (cached_at s0 k) = false -> snd (h env req s0) <> []).
Proof.
  intros Hh Hrun Hasked Hanswer. each_handler Hh.
  - pose proof (fun s0 => handleWeatherChat_run env req s0) as Hany.
    rewrite handleWeatherChat_run in Hrun.
    destruct (question req) as [q|];
      [|injection Hrun as <- <- <-; by apply elem_of_nil in Hasked].
    destruct (negb (JS.truthy q));
      [injection Hrun as <- <- <-; by apply elem_of_nil in Hasked|].
    cbv zeta in Hrun, Hany. destruct (truthy (cached_at s _));
      [injection Hrun as <- <- <-; by apply elem_of_nil in Hasked|].
    destruct (sequence _) as [lines|e];
      [|injection Hrun as <- <- <-; by apply gemini_not_asked_weather in Hasked].
    destruct (gemini_api env (chatPrompt _ _) _) as [text'|] eqn:Hanswer';
      injection Hrun as <- <- <-;
      destruct (gemini_asked_last _ _ _ _ _ Hasked) as [-> ->]; [|congruence].
    assert (text' = text) as -> by congruence.
    eexists _, "response". split; [apply lookup_insert_eq|].
    intros s0. rewrite Hany. split; intros ->; [reflexivity|].
    simpl. by destruct (WeatherRequest <$> _).
  - pose proof (fun s0 => generateWeatherSummary_run env req s0) as Hany.
    rewrite generateWeatherSummary_run in Hrun.
    destruct (locations req) as [[|loc given]|];
      try (injection Hrun as <- <- <-; by apply elem_of_nil in Hasked).
    cbv zeta in Hrun, Hany. destruct (truthy (cached_at s _));
      [injection Hrun as <- <- <-; by apply elem_of_nil in Hasked|].
    destruct (buildSummary _ _ _) as [[ws k]|e];
      [|injection Hrun as <- <- <-; by apply gemini_not_asked_weather in Hasked].
    destruct (negb (JS.truthy ws));
      [injection Hrun as <- <- <-; by apply gemini_not_asked_weather in Hasked|].
    destruct (gemini_api env (summaryPrompt _) _) as [text'|] eqn:Hanswer';
      injection Hrun as <- <- <-;
      destruct (gemini_asked_last _ _ _ _ _ Hasked) as [-> ->]; [|congruence].
    assert (text' = text) as -> by congruence.
    eexists _, "summary". split; [apply lookup_insert_eq|].
    intros s0. rewrite Hany. split; intros ->; [reflexivity|].
    simpl. by destruct (WeatherRequest <$> _).
  - pose proof (fun s0 => getLocationSuggestions_run env req s0) as Hany.
    rewrite getLocationSuggestions_run in Hrun.
    destruct (interests req) as [i|];
      [|injection Hrun as <- <- <-; by apply elem_of_nil in Hasked].
    destruct (negb (JS.truthy i));
      [injection Hrun as <- <- <-; by apply elem_of_nil in Hasked|].
    cbv zeta in Hrun, Hany. destruct (truthy (cached_at s _));
      [injection Hrun as <- <- <-; by apply elem_of_nil in Hasked|].
    destruct (gemini_api env (suggestionsPrompt _ _) _) as [text'|] eqn:Hanswer';
      injection Hrun as <- <- <-;
      apply list_elem_of_singleton in Hasked; injection Hasked as -> ->;
      [|congruence].
    assert (text' = text) as -> by congruence.
    eexists _, "suggestions". split; [apply lookup_insert_eq|].
    intros s0. rewrite Hany. split; intros ->; [reflexivity|done].
  - pose proof (fun s0 => generateWeatherTrivia_run env req s0) as Hany.
    rewrite generateWeatherTrivia_run in Hrun.
    destruct (location req) as [loc|];
      [|injection Hrun as <- <- <-; by apply elem_of_nil in Hasked].
    destruct (negb (JS.truthy loc));
      [injection Hrun as <- <- <-; by apply elem_of_nil in Hasked|].
    cbv zeta in Hrun, Hany. destruct (truthy (cached_at s _));
      [injection Hrun as <- <- <-; by apply elem_of_nil in Hasked|].
    destruct (weather_api env loc) as [d|];
      [|injection Hrun as <- <- <-;
        by apply (gemini_not_asked_weather p n [loc]) in Hasked].
    destruct (first_description d) as [desc|e];
      [|injection Hrun as <- <- <-;
        by apply (gemini_not_asked_weather p n [loc]) in Hasked].
    destruct (gemini_api env (triviaPrompt _ _ _) _) as [text'|] eqn:Hanswer';
      injection Hrun as <- <- <-;
      destruct (gemini_asked_last p n [loc] _ _ Hasked) as [-> ->]; [|congruence].
    assert (text' = text) as -> by congruence.
    eexists _, "trivia". split; [apply lookup_insert_eq|].
    intros s0. rewrite Hany. split; intros ->; [reflexivity|done].
Qed.

(** X14: once the provider has answered a request with a text that is
    not empty, the same request is answered from the cache, with that text
    alone and without any outbound request, as long as less than
    [CACHE_TTL] has passed since the end of the first request; from
    [CACHE_TTL] on it is not, and the handler issues requests again. *)
Theorem repeated_request_is_cached env req s h o s' log p n text t :
  h ∈ [handleWeatherChat; generateWeatherSummary; getLocationSuggestions;
       generateWeatherTrivia] ->
  h env req s = (o, s', log) ->
  GeminiRequest p n ∈ log ->
  gemini_api env p n = Some text ->
  text <> "" ->
  (t - clock s' < CACHE_TTL ->
   exists field,
     h env req (at_time t s') = (Return (json [(field, Text text)]), at_time t s', []))
  /\ (CACHE_TTL <= t - clock s' -> snd (h env req (at_time t s')) <> []).
Proof.
  intros Hh Hrun Hasked Hanswer Htext.
  destruct (ai_request_key env req s h o s' log p n text Hh Hrun Hasked Hanswer)
    as (k & field & Hstored & Hkey).
  destruct (Hkey (at_time t s')) as [Hhit Hmiss].
  unfold cached_at in Hhit, Hmiss. simpl in Hhit, Hmiss.
  rewrite Hstored in Hhit, Hmiss. simpl in Hhit, Hmiss.
  split; intros Ht.
  - exists field.
    destruct (Z.ltb_spec (t - clock s') CACHE_TTL); [|lia].
    apply Hhit. by destruct text.
  - destruct (Z.ltb_spec (t - clock s') CACHE_TTL); [lia|]. by apply Hmiss.
Qed.


(** X15: what a request costs.  A handler asks the weather provider once
    for each location of the request, in the order of the array (sorted,
    for the summary), or not at all; after that it calls the generative
    provider at most once, with the output budget of its kind: 200 for
    the chat and the trivia, 300 for the summary, 400 for the
    suggestions. *)
Theorem ai_requests_shape env req s o s' log :
  (handleWeatherChat env req s = (o, s', log) ->
   log = []
   \/ log = WeatherRequest <$> default [] (locations req)
   \/ exists p, log = (WeatherRequest <$> default [] (locations req))
                      ++ [GeminiRequest p 200])
  /\ (generateWeatherSummary env req s = (o, s', log) ->
      log = []
      \/ log = WeatherRequest <$> JS.sort (default [] (locations req))
      \/ exists p, log = (WeatherRequest <$> JS.sort (default [] (locations req)))
                         ++ [GeminiRequest p 300])
  /\ (getLocationSuggestions env req s = (o, s', log) ->
      log = [] \/ exists p, log = [GeminiRequest p 400])
  /\ (generateWeatherTrivia env req s = (o, s', log) ->
      log = []
      \/ exists loc, location req = Some loc
                     /\ (log = [WeatherRequest loc]
                         \/ exists p, log = [WeatherRequest loc; GeminiRequest p 200])).
Proof.
  repeat split.
  - rewrite handleWeatherChat_run.
    destruct (question req) as [q|]; [|intros [= <- <- <-]; by left].
    destruct (negb (JS.truthy q)); [intros [= <- <- <-]; by left|].
    cbv zeta. destruct (truthy _); [intros [= <- <- <-]; by left|].
    destruct (sequence _); [|intros [= <- <- <-]; right; by left].
    destruct (gemini_api env _ _); intros [= <- <- <-]; right; right; by eexists.
  - rewrite generateWeatherSummary_run.
    destruct (locations req) as [[|loc given]|];
      try (intros [= <- <- <-]; by left).
    cbv zeta. destruct (truthy _); [intros [= <- <- <-]; by left|].
    simpl default.
    destruct (buildSummary _ _ _) as [[ws k]|]; [|intros [= <- <- <-]; right; by left].
    destruct (negb (JS.truthy ws)); [intros [= <- <- <-]; right; by left|].
    destruct (gemini_api env _ _); intros [= <- <- <-]; right; right; by eexists.
  - rewrite getLocationSuggestions_run.
    destruct (interests req) as [i|]; [|intros [= <- <- <-]; by left].
    destruct (negb (JS.truthy i)); [intros [= <- <- <-]; by left|].
    cbv zeta. destruct (truthy _); [intros [= <- <- <-]; by left|].
    destruct (gemini_api env _ _); intros [= <- <- <-]; right; by eexists.
  - rewrite generateWeatherTrivia_run.
    destruct (location req) as [loc|]; [|intros [= <- <- <-]; by left].
    destruct (negb (JS.truthy loc)); [intros [= <- <- <-]; by left|].
    cbv zeta. destruct (truthy _); [intros [= <- <- <-]; by left|].
    destruct (weather_api env loc) as [d|];
      [|intros [= <- <- <-]; right; exists loc; split; [done|by left]].
    destruct (first_description d);
      [|intros [= <- <- <-]; right; exists loc; split; [done|by left]].
    destruct (gemini_api env _ _); intros [= <- <- <-]; right; exists loc;
      (split; [done|right; by eexists]).
Qed.

(** A weather document without an entry in its [weather] array. *)
Local Abbreviation malformed env :=
  (fun loc => exists d, weather_api env loc = Some d /\ weather d = []).

Lemma chat_lines_throw env (locs : list string) :
  Exists (malformed env) locs ->
  sequence ((fun p => chatLine (fst p) (snd p)) <$> zip locs (weather_api env <$> locs))
  = Throw TypeError.
Proof.
  unfold fmap.
  induction 1 as [loc locs (d & Hd & Hw)|loc locs _ IH]; simpl.
  - unfold chatLine. rewrite Hd. unfold first_description. by rewrite Hw.
  - rewrite IH. unfold chatLine.
    destruct (weather_api env loc) as [d|]; [|done].
    unfold first_description. by destruct (weather d).
Qed.

Lemma buildSummary_throws env (locs : list string) acc n :
  Exists (malformed env) locs ->
  buildSummary (zip locs (weather_api env <$> locs)) acc n = Throw TypeError.
Proof.
  unfold fmap. intros Hbad. revert acc n.
  induction Hbad as [loc locs (d & Hd & Hw)|loc locs _ IH]; intros acc n; simpl.
  - rewrite Hd. unfold summaryLine, first_description. by rewrite Hw.
  - destruct (weather_api env loc) as [d|]; [|apply IH].
    unfold summaryLine, first_description.
    destruct (weather d) as [|w ws]; [done|apply IH].
Qed.

(** X16: a weather document that arrives without an entry in its
    [weather] array is not treated as a failed lookup: the chat, the
    summary and the trivia handler answer 500 once all the weather
    requests are made, do not call the generative provider and store
    nothing. *)
Theorem malformed_document_is_500 env req s :
  (forall q,
     question req = Some q -> JS.truthy q = true ->
     truthy (cached_at s
               (getCacheKey "chat"
                  (JS.Object [("question", JS.Str q);
                              ("locations",
                               JS.of_option JS.of_strings (locations req))])))
     = false ->
     Exists (malformed env) (default [] (locations req)) ->
     exists s',
       handleWeatherChat env req s
       = (Return (status_json 500 [("error", Text "Failed to process chat request")]),
          s', WeatherRequest <$> default [] (locations req))
       /\ aiCache s' = aiCache s)
  /\ (forall given,
        locations req = Some given ->
        truthy (cached_at s (getCacheKey "summary" (JS.of_strings (JS.sort given))))
        = false ->
        Exists (malformed env) given ->
        exists s',
          generateWeatherSummary env req s
          = (Return (status_json 500
                       [("error", Text "Failed to generate weather summary")]),
             s', WeatherRequest <$> JS.sort given)
          /\ aiCache s' = aiCache s)
  /\ (forall loc,
        location req = Some loc -> JS.truthy loc = true ->
        truthy (cached_at s (getCacheKey "trivia" (JS.Str loc))) = false ->
        malformed env loc ->
        exists s',
          generateWeatherTrivia env req s
          = (Return (status_json 500
                       [("error", Text "Failed to generate weather trivia")]),
             s', [WeatherRequest loc])
          /\ aiCache s' = aiCache s).
Proof.
  split; [|split].
  - intros q Hq Htruthy Hmiss Hbad.
    rewrite handleWeatherChat_run, Hq, Htruthy. simpl negb. cbv iota zeta.
    rewrite Hmiss, chat_lines_throw by done. by eexists.
  - intros given Hgiven Hmiss Hbad.
    rewrite generateWeatherSummary_run, Hgiven.
    destruct given as [|loc given]; [by apply Exists_nil in Hbad|]. cbv zeta.
    rewrite Hmiss, buildSummary_throws; [by eexists|].
    assert (Hsorted : JS.sort (loc :: given) ≡ₚ loc :: given)
      by apply sort_is_permutation.
    by rewrite Hsorted.
  - intros loc Hloc Htruthy Hmiss (d & Hd & Hw).
    rewrite generateWeatherTrivia_run, Hloc, Htruthy. simpl negb. cbv iota zeta.
    rewrite Hmiss, Hd. unfold first_description. rewrite Hw. by eexists.
Qed.

End GeminiMore.

(** The chat handler with the provider up and with the provider down. *)
Lemma ai_handlers_always_respond_witness :
  (exists resp s' log,
     GeminiAIController.handleWeatherChat Examples.env_up
       (Examples.chat "Will it rain?" ["Paris"]) Examples.s0
     = (Eff.Return resp, s', log))
  /\ (exists resp s' log,
        GeminiAIController.generateWeatherTrivia Examples.env_down
          (Examples.trivia "Atlantis") Examples.s0
        = (Eff.Return resp, s', log)).
Proof.
  split.
  - destruct (ai_handlers_always_respond Examples.env_up
                (Examples.chat "Will it rain?" ["Paris"]) Examples.s0
                GeminiAIController.handleWeatherChat ltac:(find_request))
      as (resp & s' & log & Hrun & _).
    by exists resp, s', log.
  - destruct (ai_handlers_always_respond Examples.env_down
                (Examples.trivia "Atlantis") Examples.s0
                GeminiAIController.generateWeatherTrivia ltac:(find_request))
      as (resp & s' & log & Hrun & _).
    by exists resp, s', log.
Defined.

(** The suggestions with the provider down: the fallback is sent and
    nothing is stored. *)
Lemma ai_cache_only_grows_witness :
  GeminiAIController.aiCache
    (snd (fst (GeminiAIController.getLocationSuggestions Examples.env_down
                 (Examples.suggestions "hiking") Examples.s0)))
  = GeminiAIController.aiCache Examples.s0.
Proof.
  destruct (GeminiAIController.getLocationSuggestions Examples.env_down
              (Examples.suggestions "hiking") Examples.s0) as [[o s'] log] eqn:Hrun.
  destruct (ai_cache_only_grows Examples.env_down (Examples.suggestions "hiking")
              Examples.s0 GeminiAIController.getLocationSuggestions o s' log
              ltac:(find_request) Hrun) as (_ & Hdown & _).
  apply Hdown. reflexivity.
Defined.

(** A chat about Paris, asked again after one second and after five
    minutes. *)
Lemma repeated_request_is_cached_witness :
  exists s',
    fst (GeminiAIController.handleWeatherChat Examples.env_up
           (Examples.chat "Will it rain?" ["Paris"]) Examples.s0)
    = (Eff.Return (GeminiAIController.json
                     [("response",
                       GeminiAIController.Text "Mild in Paris, wintry in Oslo.")]), s')
    /\ (exists field,
          GeminiAIController.handleWeatherChat Examples.env_up
            (Examples.chat "Will it rain?" ["Paris"])
            (GeminiAIController.at_time (GeminiAIController.clock s' + 1000) s')
          = (Eff.Return (GeminiAIController.json
                           [(field,
                             GeminiAIController.Text "Mild in Paris, wintry in Oslo.")]),
             GeminiAIController.at_time (GeminiAIController.clock s' + 1000) s', []))
    /\ snd (GeminiAIController.handleWeatherChat Examples.env_up
              (Examples.chat "Will it rain?" ["Paris"])
              (GeminiAIController.at_time (GeminiAIController.clock s' + 300000) s'))
       <> [].
Proof.
  destruct (GeminiAIController.handleWeatherChat Examples.env_up
              (Examples.chat "Will it rain?" ["Paris"]) Examples.s0)
    as [[o s'] log] eqn:Hrun.
  assert (Hasked : exists p, GeminiAIController.GeminiRequest p 200 ∈ log
                             /\ o = Eff.Return (GeminiAIController.json
                                  [("response",
                                    GeminiAIController.Text
                                      "Mild in Paris, wintry in Oslo.")])).
  { vm_compute in Hrun. injection Hrun as <- _ <-. eexists. split; [find_request|done]. }
  destruct Hasked as (p & Hasked & ->).
  exists s'. split; [reflexivity|].
  pose proof (fun t =>
    repeated_request_is_cached Examples.env_up
      (Examples.chat "Will it rain?" ["Paris"]) Examples.s0
      GeminiAIController.handleWeatherChat _ s' log p 200%nat
      "Mild in Paris, wintry in Oslo." t ltac:(find_request) Hrun Hasked eq_refl
      ltac:(discriminate)) as Hrepeat.
  split.
  - apply (Hrepeat (GeminiAIController.clock s' + 1000)).
    unfold GeminiAIController.CACHE_TTL. lia.
  - apply (Hrepeat (GeminiAIController.clock s' + 300000)).
    unfold GeminiAIController.CACHE_TTL. lia.
Defined.

(** A chat and a summary that name "Void", whose document has no
    weather entry. *)
Lemma malformed_document_is_500_witness :
  (exists s',
     GeminiAIController.handleWeatherChat MoreExamples.env_void
       (Examples.chat "Will it rain?" ["Paris"; "Void"]) Examples.s0
     = (Eff.Return (GeminiAIController.status_json 500
                      [("error",
                        GeminiAIController.Text "Failed to process chat request")]),
        s',
        [GeminiAIController.WeatherRequest "Paris";
         GeminiAIController.WeatherRequest "Void"]))
  /\ (exists s',
        GeminiAIController.generateWeatherTrivia MoreExamples.env_void
          (Examples.trivia "Void") Examples.s0
        = (Eff.Return (GeminiAIController.status_json 500
                         [("error",
                           GeminiAIController.Text "Failed to generate weather trivia")]),
           s', [GeminiAIController.WeatherRequest "Void"])).
Proof.
  split.
  - destruct (malformed_document_is_500 MoreExamples.env_void
                (Examples.chat "Will it rain?" ["Paris"; "Void"]) Examples.s0)
      as (Hchat & _).
    destruct (Hchat "Will it rain?" eq_refl eq_refl eq_refl) as (s' & Hrun & _).
    { right. left. by eexists. }
    by exists s'.
  - destruct (malformed_document_is_500 MoreExamples.env_void
                (Examples.trivia "Void") Examples.s0) as (_ & _ & Htrivia).
    destruct (Htrivia "Void" eq_refl eq_refl eq_refl) as (s' & Hrun & _).
    { by eexists. }
    by exists s'.
Defined.

(** ** The maintenance endpoints of the weather controller *)

Section MaintenanceFacts.

Context {num : Type} `{!JS.Num num} `{!JS.CaseMapping}.
Import Eff.

Implicit Types (env : @WeatherService.Env num) (s : @WeatherService.State num).

(** X17: [clearCache] answers 200 with the current time, makes no
    request to a provider and sweeps the cache at that time.  The sweep is
    transparent: the weather endpoint answers a request made right after
    it with the response, and with the requests to the providers, it
    would have given without it; and the statistics read right after it
    count no expired entry, their total being the number of entries of
    the cache before the sweep whose age did not exceed the configured
    duration. *)
Theorem clearCache_is_transparent m env loc s :
  let swept :=
    {| WeatherService.clock := WeatherService.clock s;
       WeatherService.cacheService :=
         CacheService.clearExpired (WeatherService.clock s)
           (WeatherService.cacheService s) |} in
  WeatherController.clearCache s
  = (Return {| WeatherController.status := 200;
               WeatherController.body :=
                 WeatherController.Cleared (WeatherService.clock s) |},
     swept, [])
  /\ fst (fst (WeatherController.getWeatherData m env loc swept))
     = fst (fst (WeatherController.getWeatherData m env loc s))
  /\ snd (WeatherController.getWeatherData m env loc swept)
     = snd (WeatherController.getWeatherData m env loc s)
  /\ exists stats,
       WeatherController.getCacheStats swept
       = (Return {| WeatherController.status := 200;
                    WeatherController.body := WeatherController.Statistics stats |},
          swept, [])
       /\ CacheService.expiredItems stats = 0%nat
       /\ CacheService.totalItems stats
          = size (filter (fun kv =>
                            WeatherService.clock s - CacheService.timestamp (snd kv)
                            <= CacheService.cacheDuration (WeatherService.cacheService s))
                    (CacheService.cache (WeatherService.cacheService s))).
Proof.
  intros swept. split; [reflexivity|].
  assert (Hlookup :
    forall l,
      fst (fst (WeatherService.getWeatherForLocation env l swept))
      = fst (fst (WeatherService.getWeatherForLocation env l s))
      /\ snd (WeatherService.getWeatherForLocation env l swept)
         = snd (WeatherService.getWeatherForLocation env l s)).
  { intros l.
    pose proof (lookup_run env l s) as Hs.
    pose proof (lookup_run env l swept) as Hswept.
    cbv zeta in Hs, Hswept. unfold swept in Hswept at 1 2.
    cbn [WeatherService.clock WeatherService.cacheService] in Hswept.
    rewrite get_swept in Hswept.
    destruct (CacheService.get (WeatherService.clock s) (JS.trim (JS.toLowerCase l))
                (WeatherService.cacheService s)) as [cached svc].
    cbv beta iota zeta in Hs, Hswept. cbn [fst] in Hswept.
    rewrite Hs, Hswept.
    destruct cached as [d|]; [done|].
    destruct (WeatherService.geocoding_api env l) as [[|r rs]| |]; try done.
    by destruct (WeatherService.forecast_api env _ _) as [[cur|]| |]. }
  split; [|split].
  - rewrite !weather_endpoint_run.
    destruct (negb (JS.truthy loc) || (JS.length (JS.trim loc) =? 0)%nat); [done|].
    destruct (Hlookup (JS.trim loc)) as [Hresult _].
    destruct (WeatherService.getWeatherForLocation env (JS.trim loc) swept)
      as [[o1 s1] log1].
    destruct (WeatherService.getWeatherForLocation env (JS.trim loc) s)
      as [[o2 s2] log2].
    simpl in Hresult. subst o2. by destruct o1.
  - rewrite !weather_endpoint_run.
    destruct (negb (JS.truthy loc) || (JS.length (JS.trim loc) =? 0)%nat); [done|].
    destruct (Hlookup (JS.trim loc)) as [_ Hlog].
    destruct (WeatherService.getWeatherForLocation env (JS.trim loc) swept)
      as [[o1 s1] log1].
    destruct (WeatherService.getWeatherForLocation env (JS.trim loc) s)
      as [[o2 s2] log2].
    simpl in Hlog. subst log2. by destruct o1, o2.
  - eexists. split; [reflexivity|].
    unfold swept. cbn [WeatherService.clock WeatherService.cacheService].
    by rewrite getStats_swept_by_age.
Qed.

End MaintenanceFacts.

(** ** The widget collection: queries, removal and invariants *)

Section WidgetMore.
Import WidgetController.

Implicit Types (env : Env) (s : State) (w : Widget) (id : string).

Lemma same_id_true (a b : string) :
  WidgetQueries.same_id a b = true <-> JS.fold_ascii a = JS.fold_ascii b.
Proof. apply String.eqb_eq. Qed.

Lemma same_id_false (a b : string) :
  WidgetQueries.same_id a b = false <-> JS.fold_ascii a <> JS.fold_ascii b.
Proof. apply String.eqb_neq. Qed.

Lemma with_widgets_same s : {| clock := clock s; widgets := widgets s |} = s.
Proof. by destruct s. Qed.


Lemma find_split {A} (f : A -> bool) (l : list A) x :
  List.find f l = Some x ->
  exists before after,
    l = before ++ x :: after /\ Forall (fun y => f y = false) before /\ f x = true.
Proof.
  induction l as [|y l IH]; simpl; [discriminate|].
  destruct (f y) eqn:Hy.
  - intros [= ->]. exists [], l. by repeat split.
  - intros Hfind. destruct (IH Hfind) as (before & after & -> & Hbefore & Hx).
    exists (y :: before), after. repeat split; [|done]. by constructor.
Qed.

Lemma find_at {A} (f : A -> bool) (before after : list A) x :
  Forall (fun y => f y = false) before -> f x = true ->
  List.find f (before ++ x :: after) = Some x.
Proof.
  induction 1 as [|y before Hy _ IH]; simpl; intros Hx.
  - by rewrite Hx.
  - rewrite Hy. by apply IH.
Qed.

Lemma remove_at id (before after : list Widget) w :
  Forall (fun v => WidgetQueries.same_id (_id v) id = false) before ->
  WidgetQueries.same_id (_id w) id = true ->
  WidgetQueries.remove id (before ++ w :: after) = before ++ after.
Proof.
  induction 1 as [|v before Hv _ IH]; simpl; intros Hw.
  - by rewrite Hw.
  - rewrite Hv. f_equal. by apply IH.
Qed.

Lemma remove_sublist id (l : list Widget) : sublist (WidgetQueries.remove id l) l.
Proof.
  induction l as [|v l IH]; simpl; [done|].
  destruct (WidgetQueries.same_id (_id v) id).
  - by apply sublist_cons.
  - by apply sublist_skip.
Qed.

Lemma find_remove_other id id' (l : list Widget) :
  WidgetQueries.same_id id id' = false ->
  List.find (fun w => WidgetQueries.same_id (_id w) id') (WidgetQueries.remove id l)
  = List.find (fun w => WidgetQueries.same_id (_id w) id') l.
Proof.
  intros Hne. induction l as [|v l IH]; simpl; [done|].
  destruct (WidgetQueries.same_id (_id v) id) eqn:Hv.
  - destruct (WidgetQueries.same_id (_id v) id') eqn:Hv'; [|done].
    apply same_id_true in Hv, Hv'. apply same_id_false in Hne. congruence.
  - simpl. by rewrite IH.
Qed.

(** What a run of [createWidget] leaves: the collection as it was, or
    the collection with the new document at its end. *)
Lemma createWidget_inv env loc s r s' :
  createWidget env loc s = (r, s') ->
  (s' = s /\ status r <> 201%nat)
  \/ exists l test,
       loc = JS.Str l
       /\ regex env ("^" +:+ JS.trim l +:+ "$") = Some test
       /\ findOne test s = None
       /\ valid_location (JS.trim l) = true
       /\ let w := {| _id := newObjectId env s; location := JS.trim l;
                      createdAt := clock s; updatedAt := clock s |} in
          r = {| status := 201; body := Document w |}
          /\ s' = {| clock := clock s; widgets := widgets s ++ [w] |}.
Proof.
  unfold createWidget.
  destruct loc as [| | | |l| |]; try (intros [= <- <-]; left; by split).
  destruct (negb (JS.truthy l) || (JS.length (JS.trim l) =? 0)%nat);
    [intros [= <- <-]; left; by split|]. cbv zeta.
  destruct (regex env _) as [test|] eqn:Hre;
    [|intros [= <- <-]; left; by split].
  destruct (findOne test s) eqn:Hfind; [intros [= <- <-]; left; by split|].
  unfold save. rewrite trim_idempotent.
  destruct (valid_location (JS.trim l)) eqn:Hvalid;
    [|intros [= <- <-]; left; by split].
  intros [= <- <-]. right. exists l, test. by repeat split.
Qed.

(** The validators of the schema accept the texts of 2 to 100 code
    units. *)
Lemma valid_location_spec (l : string) :
  valid_location l = true <-> (2 <= JS.length l <= 100)%nat.
Proof.
  unfold valid_location. destruct l as [|c r].
  { split; [discriminate|]. cbn [JS.length]. lia. }
  cbn [JS.truthy andb]. remember (JS.length (String c r)) as n eqn:Hn. clear Hn.
  destruct (Nat.leb_spec 2 n); destruct (Nat.leb_spec n 100); cbn [andb]; split;
    try done; lia.
Qed.

(** X18: the outcomes of [deleteWidget].  An identifier that is not 24
    hexadecimal digits is refused with 400, and an identifier no stored
    document has with 404; both leave the collection as it was.
    Otherwise the first document with that identifier is the one sent
    back with 200, and the collection afterwards is the collection
    without it, in the same order. *)
Theorem deleteWidget_outcomes id s :
  (WidgetQueries.is_object_id id = false ->
   WidgetQueries.deleteWidget id s
   = ({| WidgetQueries.status := 400;
         WidgetQueries.body := WidgetQueries.Error WidgetQueries.InvalidWidgetIDError |},
      s))
  /\ (WidgetQueries.is_object_id id = true ->
      Forall (fun w => WidgetQueries.same_id (_id w) id = false) (widgets s) ->
      WidgetQueries.deleteWidget id s
      = ({| WidgetQueries.status := 404;
            WidgetQueries.body :=
              WidgetQueries.Error WidgetQueries.WidgetNotFoundError |},
         s))
  /\ (WidgetQueries.is_object_id id = true ->
      Exists (fun w => WidgetQueries.same_id (_id w) id = true) (widgets s) ->
      exists before w after,
        widgets s = before ++ w :: after
        /\ Forall (fun v => WidgetQueries.same_id (_id v) id = false) before
        /\ WidgetQueries.same_id (_id w) id = true
        /\ WidgetQueries.deleteWidget id s
           = ({| WidgetQueries.status := 200;
                 WidgetQueries.body := WidgetQueries.Deleted w |},
              {| clock := clock s; widgets := before ++ after |})).
Proof.
  unfold WidgetQueries.deleteWidget, WidgetQueries.findById.
  split; [|split].
  - by intros ->.
  - intros -> Hnone. simpl. by rewrite find_forall.
  - intros -> Hsome. simpl.
    destruct (find_exists _ _ Hsome) as [w Hfind]. rewrite Hfind.
    destruct (find_split _ _ _ Hfind) as (before & after & Hl & Hbefore & Hw).
    exists before, w, after. repeat split; try done.
    rewrite Hl. by rewrite remove_at.
Qed.

(** X19: with identifiers that are unique in the collection, a
    deleted document is gone: a query for the identifier after
    [deleteWidget] is answered with 404 (400 for a malformed identifier).
    Whether identifiers are unique or not, a query for another identifier
    has the answer it had before the deletion. *)
Theorem deleted_widget_is_gone id s :
  (NoDup ((fun w => JS.fold_ascii (_id w)) <$> widgets s) ->
   fst (WidgetQueries.getWidgetById id (snd (WidgetQueries.deleteWidget id s)))
   = if WidgetQueries.is_object_id id
     then {| WidgetQueries.status := 404;
             WidgetQueries.body :=
               WidgetQueries.Error WidgetQueries.WidgetNotFoundError |}
     else {| WidgetQueries.status := 400;
             WidgetQueries.body :=
               WidgetQueries.Error WidgetQueries.InvalidWidgetIDError |})
  /\ (forall id',
        WidgetQueries.same_id id id' = false ->
        fst (WidgetQueries.getWidgetById id' (snd (WidgetQueries.deleteWidget id s)))
        = fst (WidgetQueries.getWidgetById id' s)).
Proof.
  split.
  - intros Hunique.
    unfold WidgetQueries.getWidgetById, WidgetQueries.deleteWidget,
      WidgetQueries.findById.
    destruct (WidgetQueries.is_object_id id) eqn:Hid; cbn [negb]; [|done].
    destruct (List.find _ (widgets s)) as [w|] eqn:Hfind; cbn [snd widgets].
    + destruct (find_split _ _ _ Hfind) as (before & after & Hl & Hbefore & Hw).
      rewrite Hl, remove_at by done.
      rewrite find_forall; [done|].
      rewrite Hl, fmap_app, fmap_cons in Hunique.
      apply NoDup_app in Hunique as (_ & _ & Hafter).
      apply NoDup_cons in Hafter as [Hafter _].
      apply Forall_app. split; [done|].
      apply Forall_forall. intros v Hv. apply same_id_false. intros Heq.
      apply Hafter. apply list_elem_of_fmap. exists v. split; [|done].
      apply same_id_true in Hw. congruence.
    + by rewrite Hfind.
  - intros id' Hne.
    unfold WidgetQueries.getWidgetById, WidgetQueries.deleteWidget,
      WidgetQueries.findById.
    destruct (WidgetQueries.is_object_id id'); simpl; [|done].
    destruct (negb (WidgetQueries.is_object_id id)); [done|].
    destruct (List.find _ (widgets s)) as [w|] eqn:Hfind; [|done].
    cbn [snd widgets]. rewrite find_remove_other by done.
    by destruct (List.find (fun v => WidgetQueries.same_id (_id v) id') (widgets s)).
Qed.

(** X20: a created widget can be read back and removed again.  When the
    store hands out a well-formed identifier that no stored document
    has, the document sent with 201 carries the trimmed location, that
    identifier and the time of the request; [getWidgetById] on its
    identifier answers 200 with the same document, and [deleteWidget] on
    it answers 200 with the same document and leaves the collection as it
    was before the creation. *)
Theorem created_widget_round_trip env l s w s' :
  WidgetQueries.is_object_id (newObjectId env s) = true ->
  Forall (fun v => WidgetQueries.same_id (_id v) (newObjectId env s) = false)
    (widgets s) ->
  createWidget env (JS.Str l) s = ({| status := 201; body := Document w |}, s') ->
  w = {| _id := newObjectId env s; location := JS.trim l;
         createdAt := clock s; updatedAt := clock s |}
  /\ WidgetQueries.getWidgetById (_id w) s'
     = ({| WidgetQueries.status := 200; WidgetQueries.body := WidgetQueries.Document w |},
        s')
  /\ WidgetQueries.deleteWidget (_id w) s'
     = ({| WidgetQueries.status := 200; WidgetQueries.body := WidgetQueries.Deleted w |},
        s).
Proof.
  intros Hid Hfresh Hrun.
  destruct (createWidget_inv _ _ _ _ _ Hrun) as [[_ Hstatus]|Hcreated]; [done|].
  destruct Hcreated as (l' & test & [= <-] & _ & _ & _ & Hr & ->).
  injection Hr as ->. split; [done|].
  assert (Hself : WidgetQueries.same_id (newObjectId env s) (newObjectId env s) = true)
    by by apply same_id_true.
  unfold WidgetQueries.getWidgetById, WidgetQueries.deleteWidget,
    WidgetQueries.findById.
  cbn [_id widgets clock]. rewrite Hid. cbn [negb].
  rewrite find_at by done. split; [done|].
  rewrite remove_at by done. by rewrite app_nil_r, with_widgets_same.
Qed.

(** X21: every stored location has between 2 and 100 code units and no
    white space at either end, once this holds of the collection: neither
    [createWidget], whatever it is sent and whatever the store makes of
    the pattern, nor [deleteWidget] breaks it. *)
Theorem stored_locations_stay_valid env loc id s :
  Forall (fun w => (2 <= JS.length (location w) <= 100)%nat
                   /\ JS.trim (location w) = location w) (widgets s) ->
  Forall (fun w => (2 <= JS.length (location w) <= 100)%nat
                   /\ JS.trim (location w) = location w)
    (widgets (snd (createWidget env loc s)))
  /\ Forall (fun w => (2 <= JS.length (location w) <= 100)%nat
                      /\ JS.trim (location w) = location w)
       (widgets (snd (WidgetQueries.deleteWidget id s))).
Proof.
  intros Hinv. split.
  - destruct (createWidget env loc s) as [r s'] eqn:Hrun. cbn [snd].
    destruct (createWidget_inv _ _ _ _ _ Hrun) as [[-> _]|Hcreated]; [done|].
    destruct Hcreated as (l & test & _ & _ & _ & Hvalid & _ & ->).
    apply Forall_app. split; [done|].
    constructor; [|constructor].
    split; [by apply valid_location_spec|apply trim_idempotent].
  - unfold WidgetQueries.deleteWidget.
    destruct (negb (WidgetQueries.is_object_id id)); [done|].
    destruct (WidgetQueries.findById id s); [|done]. simpl.
    rewrite Forall_forall in Hinv |- *. intros v Hv. apply Hinv.
    eapply elem_of_sublist; [exact Hv|apply remove_sublist].
Qed.


Lemma later_total : Total WidgetQueries.later.
Proof. intros a b. unfold WidgetQueries.later. lia. Qed.

Lemma later_trans : Transitive WidgetQueries.later.
Proof. intros a b c. unfold WidgetQueries.later. lia. Qed.

(** X23: [getAllWidgets] answers 200 with every stored document exactly
    once, latest first, and leaves the collection as it is.  A widget
    created after all the stored ones is the first of the list of the
    next request. *)
Theorem getAllWidgets_latest_first s :
  (exists l,
     WidgetQueries.getAllWidgets s
     = ({| WidgetQueries.status := 200; WidgetQueries.body := WidgetQueries.Documents l |},
        s)
     /\ l ≡ₚ widgets s
     /\ StronglySorted (fun a b => createdAt b <= createdAt a) l)
  /\ forall env loc w s',
       Forall (fun v => createdAt v < clock s) (widgets s) ->
       createWidget env loc s = ({| status := 201; body := Document w |}, s') ->
       exists rest,
         WidgetQueries.getAllWidgets s'
         = ({| WidgetQueries.status := 200;
               WidgetQueries.body := WidgetQueries.Documents (w :: rest) |}, s')
         /\ rest ≡ₚ widgets s.
Proof.
  assert (Hsorted : forall l, StronglySorted WidgetQueries.later
                                (merge_sort WidgetQueries.later l)).
  { intros l. apply Sorted_StronglySorted; [apply later_trans|].
    apply Sorted_merge_sort. apply later_total. }
  split.
  - eexists. split; [reflexivity|]. split; [apply merge_sort_Permutation|].
    apply Hsorted.
  - intros env loc w s' Hold Hrun.
    destruct (createWidget_inv _ _ _ _ _ Hrun) as [[_ Hstatus]|Hcreated]; [done|].
    destruct Hcreated as (l & test & _ & _ & _ & _ & Hr & ->).
    injection Hr as Hw. unfold WidgetQueries.getAllWidgets. cbn [widgets].
    rewrite <- Hw.
    pose proof (merge_sort_Permutation WidgetQueries.later (widgets s ++ [w])) as Hperm.
    specialize (Hsorted (widgets s ++ [w])).
    assert (Hat : createdAt w = clock s) by by rewrite Hw.
    destruct (merge_sort WidgetQueries.later (widgets s ++ [w])) as [|x rest].
    { apply Permutation_nil_l in Hperm. by destruct (widgets s). }
    assert (Hx : x = w).
    { assert (Hin : x ∈ widgets s ++ [w]) by (rewrite <- Hperm; left).
      apply elem_of_app in Hin as [Hin|Hin]; [|by apply list_elem_of_singleton in Hin].
      rewrite Forall_forall in Hold. specialize (Hold x Hin).
      assert (Hw_in : w ∈ x :: rest) by (rewrite Hperm; set_solver).
      apply elem_of_cons in Hw_in as [->|Hw_in]; [done|].
      apply StronglySorted_inv in Hsorted as [_ Hhead].
      rewrite Forall_forall in Hhead. specialize (Hhead w Hw_in).
      unfold WidgetQueries.later in Hhead. lia. }
    subst x. exists rest. split; [done|].
    rewrite (Permutation_app_comm (widgets s) [w]) in Hperm. simpl in Hperm.
    by apply Permutation_cons_inv in Hperm.
Qed.

End WidgetMore.

(** ** The controller on the OpenAI API: no cache and no fallback *)

Section OpenAIFacts.

Context {num : Type} `{!JS.Num num}.
Import Eff.
Import AIWeatherController.

Implicit Types (env : @Env num) (req : GeminiAIController.Body) (u : unit).

Lemma openai_lookups_run env (locs : list string) u :
  mapM (getWeatherData env) locs u
  = (Return (weather_api env <$> locs), u, WeatherRequest <$> locs).
Proof.
  induction locs as [|loc locs IH]; [reflexivity|].
  cbn [mapM]. unfold mbind, M_bind, bind at 1.
  change (getWeatherData env loc u)
    with (Return (E := Error) (weather_api env loc), u, [WeatherRequest loc]).
  unfold mbind, M_bind, bind at 1. rewrite IH.
  unfold mret, M_ret, ret. simpl. by rewrite app_nil_r.
Qed.

Lemma openai_lines_run {A B} (f : A -> Outcome Error B) (l : list A) u :
  mapM (S := unit) (C := Call) (fun x => lift (f x)) l u = (sequence (f <$> l), u, []).
Proof.
  induction l as [|x l IH]; [reflexivity|].
  cbn [mapM]. unfold mbind, M_bind, bind at 1. unfold lift at 1.
  simpl. destruct (f x) as [b|e]; [|done].
  unfold mbind, M_bind, bind at 1. rewrite IH. unfold fmap.
  by destruct (sequence (list_fmap _ _ f l)).
Qed.

Lemma callOpenAI_run env messages maxTokens u :
  callOpenAI env messages maxTokens u
  = (match openai_api env messages maxTokens with
     | Some text => Return text
     | None => Throw AIServiceUnavailable
     end, u, [OpenAIRequest messages maxTokens]).
Proof.
  unfold callOpenAI. unfold mbind, M_bind, bind, emit, mret, M_ret, ret, throw.
  by destruct (openai_api env messages maxTokens).
Qed.

(** The chat handler, request by request. *)
Lemma openai_chat_run env req u :
  handleWeatherChat env req u =
  match GeminiAIController.question req with
  | Some q =>
      if negb (JS.truthy q)
      then (Return (status_json 400 [("error", Text "Question is required")]), u, [])
      else
        let locs := default [] (GeminiAIController.locations req) in
        let asked := WeatherRequest <$> locs in
        match sequence ((fun p => chatLine (fst p) (snd p))
                          <$> zip locs (weather_api env <$> locs)) with
        | Throw e =>
            (Return (status_json 500
                       [("error", message_or e "Failed to process chat request")]),
             u, asked)
        | Return lines =>
            let messages := chatMessages q (JS.join ". " lines) in
            match openai_api env messages 200 with
            | Some response =>
                (Return (json [("response", Text response)]), u,
                 asked ++ [OpenAIRequest messages 200])
            | None =>
                (Return (status_json 500 [("error", Text "AI service unavailable")]),
                 u, asked ++ [OpenAIRequest messages 200])
            end
        end
  | None => (Return (status_json 400 [("error", Text "Question is required")]), u, [])
  end.
Proof.
  unfold handleWeatherChat.
  destruct (GeminiAIController.question req) as [q|]; [|reflexivity].
  destruct (negb (JS.truthy q)); [reflexivity|]. cbv zeta.
  unfold try_catch. unfold mbind, M_bind, bind at 1.
  destruct (GeminiAIController.locations req) as [[|loc locs]|]; simpl default.
  - change (sequence _) with (Return (E := Error) (@nil string)). cbv iota.
    unfold mret at 1, M_ret at 1, ret at 1. cbv iota beta.
    unfold mbind, M_bind, bind. rewrite callOpenAI_run.
    by destruct (openai_api env _ _).
  - unfold mbind, M_bind, bind at 1. rewrite openai_lookups_run.
    unfold mbind, M_bind, bind at 1. rewrite openai_lines_run.
    destruct (sequence _) as [lines|e].
    + unfold mret at 1, M_ret at 1, ret at 1. cbv iota beta.
      unfold mbind, M_bind, bind. rewrite callOpenAI_run.
      destruct (openai_api env _ _); unfold mret, M_ret, ret; cbv iota beta;
        by rewrite ?app_nil_r.
    + unfold mret, M_ret, ret. by rewrite !app_nil_r.
  - change (sequence _) with (Return (E := Error) (@nil string)). cbv iota.
    unfold mret at 1, M_ret at 1, ret at 1. cbv iota beta.
    unfold mbind, M_bind, bind. rewrite callOpenAI_run.
    by destruct (openai_api env _ _).
Qed.

(** The summary handler, request by request. *)
Lemma openai_summary_run env req u :
  generateWeatherSummary env req u =
  match GeminiAIController.locations req with
  | Some ((_ :: _) as locs) =>
      if negb (GeminiAIController.truthy (WEATHER_API_KEY env))
      then (Return (status_json 500
                      [("error", Text "Weather service configuration error")]), u, [])
      else if negb (GeminiAIController.truthy (OPENAI_API_KEY env))
      then (Return (status_json 500 [("error", Text "AI service configuration error")]),
            u, [])
      else
        let asked := WeatherRequest <$> locs in
        match buildSummary (zip locs (weather_api env <$> locs)) "" 0 with
        | Throw e =>
            (Return (status_json 500
                       [("error", message_or e "Failed to generate weather summary")]),
             u, asked)
        | Return (weatherSummary, _) =>
            if negb (JS.truthy weatherSummary)
            then (Return (status_json 400
                            [("error",
                              Text "No weather data available for provided locations");
                             ("details",
                              Text "All weather API calls failed. Check your API key and location names.")]),
                  u, asked)
            else
              let messages := summaryMessages weatherSummary in
              match openai_api env messages 250 with
              | Some summary =>
                  (Return (json [("summary", Text summary)]), u,
                   asked ++ [OpenAIRequest messages 250])
              | None =>
                  (Return (status_json 500 [("error", Text "AI service unavailable")]),
                   u, asked ++ [OpenAIRequest messages 250])
              end
        end
  | _ => (Return (status_json 400 [("error", Text "Locations array is required")]), u, [])
  end.
Proof.
  unfold generateWeatherSummary.
  destruct (GeminiAIController.locations req) as [[|loc locs]|]; try reflexivity.
  destruct (negb (GeminiAIController.truthy (WEATHER_API_KEY env))); [reflexivity|].
  destruct (negb (GeminiAIController.truthy (OPENAI_API_KEY env))); [reflexivity|].
  cbv zeta. unfold try_catch. unfold mbind, M_bind, bind at 1.
  rewrite openai_lookups_run.
  unfold mbind, M_bind, bind at 1. unfold lift at 1.
  destruct (buildSummary _ "" 0) as [[weatherSummary n]|e].
  - cbn [fst]. destruct (negb (JS.truthy weatherSummary)).
    + unfold mret, M_ret, ret. by rewrite !app_nil_r.
    + unfold mbind, M_bind, bind. rewrite callOpenAI_run.
      destruct (openai_api env _ _); unfold mret, M_ret, ret; cbv iota beta;
        by rewrite ?app_nil_r.
  - unfold mret, M_ret, ret. by rewrite !app_nil_r.
Qed.

(** The suggestions handler, request by request. *)
Lemma openai_suggestions_run env req u :
  getLocationSuggestions env req u =
  match GeminiAIController.interests req with
  | Some i =>
      if negb (JS.truthy i)
      then (Return (status_json 400 [("error", Text "Interests are required")]), u, [])
      else if negb (GeminiAIController.truthy (OPENAI_API_KEY env))
      then (Return (status_json 500 [("error", Text "AI service configuration error")]),
            u, [])
      else
        let messages :=
          suggestionsMessages (GeminiAIController.currentLocations req) i in
        match openai_api env messages 300 with
        | Some suggestions =>
            (Return (json [("suggestions", Text suggestions)]), u,
             [OpenAIRequest messages 300])
        | None =>
            (Return (status_json 500 [("error", Text "AI service unavailable")]),
             u, [OpenAIRequest messages 300])
        end
  | None => (Return (status_json 400 [("error", Text "Interests are required")]), u, [])
  end.
Proof.
  unfold getLocationSuggestions.
  destruct (GeminiAIController.interests req) as [i|]; [|reflexivity].
  destruct (negb (JS.truthy i)); [reflexivity|].
  destruct (negb (GeminiAIController.truthy (OPENAI_API_KEY env))); [reflexivity|].
  cbv zeta. unfold try_catch. unfold mbind, M_bind, bind. rewrite callOpenAI_run.
  by destruct (openai_api env _ _).
Qed.

(** The trivia handler, request by request. *)
Lemma openai_trivia_run env req u :
  generateWeatherTrivia env req u =
  match GeminiAIController.location req with
  | Some loc =>
      if negb (JS.truthy loc)
      then (Return (status_json 400 [("error", Text "Location is required")]), u, [])
      else if negb (GeminiAIController.truthy (WEATHER_API_KEY env))
              || negb (GeminiAIController.truthy (OPENAI_API_KEY env))
      then (Return (status_json 500 [("error", Text "Service configuration error")]),
            u, [])
      else
        match weather_api env loc with
        | None =>
            (Return (status_json 400
                       [("error", Text ("Unable to fetch weather data for " +:+ loc));
                        ("details",
                         Text "Check if the location name is correct and try again.")]),
             u, [WeatherRequest loc])
        | Some d =>
            match triviaMessages loc d with
            | Throw e =>
                (Return (status_json 500
                           [("error",
                             message_or e "Failed to generate weather trivia")]),
                 u, [WeatherRequest loc])
            | Return messages =>
                match openai_api env messages 200 with
                | Some trivia =>
                    (Return (json [("trivia", Text trivia);
                                   ("weather", WeatherObject d)]), u,
                     [WeatherRequest loc; OpenAIRequest messages 200])
                | None =>
                    (Return (status_json 500
                               [("error", Text "AI service unavailable")]),
                     u, [WeatherRequest loc; OpenAIRequest messages 200])
                end
            end
        end
  | None => (Return (status_json 400 [("error", Text "Location is required")]), u, [])
  end.
Proof.
  unfold generateWeatherTrivia.
  destruct (GeminiAIController.location req) as [loc|]; [|reflexivity].
  destruct (negb (JS.truthy loc)); [reflexivity|].
  destruct (negb (GeminiAIController.truthy (WEATHER_API_KEY env))
            || negb (GeminiAIController.truthy (OPENAI_API_KEY env))); [reflexivity|].
  unfold try_catch. unfold mbind, M_bind, bind at 1.
  change (getWeatherData env loc u)
    with (Return (E := Error) (weather_api env loc), u, [WeatherRequest loc]).
  destruct (weather_api env loc) as [d|]; [|reflexivity].
  unfold mbind, M_bind, bind at 1. unfold lift at 1.
  destruct (triviaMessages loc d) as [messages|e]; [|reflexivity].
  unfold mbind, M_bind, bind. rewrite callOpenAI_run.
  by destruct (openai_api env _ _).
Qed.

Local Abbreviation openai_handlers :=
  [handleWeatherChat; generateWeatherSummary; getLocationSuggestions;
   generateWeatherTrivia].

Ltac each_openai_handler H :=
  repeat (apply elem_of_cons in H as [->|H]); [| | | |by apply elem_of_nil in H].

Lemma not_asked_among_lookups (locs : list string) messages n :
  OpenAIRequest messages n ∉ (WeatherRequest <$> locs).
Proof. intros Hin. by apply list_elem_of_fmap in Hin as (loc & Heq & _). Qed.

(** X24: the controller on the OpenAI API has no fallback.  Whenever
    one of its four handlers has asked the generative provider, the
    answer of the provider decides the response: its text is sent as it
    is with 200, and its failure is reported with 500 and the text
    "AI service unavailable". *)
Theorem openai_answer_decides env req u h o u' log messages n :
  h ∈ openai_handlers ->
  h env req u = (o, u', log) ->
  OpenAIRequest messages n ∈ log ->
  match openai_api env messages n with
  | Some text => exists field rest, o = Return (json ((field, Text text) :: rest))
  | None => o = Return (status_json 500 [("error", Text "AI service unavailable")])
  end.
Proof.
  intros Hh. each_openai_handler Hh.
  - rewrite openai_chat_run.
    destruct (GeminiAIController.question req) as [q|];
      [|intros [= <- <- <-] Hin; by apply elem_of_nil in Hin].
    destruct (negb (JS.truthy q));
      [intros [= <- <- <-] Hin; by apply elem_of_nil in Hin|].
    cbv zeta. destruct (sequence _) as [lines|e];
      [|intros [= <- <- <-] Hin; by apply not_asked_among_lookups in Hin].
    destruct (openai_api env (chatMessages _ _) 200) as [text|] eqn:Hapi;
      intros [= <- <- <-] Hin;
      (apply elem_of_app in Hin as [Hin|Hin];
       [by apply not_asked_among_lookups in Hin|]);
      apply list_elem_of_singleton in Hin; injection Hin as -> ->; rewrite Hapi;
      [by eexists _, _|done].
  - rewrite openai_summary_run.
    destruct (GeminiAIController.locations req) as [[|loc locs]|];
      try (intros [= <- <- <-] Hin; by apply elem_of_nil in Hin).
    cbv beta iota. remember (loc :: locs) as given eqn:Hgiven. clear Hgiven.
    destruct (negb (GeminiAIController.truthy (WEATHER_API_KEY env)));
      [intros [= <- <- <-] Hin; by apply elem_of_nil in Hin|].
    destruct (negb (GeminiAIController.truthy (OPENAI_API_KEY env)));
      [intros [= <- <- <-] Hin; by apply elem_of_nil in Hin|].
    cbv zeta. destruct (buildSummary _ _ _) as [[ws k]|e];
      [|intros [= <- <- <-] Hin; by apply not_asked_among_lookups in Hin].
    destruct (negb (JS.truthy ws));
      [intros [= <- <- <-] Hin; by apply not_asked_among_lookups in Hin|].
    destruct (openai_api env (summaryMessages _) 250) as [text|] eqn:Hapi;
      intros [= <- <- <-] Hin;
      (apply elem_of_app in Hin as [Hin|Hin];
       [by apply not_asked_among_lookups in Hin|]);
      apply list_elem_of_singleton in Hin; injection Hin as -> ->; rewrite Hapi;
      [by eexists _, _|done].
  - rewrite openai_suggestions_run.
    destruct (GeminiAIController.interests req) as [i|];
      [|intros [= <- <- <-] Hin; by apply elem_of_nil in Hin].
    destruct (negb (JS.truthy i));
      [intros [= <- <- <-] Hin; by apply elem_of_nil in Hin|].
    destruct (negb (GeminiAIController.truthy (OPENAI_API_KEY env)));
      [intros [= <- <- <-] Hin; by apply elem_of_nil in Hin|].
    cbv zeta.
    destruct (openai_api env (suggestionsMessages _ _) 300) as [text|] eqn:Hapi;
      intros [= <- <- <-] Hin;
      apply list_elem_of_singleton in Hin; injection Hin as -> ->; rewrite Hapi;
      [by eexists _, _|done].
  - rewrite openai_trivia_run.
    destruct (GeminiAIController.location req) as [loc|];
      [|intros [= <- <- <-] Hin; by apply elem_of_nil in Hin].
    destruct (negb (JS.truthy loc));
      [intros [= <- <- <-] Hin; by apply elem_of_nil in Hin|].
    destruct (negb (GeminiAIController.truthy (WEATHER_API_KEY env))
              || negb (GeminiAIController.truthy (OPENAI_API_KEY env)));
      [intros [= <- <- <-] Hin; by apply elem_of_nil in Hin|].
    destruct (weather_api env loc) as [d|];
      [|intros [= <- <- <-] Hin; by apply list_elem_of_singleton in Hin].
    destruct (triviaMessages loc d) as [msgs|e];
      [|intros [= <- <- <-] Hin; by apply list_elem_of_singleton in Hin].
    destruct (openai_api env msgs 200) as [text|] eqn:Hapi;
      intros [= <- <- <-] Hin;
      (apply elem_of_cons in Hin as [Hin|Hin]; [done|]);
      apply list_elem_of_singleton in Hin; injection Hin as -> ->; rewrite Hapi;
      [by eexists _, _|done].
Qed.

Ltac shape :=
  eexists; split; [reflexivity|]; split; [cbn; by auto|];
  cbv zeta; cbn [snd]; try split; try done; eauto 10.

(** X25: every handler of the controller on the OpenAI API answers,
    with 200, 400 or 500.  It asks the weather provider for the locations
    of the request in the order of the array (the summary does not sort
    them), and then the generative provider at most once, with the budget
    of its kind: 200, 250, 300 and 200.  The summary, the suggestions and
    the trivia make no request at all when the key of the generative
    provider is not configured; the chat does not look at the keys. *)
Theorem openai_requests_shape env req u :
  (exists r,
     fst (fst (handleWeatherChat env req u)) = Return r
     /\ (status r = 200 \/ status r = 400 \/ status r = 500)%nat
     /\ let asked := WeatherRequest <$> default [] (GeminiAIController.locations req) in
        let log := snd (handleWeatherChat env req u) in
        log = [] \/ log = asked \/ exists m, log = asked ++ [OpenAIRequest m 200])
  /\ (exists r,
        fst (fst (generateWeatherSummary env req u)) = Return r
        /\ (status r = 200 \/ status r = 400 \/ status r = 500)%nat
        /\ let asked :=
             WeatherRequest <$> default [] (GeminiAIController.locations req) in
           let log := snd (generateWeatherSummary env req u) in
           (log = [] \/ log = asked \/ exists m, log = asked ++ [OpenAIRequest m 250])
           /\ (GeminiAIController.truthy (OPENAI_API_KEY env) = false -> log = []))
  /\ (exists r,
        fst (fst (getLocationSuggestions env req u)) = Return r
        /\ (status r = 200 \/ status r = 400 \/ status r = 500)%nat
        /\ let log := snd (getLocationSuggestions env req u) in
           (log = [] \/ exists m, log = [OpenAIRequest m 300])
           /\ (GeminiAIController.truthy (OPENAI_API_KEY env) = false -> log = []))
  /\ (exists r,
        fst (fst (generateWeatherTrivia env req u)) = Return r
        /\ (status r = 200 \/ status r = 400 \/ status r = 500)%nat
        /\ let log := snd (generateWeatherTrivia env req u) in
           (log = []
            \/ exists loc,
                 GeminiAIController.location req = Some loc
                 /\ (log = [WeatherRequest loc]
                     \/ exists m, log = [WeatherRequest loc; OpenAIRequest m 200]))
           /\ (GeminiAIController.truthy (OPENAI_API_KEY env) = false -> log = [])).
Proof.
  split; [|split; [|split]].
  - rewrite openai_chat_run.
    destruct (GeminiAIController.question req) as [q|]; [|shape].
    destruct (negb (JS.truthy q)); [shape|].
    cbv zeta. destruct (sequence _) as [lines|e]; [|shape].
    destruct (openai_api env _ _); shape.
  - rewrite openai_summary_run.
    destruct (GeminiAIController.locations req) as [[|loc locs]|]; try shape.
    cbv beta iota. remember (loc :: locs) as given eqn:Hgiven. clear Hgiven.
    destruct (negb (GeminiAIController.truthy (WEATHER_API_KEY env))); [shape|].
    destruct (GeminiAIController.truthy (OPENAI_API_KEY env)) eqn:Hkey; [|shape].
    cbn [negb]. cbv zeta.
    destruct (buildSummary _ _ _) as [[ws k]|e]; [|shape].
    destruct (negb (JS.truthy ws)); [shape|].
    destruct (openai_api env _ _); shape.
  - rewrite openai_suggestions_run.
    destruct (GeminiAIController.interests req) as [i|]; [|shape].
    destruct (negb (JS.truthy i)); [shape|].
    destruct (GeminiAIController.truthy (OPENAI_API_KEY env)) eqn:Hkey; [|shape].
    cbn [negb]. cbv zeta.
    destruct (openai_api env _ _); shape.
  - rewrite openai_trivia_run.
    destruct (GeminiAIController.location req) as [loc|]; [|shape].
    destruct (negb (JS.truthy loc)); [shape|].
    destruct (GeminiAIController.truthy (OPENAI_API_KEY env)) eqn:Hkey;
      [|rewrite orb_true_r; shape].
    destruct (negb (GeminiAIController.truthy (WEATHER_API_KEY env)));
      cbn [negb orb]; [shape|].
    destruct (weather_api env loc) as [d|]; [|shape].
    destruct (triviaMessages loc d) as [msgs|e]; [|shape].
    destruct (openai_api env msgs 200); shape.
Qed.

End OpenAIFacts.

(** A question about Paris sent to the controller on the OpenAI API
    while the generative provider is down. *)
Lemma openai_answer_decides_witness :
  fst (fst (AIWeatherController.handleWeatherChat MoreExamples.openai_down
              (Examples.chat "Will it rain?" ["Paris"]) tt))
  = Eff.Return (AIWeatherController.status_json 500
                  [("error", AIWeatherController.Text "AI service unavailable")]).
Proof.
  destruct (AIWeatherController.handleWeatherChat MoreExamples.openai_down
              (Examples.chat "Will it rain?" ["Paris"]) tt) as [[o u'] log] eqn:Hrun.
  assert (Hasked : exists messages,
             AIWeatherController.OpenAIRequest messages 200 ∈ log).
  { vm_compute in Hrun. injection Hrun as _ _ <-. eexists. find_request. }
  destruct Hasked as [messages Hasked].
  exact (openai_answer_decides MoreExamples.openai_down
           (Examples.chat "Will it rain?" ["Paris"]) tt
           AIWeatherController.handleWeatherChat o u' log messages 200%nat
           ltac:(find_request) Hrun Hasked).
Defined.

(** A widget for " Oslo" followed by a no-break space, added to the
    collection that holds Paris. *)
Lemma created_widget_round_trip_witness :
  let w := {| WidgetController._id := "000000000000000000000001";
              WidgetController.location := "Oslo";
              WidgetController.createdAt := 1000;
              WidgetController.updatedAt := 1000 |} in
  let s' := {| WidgetController.clock := 1000;
               WidgetController.widgets := [Examples.paris; w] |} in
  WidgetController.createWidget Examples.widget_env
    (JS.Str (" Oslo" +:+ MoreExamples.nbsp)) Examples.widgets0
  = ({| WidgetController.status := 201;
        WidgetController.body := WidgetController.Document w |}, s')
  /\ WidgetQueries.getWidgetById "000000000000000000000001" s'
     = ({| WidgetQueries.status := 200;
           WidgetQueries.body := WidgetQueries.Document w |}, s')
  /\ WidgetQueries.deleteWidget "000000000000000000000001" s'
     = ({| WidgetQueries.status := 200;
           WidgetQueries.body := WidgetQueries.Deleted w |}, Examples.widgets0).
Proof.
  intros w s'.
  assert (Hrun : WidgetController.createWidget Examples.widget_env
                   (JS.Str (" Oslo" +:+ MoreExamples.nbsp)) Examples.widgets0
                 = ({| WidgetController.status := 201;
                       WidgetController.body := WidgetController.Document w |}, s'))
    by (vm_compute; reflexivity).
  split; [exact Hrun|].
  destruct (created_widget_round_trip Examples.widget_env
              (" Oslo" +:+ MoreExamples.nbsp) Examples.widgets0
              w s' eq_refl ltac:(repeat constructor) Hrun) as (_ & Hget & Hdelete).
  split; [exact Hget|exact Hdelete].
Defined.

(** The collection that holds Paris, after the creation of a location
    of 51 accented letters (51 code units in 102 bytes) and after a
    deletion. *)
Lemma stored_locations_stay_valid_witness :
  let long := String.concat "" (replicate 51 "é") in
  (exists w,
     WidgetController.createWidget Examples.widget_env (JS.Str long) Examples.widgets0
     = ({| WidgetController.status := 201;
           WidgetController.body := WidgetController.Document w |},
        {| WidgetController.clock := 1000;
           WidgetController.widgets := [Examples.paris; w] |})
     /\ WidgetController.location w = long)
  /\ Forall (fun w =>
               (2 <= JS.length (WidgetController.location w) <= 100)%nat
               /\ JS.trim (WidgetController.location w) = WidgetController.location w)
       (WidgetController.widgets
          (snd (WidgetController.createWidget Examples.widget_env (JS.Str long)
                  Examples.widgets0)))
  /\ Forall (fun w =>
               (2 <= JS.length (WidgetController.location w) <= 100)%nat
               /\ JS.trim (WidgetController.location w) = WidgetController.location w)
       (WidgetController.widgets
          (snd (WidgetQueries.deleteWidget "000000000000000000000000"
                  Examples.widgets0))).
Proof.
  intros long.
  assert (Hinv : Forall (fun w =>
                   (2 <= JS.length (WidgetController.location w) <= 100)%nat
                   /\ JS.trim (WidgetController.location w)
                      = WidgetController.location w)
                   (WidgetController.widgets Examples.widgets0)).
  { repeat constructor; vm_compute; lia. }
  destruct (stored_locations_stay_valid Examples.widget_env (JS.Str long)
              "000000000000000000000000" Examples.widgets0 Hinv)
    as [Hcreate Hdelete].
  split; [|split; [exact Hcreate|exact Hdelete]].
  eexists. split; [vm_compute; reflexivity|reflexivity].
Defined.

